(** * Elastic solid plugin: a shallow embedding of [plugin/elasticity/solid.cc]

    The development follows the source file top to bottom: the local
    numbering tables, the geometry kernels, [Solid::Create],
    [Solid::CreateStencils], the constructor [Solid::Solid] and the per-step
    force evaluator [Solid::Compute].

    Modelling conventions.
    - [mjtNum] (a C [double]) is idealised as a real number: the arithmetic is
      exact, and no rounding, overflow, infinity or NaN is represented (a
      division by zero yields some real number, as [Rdiv] does).  The source
      never branches on an [mjtNum], so the control flow is not affected.
    - [int] values that are compared or used as offsets (vertex ids, body ids,
      addresses) are integers [Z]; the counters [nt] and [ne], which start at
      zero and only count up, are natural numbers.  Wrap-around of [int] is not
      represented.
    - [std::vector] is a [list] with checked reads and writes: an access past
      the end yields [out_of_bounds], so that "every access is in bounds" is a
      provable statement.  Host arrays reached through raw pointers
      ([m->body_pos], [d->xpos], [d->qfrc_passive], ...) are total functions
      from offsets to values.
    - Small local C arrays ([force[12]], [elongation[6]], ...) are functions
      from the index to the stored value, updated pointwise. *)

From Stdlib Require Import ZArith List String Reals Lra Lia.
From stdpp Require Import base option list gmap.

(** ** Outcomes of the fallible operations *)

Inductive array_name :=
| A_simplex | A_edgeidx | A_elements | A_edges
| A_metric | A_reference | A_deformed | A_previous.

Inductive error :=
| mju_error_raised                 (* [mju_error]: fatal, aborts construction *)
| assertion_failed                 (* [assert] of a debug build *)
| out_of_bounds (a : array_name).  (* a vector indexed past its end *)

Definition result (A : Type) : Type := error + A.

Definition ok {A} (x : A) : result A := inr x.
Definition fail {A} (e : error) : result A := inl e.

Definition bind {A B} (r : result A) (f : A -> result B) : result B :=
  match r with
  | inl e => inl e
  | inr x => f x
  end.

Notation "'do' x <- e ; f" := (bind e (fun x => f))
  (at level 10, x pattern, e at level 100, f at level 200).

Definition read_at {A} (a : array_name) (l : list A) (i : nat) : result A :=
  match l !! i with
  | Some x => ok x
  | None => fail (out_of_bounds a)
  end.

Definition write_at {A} (a : array_name) (l : list A) (i : nat) (x : A)
  : result (list A) :=
  if decide (i < length l) then ok (<[i:=x]> l) else fail (out_of_bounds a).

(** ** Counted loops

    [for_loop n body s] is [for (int i = 0; i < n; i++) body(i)] run on the
    state [s]; [for_loopM] is the same loop with a body that may fail;
    [for_range lo hi] runs over the integers [lo <= i < hi]. *)

Definition for_loop {St} (n : nat) (body : nat -> St -> St) (s : St) : St :=
  fold_left (fun acc i => body i acc) (seq 0 n) s.

Definition for_loopM {St} (n : nat) (body : nat -> St -> result St) (s : St)
  : result St :=
  fold_left (fun acc i => bind acc (body i)) (seq 0 n) (ok s).

Definition for_range {St} (lo hi : Z) (body : Z -> St -> St) (s : St) : St :=
  for_loop (Z.to_nat (hi - lo)) (fun k => body (lo + Z.of_nat k)%Z) s.

(** ** Numbers and local arrays *)

Definition mjtNum : Type := R.
Bind Scope R_scope with mjtNum.

(** A host array seen through a pointer, and pointer arithmetic [x + off]. *)
Definition ptr : Type := Z -> mjtNum.
Definition ptr_add (x : ptr) (off : Z) : ptr := fun k => x (off + k)%Z.

(** A local C array of numbers and the assignment [a[i] = v]. *)
Definition larray : Type := nat -> mjtNum.
Definition zeros : larray := fun _ => 0%R.
Definition upd {A} (a : nat -> A) (i : nat) (v : A) : nat -> A :=
  fun k => if Nat.eqb k i then v else a k.

(** ** Local tetrahedron numbering *)

Module Stencil3D.
Definition kNumEdges : nat := 6.
Definition kNumVerts : nat := 4.

(** [struct Stencil3D { int vertices[kNumVerts]; int edges[kNumEdges]; }];
    only its two constants and two fields are used by the source. *)
Record t := mk { vertices : list Z; edges : list nat }.

(** A value-initialised stencil, as produced by [elements.resize(nt)]. *)
Definition zero : t := mk (replicate kNumVerts 0%Z) (replicate kNumEdges 0).

Definition set_vertex (el : t) (v : nat) (x : Z) : t :=
  mk (<[v:=x]> (vertices el)) (edges el).
Definition set_edge (el : t) (e : nat) (id : nat) : t :=
  mk (vertices el) (<[e:=id]> (edges el)).
End Stencil3D.

Definition kNumEdges : nat := Stencil3D.kNumEdges.
Definition kNumVerts : nat := Stencil3D.kNumVerts.

Definition table (rows : list (list nat)) (i j : nat) : nat :=
  (rows !!! i) !!! j.

Definition edge : nat -> nat -> nat :=
  table [[0; 1]; [1; 2]; [2; 0]; [2; 3]; [0; 3]; [1; 3]].
Definition face : nat -> nat -> nat :=
  table [[2; 1; 0]; [0; 1; 3]; [1; 2; 3]; [2; 0; 3]].
Definition e2f : nat -> nat -> nat :=
  table [[2; 3]; [1; 3]; [2; 1]; [1; 0]; [0; 2]; [0; 3]].

(** ** Host vector kernels

    Modelled from the spec: [mju_sub3], [mju_cross] and [mju_dot3] belong to
    the host engine and are not part of [solid.cc]; the spec describes them as
    the difference of two points, the "cross product of its two edge vectors"
    and the dot product in "(1/6)·(edge2 × edge1)·edge3". *)

Definition mju_sub3 (a b : ptr) : larray :=
  fun i => (a (Z.of_nat i) - b (Z.of_nat i))%R.

Definition mju_cross (a b : larray) : larray :=
  fun i =>
    let '(a0, a1, a2) := (a 0, a 1, a 2) in
    let '(b0, b1, b2) := (b 0, b 1, b 2) in
    match i with
    | 0 => (a1 * b2 - a2 * b1)%R
    | 1 => (a2 * b0 - a0 * b2)%R
    | _ => (a0 * b1 - a1 * b0)%R
    end.

Definition mju_dot3 (a b : larray) : mjtNum :=
  let '(a0, a1, a2) := (a 0, a 1, a 2) in
  let '(b0, b1, b2) := (b 0, b 1, b 2) in
  (a0 * b0 + a1 * b1 + a2 * b2)%R.

(** ** Geometry kernels *)

(** [v[i]] for the [int v[kNumVerts]] of an element. *)
Definition vert (v : list Z) (i : nat) : Z := v !!! i.

(** volume of a tetrahedron *)
Definition ComputeVolume (x : ptr) (v : list Z) : mjtNum :=
  let edge1 := mju_sub3 (ptr_add x (3 * vert v 1)) (ptr_add x (3 * vert v 0)) in
  let edge2 := mju_sub3 (ptr_add x (3 * vert v 2)) (ptr_add x (3 * vert v 0)) in
  let edge3 := mju_sub3 (ptr_add x (3 * vert v 3)) (ptr_add x (3 * vert v 0)) in
  let normal := mju_cross edge2 edge1 in
  (mju_dot3 normal edge3 / 6)%R.

(** compute local basis; [faceL] and [faceR] are rows of [face].  The two
    halves of the buffers [edgesL] and [edgesR] are kept as separate arrays. *)
Definition ComputeBasis (basis : larray) (x : ptr) (v : list Z)
    (faceL faceR : nat -> nat) (volume : mjtNum) : larray :=
  let edgesL0 := mju_sub3 (ptr_add x (3 * vert v (faceL 1)))
                          (ptr_add x (3 * vert v (faceL 0))) in
  let edgesL3 := mju_sub3 (ptr_add x (3 * vert v (faceL 2)))
                          (ptr_add x (3 * vert v (faceL 0))) in
  let edgesR0 := mju_sub3 (ptr_add x (3 * vert v (faceR 1)))
                          (ptr_add x (3 * vert v (faceR 0))) in
  let edgesR3 := mju_sub3 (ptr_add x (3 * vert v (faceR 2)))
                          (ptr_add x (3 * vert v (faceR 0))) in
  let normalL := mju_cross edgesL0 edgesL3 in
  let normalR := mju_cross edgesR0 edgesR3 in
  for_loop 3 (fun i =>
    for_loop 3 (fun j basis =>
      upd basis (3 * i + j)
        ((normalL i * normalR j + normalR i * normalL j)
         / (36 * 2 * volume * volume))%R))
    basis.

(** gradients of edge lengths with respect to vertex positions:
    [gradient[e][i][d]] *)
Definition GradSquaredLengths (x : ptr) (v : list Z)
    (edge : nat -> nat -> nat) : nat -> nat -> nat -> mjtNum :=
  fun e i d =>
    let v0 := vert v (edge e 0) in
    let v1 := vert v (edge e 1) in
    let a := x (3 * v0 + Z.of_nat d)%Z in
    let b := x (3 * v1 + Z.of_nat d)%Z in
    match i with
    | 0 => (a - b)%R
    | _ => (b - a)%R
    end.

(** ** Host data

    The fields of [mjModel] and [mjData] that [solid.cc] reads or writes. *)

Record mjModel := mk_mjModel {
  nbody : Z;
  body_plugin : Z -> Z;
  body_dofadr : Z -> Z;
  body_pos : ptr;
  nflex : Z;
  flex_vertadr : Z -> Z;
  flex_vertbodyid : Z -> Z;
  flex_edgeadr : Z -> Z;
  flexedge_length0 : ptr;
  opt_timestep : mjtNum
}.

Record mjData := mk_mjData {
  xpos : ptr;
  flexedge_length : ptr;
  qfrc_passive : ptr
}.

Definition set_qfrc_passive (q : ptr) (d : mjData) : mjData :=
  mk_mjData (xpos d) (flexedge_length d) q.

(** [q[adr] -= f] on a host array. *)
Definition ptr_sub_at (q : ptr) (adr : Z) (f : mjtNum) : ptr :=
  fun k => if (k =? adr)%Z then (q k - f)%R else q k.

(** ** The plugin instance *)

Record Solid := mk_Solid {
  i0 : Z;                        (* index of first plugin body *)
  f0 : Z;                        (* index of the flex, or -1 *)
  nv : Z;                        (* number of plugin bodies *)
  nt : nat;                      (* number of tetrahedra *)
  ne : nat;                      (* number of edges *)
  elements : list Stencil3D.t;
  edges : list (Z * Z);
  metric : list mjtNum;
  reference : list mjtNum;
  deformed : list mjtNum;
  previous : list mjtNum;
  damping : mjtNum
}.

Definition set_i0 (x : Z) (s : Solid) : Solid :=
  mk_Solid x (f0 s) (nv s) (nt s) (ne s) (elements s) (edges s) (metric s)
           (reference s) (deformed s) (previous s) (damping s).
Definition set_f0 (x : Z) (s : Solid) : Solid :=
  mk_Solid (i0 s) x (nv s) (nt s) (ne s) (elements s) (edges s) (metric s)
           (reference s) (deformed s) (previous s) (damping s).
Definition set_nv (x : Z) (s : Solid) : Solid :=
  mk_Solid (i0 s) (f0 s) x (nt s) (ne s) (elements s) (edges s) (metric s)
           (reference s) (deformed s) (previous s) (damping s).
Definition set_nt (x : nat) (s : Solid) : Solid :=
  mk_Solid (i0 s) (f0 s) (nv s) x (ne s) (elements s) (edges s) (metric s)
           (reference s) (deformed s) (previous s) (damping s).
Definition set_ne (x : nat) (s : Solid) : Solid :=
  mk_Solid (i0 s) (f0 s) (nv s) (nt s) x (elements s) (edges s) (metric s)
           (reference s) (deformed s) (previous s) (damping s).
Definition set_elements (x : list Stencil3D.t) (s : Solid) : Solid :=
  mk_Solid (i0 s) (f0 s) (nv s) (nt s) (ne s) x (edges s) (metric s)
           (reference s) (deformed s) (previous s) (damping s).
Definition set_edges (x : list (Z * Z)) (s : Solid) : Solid :=
  mk_Solid (i0 s) (f0 s) (nv s) (nt s) (ne s) (elements s) x (metric s)
           (reference s) (deformed s) (previous s) (damping s).
Definition set_metric (x : list mjtNum) (s : Solid) : Solid :=
  mk_Solid (i0 s) (f0 s) (nv s) (nt s) (ne s) (elements s) (edges s) x
           (reference s) (deformed s) (previous s) (damping s).
Definition set_reference (x : list mjtNum) (s : Solid) : Solid :=
  mk_Solid (i0 s) (f0 s) (nv s) (nt s) (ne s) (elements s) (edges s) (metric s)
           x (deformed s) (previous s) (damping s).
Definition set_deformed (x : list mjtNum) (s : Solid) : Solid :=
  mk_Solid (i0 s) (f0 s) (nv s) (nt s) (ne s) (elements s) (edges s) (metric s)
           (reference s) x (previous s) (damping s).
Definition set_previous (x : list mjtNum) (s : Solid) : Solid :=
  mk_Solid (i0 s) (f0 s) (nv s) (nt s) (ne s) (elements s) (edges s) (metric s)
           (reference s) (deformed s) x (damping s).

(** ** [Solid::CreateStencils] *)

(** [elements[t].vertices[v] = simplex[kNumVerts*t+v]] *)
Definition populate_vertex (simplex : list Z) (t v : nat) (s : Solid)
  : result Solid :=
  do x <- read_at A_simplex simplex (kNumVerts * t + v);
  do el <- read_at A_elements (elements s) t;
  do els <- write_at A_elements (elements s) t (Stencil3D.set_vertex el v x);
  ok (set_elements els s).

(** [elements[t].edges[e] = id] *)
Definition assign_edge (t e id : nat) (s : Solid) : result Solid :=
  do el <- read_at A_elements (elements s) t;
  do els <- write_at A_elements (elements s) t (Stencil3D.set_edge el e id);
  ok (set_elements els s).

(** [edge_indices.insert({pair, ne})] of [std::unordered_map]: the key is
    added only when absent; the outcome is the value now stored under the key
    ([it->second]), the flag [inserted] and the map. *)
Definition map_insert (key : Z * Z) (val : nat) (edge_indices : gmap (Z * Z) nat)
  : nat * bool * gmap (Z * Z) nat :=
  match edge_indices !! key with
  | Some old => (old, false, edge_indices)
  | None => (val, true, <[key:=val]> edge_indices)
  end.

(** The pair [(min, max)] of the two vertices of local edge [e]. *)
Definition edge_pair (v : list Z) (e : nat) : Z * Z :=
  (Z.min (vert v (edge e 0)) (vert v (edge e 1)),
   Z.max (vert v (edge e 0)) (vert v (edge e 1))).

(** Body of the loop over the local edges [e] of tetrahedron [t].  [debug]
    tells whether [assert] is compiled in (no [NDEBUG]). *)
Definition stencil_edge (debug : bool) (edgeidx : list Z) (v : list Z)
    (t e : nat) (st : gmap (Z * Z) nat * Solid)
  : result (gmap (Z * Z) nat * Solid) :=
  let '(edge_indices, s) := st in
  let pair := edge_pair v e in
  let '(it_second, inserted, edge_indices) :=
    map_insert pair (ne s) edge_indices in
  do s <- (if inserted
           then
             let s := set_edges (edges s ++ [pair]) s in
             do s <- assign_edge t e (ne s) s;
             ok (set_ne (S (ne s)) s)
           else assign_edge t e it_second s);
  do _ <- (if debug && negb (bool_decide (edgeidx = []))
           then
             do el <- read_at A_elements (elements s) t;
             do x <- read_at A_edgeidx edgeidx (kNumEdges * t + e);
             if (Z.of_nat (Stencil3D.edges el !!! e) =? x)%Z
             then ok tt else fail assertion_failed
           else ok tt);
  ok (edge_indices, s).

Definition CreateStencils (debug : bool) (simplex edgeidx : list Z) (s : Solid)
  : result Solid :=
  (* populate stencil *)
  let s := set_nt (length simplex / kNumVerts) s in
  let s := set_elements (resize (nt s) Stencil3D.zero (elements s)) s in
  do s <- for_loopM (nt s) (fun t =>
            for_loopM kNumVerts (populate_vertex simplex t)) s;
  (* map from edge vertices to their index in `edges` vector *)
  let edge_indices : gmap (Z * Z) nat := ∅ in
  (* loop over all tetrahedra *)
  do st <- for_loopM (nt s) (fun t st =>
             do el <- read_at A_elements (elements st.2) t;
             let v := Stencil3D.vertices el in
             for_loopM kNumEdges (stencil_edge debug edgeidx v t) st)
           (edge_indices, s);
  ok st.2.

(** ** Squared edge lengths

    Modelled from the spec: [UpdateSquaredLengths] (and the squared distance it
    uses) is defined in the sibling file [elasticity.cc], which is not part of
    [solid.cc]; the spec describes it as "recompute [deformed[edge]] for every
    edge as squared Euclidean length from current positions".  The first
    argument names the vector being filled. *)

Definition SquaredDist3 (a b : ptr) : mjtNum :=
  let dif := mju_sub3 a b in
  let '(d0, d1, d2) := (dif 0, dif 1, dif 2) in
  (d0 * d0 + d1 * d1 + d2 * d2)%R.

Definition edge_sqlen (x : ptr) (p : Z * Z) : mjtNum :=
  SquaredDist3 (ptr_add x (3 * p.1)) (ptr_add x (3 * p.2)).

Definition UpdateSquaredLengths (a : array_name) (len : list mjtNum)
    (edges : list (Z * Z)) (x : ptr) : result (list mjtNum) :=
  for_loopM (length edges) (fun idx len =>
    do p <- read_at A_edges edges idx;
    write_at a len idx (edge_sqlen x p)) len.

(** ** The constructor [Solid::Solid] *)

(** [for (i < kNumVerts) if (m->body_plugin[i0+v[i]] != instance) mju_error] *)
Definition check_plugin_bodies (m : mjModel) (instance : Z) (s : Solid)
    (v : list Z) : result unit :=
  for_loopM kNumVerts (fun i _ =>
    if (body_plugin m (i0 s + vert v i) =? instance)%Z
    then ok tt else fail mju_error_raised) tt.

(** compute edge basis: the loop filling [basis[kNumEdges][9]] *)
Definition edge_basis (x : ptr) (v : list Z) (volume : mjtNum) : nat -> larray :=
  for_loop kNumEdges (fun e basis =>
    upd basis e
      (ComputeBasis (basis e) x v (face (e2f e 0)) (face (e2f e 1)) volume))
    (fun _ => zeros).

(** compute first invariant i.e. trace(strain): the loop filling [trT] *)
Definition first_invariant (basis : nat -> larray) : larray :=
  for_loop kNumEdges (fun e =>
    for_loop 3 (fun i trT =>
      upd trT e (trT e + basis e (4 * i)%nat)%R))
    zeros.

(** compute second invariant i.e. trace(strain^2): the loop filling [trTT] *)
Definition second_invariant (basis : nat -> larray) : larray :=
  for_loop kNumEdges (fun ed1 =>
    for_loop kNumEdges (fun ed2 =>
      for_loop 3 (fun i =>
        for_loop 3 (fun j trTT =>
          upd trTT (kNumEdges * ed1 + ed2)
            (trTT (kNumEdges * ed1 + ed2)%nat
             + basis ed1 (3 * i + j)%nat * basis ed2 (3 * j + i)%nat)%R))))
    zeros.

(** The value assigned to [metric[index]] for the local edges [ed1], [ed2]. *)
Definition metric_entry (mu la : mjtNum) (trT trTT : larray) (ed1 ed2 : nat)
  : mjtNum :=
  (mu * trTT (kNumEdges * ed1 + ed2)%nat + la * trT ed2 * trT ed1)%R.

(** Body of the loop over all tetrahedra in the constructor. *)
Definition assemble_metric (m : mjModel) (instance : Z) (nu E : mjtNum)
    (t : nat) (s : Solid) : result Solid :=
  do el <- read_at A_elements (elements s) t;
  let v := Stencil3D.vertices el in
  do _ <- check_plugin_bodies m instance s v;
  let x := ptr_add (body_pos m) (3 * i0 s) in
  (* tetrahedron volume *)
  let volume := ComputeVolume x v in
  (* local geometric quantities *)
  let basis := edge_basis x v volume in
  let trT := first_invariant basis in
  let trTT := second_invariant basis in
  (* material parameters *)
  let mu := (E / (2 * (1 + nu)) * volume)%R in
  let la := (E * nu / ((1 + nu) * (1 - 2 * nu)) * volume)%R in
  (* assembly of strain metric tensor *)
  do metric <-
    for_loopM kNumEdges (fun ed1 =>
      for_loopM kNumEdges (fun ed2 metric =>
        let index := kNumEdges * kNumEdges * t + kNumEdges * ed1 + ed2 in
        write_at A_metric metric index (metric_entry mu la trT trTT ed1 ed2)))
      (metric s);
  ok (set_metric metric s).

(** The 6x6 metric of the element with vertices [v], as the assembler
    computes it from the rest positions [x]. *)
Definition element_metric (x : ptr) (v : list Z) (nu E : mjtNum)
    (ed1 ed2 : nat) : mjtNum :=
  let volume := ComputeVolume x v in
  let basis := edge_basis x v volume in
  let mu := (E / (2 * (1 + nu)) * volume)%R in
  let la := (E * nu / ((1 + nu) * (1 - 2 * nu)) * volume)%R in
  metric_entry mu la (first_invariant basis) (second_invariant basis) ed1 ed2.

(** count plugin bodies: [if (m->body_plugin[i] == instance) if (!nv++) i0 = i] *)
Definition count_plugin_bodies (m : mjModel) (instance : Z) (s : Solid) : Solid :=
  for_range 1 (nbody m) (fun i s =>
    if (body_plugin m i =? instance)%Z
    then
      let s' := set_nv (nv s + 1) s in
      if (nv s =? 0)%Z then set_i0 i s' else s'
    else s) s.

(** count flexes; the flag of the loop state records that [break] was taken *)
Definition count_flexes (m : mjModel) (s : Solid) : Solid :=
  (for_range 0 (nflex m) (fun i '(stop, s) =>
     if (stop : bool) then (stop, s)
     else if (flex_vertbodyid m (flex_vertadr m i) =? i0 s)%Z
          then (true, set_f0 i s)
          else (false, s)) (false, s)).2.

(** The constructor up to its call of [CreateStencils]: the member
    initialisers and the two counting loops.  [i0_init] is the indeterminate
    value the member [i0] holds before any plugin body is found. *)
Definition Solid_init (i0_init : Z) (m : mjModel) (instance : Z)
    (damp : mjtNum) : Solid :=
  let s := mk_Solid i0_init (-1) 0 0 0 [] [] [] [] [] [] damp in
  (* count plugin bodies *)
  let s := set_ne 0 (set_nv 0 s) in
  let s := count_plugin_bodies m instance s in
  (* count flexes *)
  count_flexes m s.

(** [debug] tells whether [assert] is compiled in; [d] is accepted and not
    used, as in the source. *)
Definition Solid_Solid (debug : bool) (i0_init : Z) (m : mjModel) (d : mjData)
    (instance : Z) (nu E damp : mjtNum) (simplex edgeidx : list Z)
  : result Solid :=
  let s := Solid_init i0_init m instance damp in
  (* generate tetrahedra from the vertices *)
  do s <- CreateStencils debug simplex edgeidx s;
  (* allocate arrays *)
  let s := set_metric (replicate (kNumEdges * kNumEdges * nt s) 0%R) s in
  (* loop over all tetrahedra *)
  do s <- for_loopM (nt s) (assemble_metric m instance nu E) s;
  (* allocate array *)
  let s := set_reference (replicate (ne s) 0%R) s in
  let s := set_deformed (replicate (ne s) 0%R) s in
  let s := set_previous (replicate (ne s) 0%R) s in
  (* compute edge lengths at equilibrium *)
  do ref <- UpdateSquaredLengths A_reference (reference s) (edges s)
              (ptr_add (body_pos m) (3 * i0 s));
  let s := set_reference ref s in
  ok (set_previous (reference s) s).

(** ** The force evaluator [Solid::Compute] *)

(** [elongation[e]] of the element [el] *)
Definition elongation_of (m : mjModel) (d : mjData) (s : Solid)
    (el : Stencil3D.t) (e : nat) : result mjtNum :=
  if (f0 s <? 0)%Z then
    let idx := Stencil3D.edges el !!! e in
    let kD := (damping s / opt_timestep m)%R in
    do dfm <- read_at A_deformed (deformed s) idx;
    do ref <- read_at A_reference (reference s) idx;
    do prv <- read_at A_previous (previous s) idx;
    ok (dfm - ref + (dfm - prv) * kD)%R
  else
    let idx := (Z.of_nat (Stencil3D.edges el !!! e) + flex_edgeadr m (f0 s))%Z in
    let deformed := (flexedge_length d idx * flexedge_length d idx)%R in
    let reference := (flexedge_length0 m idx * flexedge_length0 m idx)%R in
    ok (deformed - reference)%R.

(** compute elongation: the loop filling [elongation[kNumEdges]] *)
Definition compute_elongation (m : mjModel) (d : mjData) (s : Solid)
    (el : Stencil3D.t) : result larray :=
  for_loopM kNumEdges (fun e elongation =>
    do x <- elongation_of m d s el e;
    ok (upd elongation e x)) zeros.

(** compute local force: the loop filling [force[kNumVerts*3]] *)
Definition compute_force (s : Solid) (t : nat) (elongation : larray)
    (gradient : nat -> nat -> nat -> mjtNum) : result larray :=
  let offset := kNumEdges * kNumEdges in
  for_loopM kNumEdges (fun ed1 =>
    for_loopM kNumEdges (fun ed2 =>
      for_loopM 2 (fun i =>
        for_loopM 3 (fun x force =>
          do mt <- read_at A_metric (metric s)
                     (offset * t + kNumEdges * ed1 + ed2);
          let k := 3 * edge ed2 i + x in
          ok (upd force k
                (force k + elongation ed1 * gradient ed2 i x * mt)%R)))))
    zeros.

(** insert into global force *)
Definition insert_force (m : mjModel) (s : Solid) (v : list Z) (force : larray)
    (d : mjData) : mjData :=
  for_loop kNumVerts (fun i =>
    for_loop 3 (fun x d =>
      set_qfrc_passive
        (ptr_sub_at (qfrc_passive d)
           (body_dofadr m (i0 s) + 3 * vert v i + Z.of_nat x)%Z
           (force (3 * i + x)))
        d)) d.

(** Body of the loop over all elements. *)
Definition compute_element (m : mjModel) (s : Solid) (t : nat) (d : mjData)
  : result mjData :=
  do el <- read_at A_elements (elements s) t;
  let v := Stencil3D.vertices el in
  (* compute length gradient with respect to dofs *)
  let gradient := GradSquaredLengths (ptr_add (xpos d) (3 * i0 s)) v edge in
  do elongation <- compute_elongation m d s el;
  do force <- compute_force s t elongation gradient;
  ok (insert_force m s v force d).

(** The state in which the elements are visited: update edges if no flex. *)
Definition update_deformed (d : mjData) (s : Solid) : result Solid :=
  if (f0 s <? 0)%Z then
    do dfm <- UpdateSquaredLengths A_deformed (deformed s) (edges s)
                (ptr_add (xpos d) (3 * i0 s));
    ok (set_deformed dfm s)
  else ok s.

Definition Compute (m : mjModel) (d : mjData) (instance : Z) (s : Solid)
  : result (mjData * Solid) :=
  do s <- update_deformed d s;
  (* loop over all elements *)
  do d <- for_loopM (nt s) (compute_element m s) d;
  (* update stored lengths *)
  let s := if (f0 s <? 0)%Z then set_previous (deformed s) s else s in
  ok (d, s).

(** ** The factory function [Solid::Create]

    The configuration helpers of the host and of [elasticity.cc] are not part
    of [solid.cc]; they are parameters of the factory.  [None] is
    [std::nullopt] (after a warning). *)

Section Create.
Variable CheckAttr : string -> mjModel -> Z -> bool.
Variable mj_getPluginConfig : mjModel -> Z -> string -> string.
Variable strtod : string -> mjtNum.
Variable String2Vector : string -> list Z.

Definition Create (debug : bool) (i0_init : Z) (m : mjModel) (d : mjData)
    (instance : Z) : option (result Solid) :=
  if CheckAttr "face"%string m instance &&
     CheckAttr "edge"%string m instance &&
     CheckAttr "poisson"%string m instance &&
     CheckAttr "young"%string m instance
  then
    let nu := strtod (mj_getPluginConfig m instance "poisson"%string) in
    let E := strtod (mj_getPluginConfig m instance "young"%string) in
    let damp := strtod (mj_getPluginConfig m instance "damping"%string) in
    let face := String2Vector (mj_getPluginConfig m instance "face"%string) in
    let edge := String2Vector (mj_getPluginConfig m instance "edge"%string) in
    Some (Solid_Solid debug i0_init m d instance nu E damp face edge)
  else None.
End Create.

(** ** Specification notions for the stencil builder

    These definitions do not come from the code; they name what the
    statements about [CreateStencils] talk about. *)

(** The four vertex ids of tetrahedron [t] in the flat list [simplex]. *)
Definition tet_vertices (simplex : list Z) (t : nat) : list Z :=
  map (fun v => simplex !!! (kNumVerts * t + v)) (seq 0 kNumVerts).

(** The six normalised vertex pairs of tetrahedron [t], by local edge. *)
Definition tet_pairs (simplex : list Z) (t : nat) : list (Z * Z) :=
  map (edge_pair (tet_vertices simplex t)) (seq 0 kNumEdges).

(** The pairs of the first [n] tetrahedra in the order the builder visits
    them. *)
Definition all_pairs (simplex : list Z) (n : nat) : list (Z * Z) :=
  flat_map (tet_pairs simplex) (seq 0 n).

(** The distinct entries of a list in the order of their first occurrence. *)
Definition first_seen_step {A} `{EqDecision A} (acc : list A) (x : A) : list A :=
  if decide (x ∈ acc) then acc else acc ++ [x].
Definition first_seen {A} `{EqDecision A} (l : list A) : list A :=
  fold_left first_seen_step l [].

(** Two vertex pairs that are equal as unordered pairs. *)
Definition same_unordered (p q : Z * Z) : Prop :=
  (p.1 = q.1 ∧ p.2 = q.2) ∨ (p.1 = q.2 ∧ p.2 = q.1).

(** The two vertices of local edge [e] of tetrahedron [t], as listed. *)
Definition raw_pair (simplex : list Z) (t e : nat) : Z * Z :=
  (vert (tet_vertices simplex t) (edge e 0),
   vert (tet_vertices simplex t) (edge e 1)).

(** The edge id stored for local edge [e] of tetrahedron [t]. *)
Definition edge_id (s : Solid) (t e : nat) : option nat :=
  el ← elements s !! t; Stencil3D.edges el !! e.

(** A state on which no stencil has been built yet, as the constructor has
    it when it calls [CreateStencils]. *)
Definition fresh (s : Solid) : Prop :=
  elements s = [] ∧ edges s = [] ∧ ne s = 0.

(** The edge ids of a value-initialised stencil. *)
Definition zero_edges : list nat := replicate kNumEdges 0.

(** The pairs visited before local edge [e] of tetrahedron [t] is reached. *)
Definition pairs_upto (simplex : list Z) (t e : nat) : list (Z * Z) :=
  all_pairs simplex t ++ take e (tet_pairs simplex t).

(** The loop invariant of the edge loops of [CreateStencils]: [n] tetrahedra
    in all, the pairs before local edge [e] of tetrahedron [t] are done. *)
Definition stencil_inv (simplex : list Z) (n t e : nat)
    (st : gmap (Z * Z) nat * Solid) : Prop :=
  nt st.2 = n ∧
  length (elements st.2) = n ∧
  (∀ t', t' < n -> ∃ el, elements st.2 !! t' = Some el
       ∧ Stencil3D.vertices el = tet_vertices simplex t'
       ∧ length (Stencil3D.edges el) = kNumEdges) ∧
  edges st.2 = first_seen (pairs_upto simplex t e) ∧
  ne st.2 = length (edges st.2) ∧
  (∀ p i, st.1 !! p = Some i ↔ edges st.2 !! i = Some p) ∧
  (∀ t' e', (t' < t ∧ e' < kNumEdges) ∨ (t' = t ∧ e' < e) ->
     ∃ id, edge_id st.2 t' e' = Some id
       ∧ edges st.2 !! id = Some (edge_pair (tet_vertices simplex t') e')).

(** What [CreateStencils] establishes on the [n = length simplex / 4]
    tetrahedra of [simplex]. *)
Definition stencil_post (simplex : list Z) (s : Solid) : Prop :=
  let n := length simplex / kNumVerts in
  nt s = n ∧
  length (elements s) = n ∧
  (∀ t, t < n -> ∃ el, elements s !! t = Some el
       ∧ Stencil3D.vertices el = tet_vertices simplex t
       ∧ length (Stencil3D.edges el) = kNumEdges) ∧
  edges s = first_seen (all_pairs simplex n) ∧
  ne s = length (edges s) ∧
  (∀ t e, t < n -> e < kNumEdges ->
     ∃ id, edge_id s t e = Some id
       ∧ edges s !! id = Some (edge_pair (tet_vertices simplex t) e)).

(** The failures that only the validation array [edgeidx] can cause: the
    assertion is false, or the array is too short for the assertion to read
    (undefined behaviour in the source, an error here). *)
Definition edgeidx_error (err : error) : Prop :=
  err = assertion_failed ∨ err = out_of_bounds A_edgeidx.

(** The instance the constructor returns when it returns: the stencil [s1]
    built by [CreateStencils], the assembled metric [mt] and the rest
    lengths. *)
Definition ctor_result (m : mjModel) (s1 : Solid) (mt : list mjtNum) : Solid :=
  let ref := map (edge_sqlen (ptr_add (body_pos m) (3 * i0 s1))) (edges s1) in
  mk_Solid (i0 s1) (f0 s1) (nv s1) (nt s1) (ne s1) (elements s1) (edges s1)
           mt ref (replicate (ne s1) 0%R) ref (damping s1).

(** The metric vector [mt] holds the assembled 6x6 metric of each element. *)
Definition metric_assembled (m : mjModel) (nu E : mjtNum) (s1 : Solid)
    (mt : list mjtNum) : Prop :=
  length mt = kNumEdges * kNumEdges * nt s1 ∧
  ∀ t el ed1 ed2, elements s1 !! t = Some el ->
    ed1 < kNumEdges -> ed2 < kNumEdges ->
    mt !! (kNumEdges * kNumEdges * t + kNumEdges * ed1 + ed2)
    = Some (element_metric (ptr_add (body_pos m) (3 * i0 s1))
              (Stencil3D.vertices el) nu E ed1 ed2).

(** The state in which [Compute] leaves the instance. *)
Definition Compute_state (d : mjData) (s : Solid) : Solid :=
  if (f0 s <? 0)%Z
  then
    let dfm := map (edge_sqlen (ptr_add (xpos d) (3 * i0 s))) (edges s) in
    set_previous dfm (set_deformed dfm s)
  else s.

(** The state in which [Compute] visits the elements. *)
Definition Compute_visit (d : mjData) (s : Solid) : Solid :=
  if (f0 s <? 0)%Z
  then set_deformed (map (edge_sqlen (ptr_add (xpos d) (3 * i0 s))) (edges s)) s
  else s.

(** What [Compute] keeps of the host data: positions and edge lengths. *)
Definition same_inputs (d d' : mjData) : Prop :=
  xpos d' = xpos d ∧ flexedge_length d' = flexedge_length d.

(** The instance [s] with every entry of its metric multiplied by [c]. *)
Definition scale_metric (c : mjtNum) (s : Solid) : Solid :=
  set_metric (map (Rmult c) (metric s)) s.

(** The relation between the host data of a run with the metric scaled by
    [c] and those of the unscaled run, both started from [d]. *)
Definition scaled_force (c : mjtNum) (d d1 d2 : mjData) : Prop :=
  same_inputs d1 d2 ∧
  ∀ k, (qfrc_passive d2 k - qfrc_passive d k
        = c * (qfrc_passive d1 k - qfrc_passive d k))%R.

(** ** Specification notions for the constructor

    These name the setups on which the statements about the constructor
    speak of the source: the meshes its body check lets through, and the
    elements whose volume, which [ComputeBasis] squares and divides by, is
    not zero. *)

(** Every vertex of every complete tetrahedron of [simplex], taken relative
    to the body [i0], is a body of the plugin [instance]. *)
Definition mesh_on_plugin (m : mjModel) (instance i0 : Z) (simplex : list Z)
  : Prop :=
  ∀ t i, t < length simplex / kNumVerts -> i < kNumVerts ->
    body_plugin m (i0 + simplex !!! (kNumVerts * t + i)) = instance.

(** No element of [s] is flat in the rest pose of [m]. *)
Definition nonflat (m : mjModel) (s : Solid) : Prop :=
  ∀ t el, elements s !! t = Some el ->
    ComputeVolume (ptr_add (body_pos m) (3 * i0 s)) (Stencil3D.vertices el)
    ≠ 0%R.

(** ** The representation invariant of an instance *)

Definition Solid_wf (s : Solid) : Prop :=
  length (elements s) = nt s ∧
  length (edges s) = ne s ∧
  (∀ t el, elements s !! t = Some el →
     length (Stencil3D.edges el) = kNumEdges ∧
     ∀ e, e < kNumEdges → Stencil3D.edges el !!! e < ne s) ∧
  length (metric s) = kNumEdges * kNumEdges * nt s ∧
  length (reference s) = ne s ∧
  length (deformed s) = ne s ∧
  length (previous s) = ne s.

(** ** Concrete inputs for the examples *)

(** An instance on which nothing has been built, and a mesh of two
    tetrahedra sharing the face 1-2-3. *)
Definition empty_solid : Solid := mk_Solid 0 (-1) 0 0 0 [] [] [] [] [] [] 0%R.
Definition two_tets : list Z := [0; 1; 2; 3; 1; 2; 3; 4]%Z.
Definition two_tets_stencil : Solid :=
  Eval vm_compute in
    match CreateStencils true two_tets [] empty_solid with
    | inr s => s
    | inl _ => empty_solid
    end.

(** A unit tetrahedron: the world body 0 and the plugin bodies 1 to 4 at
    (0,0,0), (1,0,0), (0,1,0) and (0,0,1); no flex; timestep 1.  The data
    [tet_data] hold the rest positions and no force. *)
Definition tet_pos : ptr :=
  fun k => match k with 6%Z | 10%Z | 14%Z => 1%R | _ => 0%R end.
Definition tet_model : mjModel :=
  mk_mjModel 5 (fun i => if (1 <=? i)%Z && (i <=? 4)%Z then 0%Z else (-1)%Z)
    (fun i => (3 * (i - 1))%Z) tet_pos 0 (fun _ => 0%Z) (fun _ => 0%Z)
    (fun _ => 0%Z) (fun _ => 0%R) 1%R.
Definition tet_data : mjData :=
  mk_mjData tet_pos (fun _ => 0%R) (fun _ => 0%R).
Definition tet_simplex : list Z := [0; 1; 2; 3]%Z.

(** The instance built on the unit tetrahedron with Young's modulus 100,
    Poisson ratio 3/10 and no damping. *)
Definition tet_solid : Solid :=
  Eval vm_compute in
    match Solid_Solid true 0 tet_model tet_data 0 (3 / 10) 100 0 tet_simplex []
    with
    | inr s => s
    | inl _ => empty_solid
    end.

(** The tetrahedron with its second vertex on the x axis at abscissa [x1];
    the model [line_model] has it at rest at 4, so that the edge between the
    first two vertices has squared rest length 16. *)
Definition line_pos (x1 : mjtNum) : ptr :=
  fun k => match k with 6%Z => x1 | 10%Z | 14%Z => 1%R | _ => 0%R end.
Definition line_model : mjModel :=
  mk_mjModel 5 (fun i => if (1 <=? i)%Z && (i <=? 4)%Z then 0%Z else (-1)%Z)
    (fun i => (3 * (i - 1))%Z) (line_pos 4) 0 (fun _ => 0%Z) (fun _ => 0%Z)
    (fun _ => 0%Z) (fun _ => 0%R) 1%R.
Definition line_data (x1 : mjtNum) : mjData :=
  mk_mjData (line_pos x1) (fun _ => 0%R) (fun _ => 0%R).

(** The instance built on [line_model] with damping 1, and its states after a
    step with the vertex pushed in to 2, resp. pulled out to 5. *)
Definition line_solid : Solid :=
  Eval vm_compute in
    match
      Solid_Solid true 0 line_model (line_data 4) 0 (3 / 10) 100 1 tet_simplex []
    with
    | inr s => s
    | inl _ => empty_solid
    end.
Definition line_solid_compressed : Solid :=
  Eval vm_compute in Compute_state (line_data 2) line_solid.
Definition line_solid_stretched : Solid :=
  Eval vm_compute in Compute_state (line_data 5) line_solid.

(** The states in which the next step visits the elements, the vertex being
    released to 3, resp. pulled further to 6. *)
Definition line_solid_rebound : Solid :=
  Eval vm_compute in Compute_visit (line_data 3) line_solid_compressed.
Definition line_solid_stretching : Solid :=
  Eval vm_compute in Compute_visit (line_data 6) line_solid_stretched.
Definition line_element : Stencil3D.t :=
  Stencil3D.mk [0; 1; 2; 3]%Z [0; 1; 2; 3; 4; 5].

(** A host configuration for the unit tetrahedron that has no [edge]
    attribute: stand-ins for the host's attribute check and configuration
    lookup and for the two parsers, defined on the values of the five
    attributes only. *)
Definition tet_CheckAttr (name : string) (m : mjModel) (instance : Z) : bool :=
  true.
Definition tet_config (m : mjModel) (instance : Z) (name : string) : string :=
  if String.eqb name "face" then "0 1 2 3"%string
  else if String.eqb name "poisson" then "0.3"%string
  else if String.eqb name "young" then "100"%string
  else if String.eqb name "damping" then "0"%string
  else EmptyString.
Definition tet_strtod (v : string) : mjtNum :=
  if String.eqb v "0.3" then (3 / 10)%R
  else if String.eqb v "100" then 100%R
  else 0%R.
Definition tet_String2Vector (v : string) : list Z :=
  if String.eqb v "0 1 2 3" then tet_simplex else [].

(** ** Notions for the further properties

    Like the specification notions above, these definitions do not come from
    the code; they name what the further properties of the code talk about:
    variations of the inputs, and the parts of an instance or of the host
    data that a function leaves alone. *)

(** The fields of an instance that only the counting loops and the member
    initialisers of the constructor set. *)
Definition same_header (a b : Solid) : Prop :=
  i0 a = i0 b ∧ f0 a = f0 b ∧ nv a = nv b ∧ damping a = damping b.

(** The plugin bodies of [instance] among the bodies [1 .. nbody-1]. *)
Definition plugin_bodies (m : mjModel) (instance : Z) : list Z :=
  filter (fun i => body_plugin m i = instance) (seqZ 1 (nbody m - 1)).

(** The condition of the loop that looks for the flex. *)
Definition flex_of (m : mjModel) (body : Z) (i : Z) : Prop :=
  flex_vertbodyid m (flex_vertadr m i) = body.

(** The body of the loop over all tetrahedra of [CreateStencils]. *)
Definition stencil_tet (debug : bool) (edgeidx : list Z) (t : nat)
    (st : gmap (Z * Z) nat * Solid) : result (gmap (Z * Z) nat * Solid) :=
  do el <- read_at A_elements (elements st.2) t;
  for_loopM kNumEdges (stencil_edge debug edgeidx (Stencil3D.vertices el) t) st.

(** The edge ids of all elements in element order: the array an exporter
    would write into the [edge] attribute for the instance. *)
Definition edge_ids (s : Solid) : list Z :=
  flat_map (fun el => map Z.of_nat (Stencil3D.edges el)) (elements s).

(** The validation array [edgeidx] holds, for every local edge of every
    element of [s], the id that [s] stores for it. *)
Definition edgeidx_matches (edgeidx : list Z) (s : Solid) : Prop :=
  ∀ t e id, t < nt s -> e < kNumEdges -> edge_id s t e = Some id ->
    edgeidx !! (kNumEdges * t + e) = Some (Z.of_nat id).

(** The [c] components of a local force array [force[kNumVerts*3]] summed
    over the four local vertices. *)
Definition net_force (force : larray) (c : nat) : mjtNum :=
  (force c + force (3 + c)%nat + force (6 + c)%nat + force (9 + c)%nat)%R.

(** The position of local vertex [i] of an element with vertices [v], and the
    force on it, as vectors; the [k] component of the torque of a local force
    array about the origin, summed over the four local vertices. *)
Definition vertex_pos (x : ptr) (v : list Z) (i : nat) : larray :=
  fun c => x (3 * vert v i + Z.of_nat c)%Z.
Definition vertex_force (force : larray) (i : nat) : larray :=
  fun c => force (3 * i + c).
Definition net_torque (x : ptr) (v : list Z) (force : larray) (k : nat)
  : mjtNum :=
  (mju_cross (vertex_pos x v 0) (vertex_force force 0) k
   + mju_cross (vertex_pos x v 1) (vertex_force force 1) k
   + mju_cross (vertex_pos x v 2) (vertex_force force 2) k
   + mju_cross (vertex_pos x v 3) (vertex_force force 3) k)%R.

(** The offsets of [qfrc_passive] that belong to a vertex of an element of
    [s]. *)
Definition solid_dof (m : mjModel) (s : Solid) (k : Z) : Prop :=
  ∃ t el i x, elements s !! t = Some el ∧ i < kNumVerts ∧ x < 3
    ∧ k = (body_dofadr m (i0 s) + 3 * vert (Stencil3D.vertices el) i
           + Z.of_nat x)%Z.

(** The relation between the host data of a run started with the accumulated
    force [q'] and those of the run started from [d]. *)
Definition shifted_force (q' : ptr) (d d1 d2 : mjData) : Prop :=
  same_inputs d1 d2 ∧
  ∀ k, (qfrc_passive d2 k - q' k = qfrc_passive d1 k - qfrc_passive d k)%R.

(** All positions of a host array moved by the vector [u]; the array holds
    three coordinates per body. *)
Definition translate (u : larray) (x : ptr) : ptr :=
  fun k => (x k + u (Z.to_nat (k mod 3)))%R.

(** The host data with other positions, the model with other rest positions
    or another timestep, and the instance with other damping and length
    arrays. *)
Definition set_xpos (x : ptr) (d : mjData) : mjData :=
  mk_mjData x (flexedge_length d) (qfrc_passive d).
Definition set_body_pos (x : ptr) (m : mjModel) : mjModel :=
  mk_mjModel (nbody m) (body_plugin m) (body_dofadr m) x (nflex m)
    (flex_vertadr m) (flex_vertbodyid m) (flex_edgeadr m) (flexedge_length0 m)
    (opt_timestep m).
Definition set_opt_timestep (h : mjtNum) (m : mjModel) : mjModel :=
  mk_mjModel (nbody m) (body_plugin m) (body_dofadr m) (body_pos m) (nflex m)
    (flex_vertadr m) (flex_vertbodyid m) (flex_edgeadr m) (flexedge_length0 m) h.
Definition set_lengths (damp : mjtNum) (ref dfm prv : list mjtNum) (s : Solid)
  : Solid :=
  mk_Solid (i0 s) (f0 s) (nv s) (nt s) (ne s) (elements s) (edges s) (metric s)
    ref dfm prv damp.

(** ** Further concrete inputs *)

(** The stencil of the single tetrahedron [tet_simplex]. *)
Definition one_tet_stencil : Solid :=
  Eval vm_compute in
    match CreateStencils true tet_simplex [] empty_solid with
    | inr s => s
    | inl _ => empty_solid
    end.

(** The instance built on [line_model] with Young's modulus 0. *)
Definition line_solid_slack : Solid :=
  Eval vm_compute in
    match
      Solid_Solid true 0 line_model (line_data 4) 0 (3 / 10) 0 1 tet_simplex []
    with
    | inr s => s
    | inl _ => empty_solid
    end.

(** The unit tetrahedron as the second of two flexes: the first flex hangs on
    the world body, the second on the plugin bodies; every edge has rest
    length 1, and in [flex_data] the first edge of the second flex is
    stretched to 2. *)
Definition flex_model : mjModel :=
  mk_mjModel 5 (fun i => if (1 <=? i)%Z && (i <=? 4)%Z then 0%Z else (-1)%Z)
    (fun i => (3 * (i - 1))%Z) tet_pos 2 (fun i => (4 * i)%Z)
    (fun v => if (v <? 4)%Z then 0%Z else (v - 3)%Z)
    (fun f => (6 * f)%Z) (fun _ => 1%R) 1%R.
Definition flex_data : mjData :=
  mk_mjData tet_pos (fun k => if (k =? 6)%Z then 2%R else 1%R) (fun _ => 0%R).
Definition flex_solid : Solid :=
  Eval vm_compute in
    match Solid_Solid true 0 flex_model flex_data 0 (3 / 10) 100 1 tet_simplex []
    with
    | inr s => s
    | inl _ => empty_solid
    end.

(** * Proofs *)

(** ** Loops *)

Lemma for_loop_0 {St} (body : nat -> St -> St) s : for_loop 0 body s = s.
Proof. reflexivity. Qed.

Lemma for_loop_S {St} n (body : nat -> St -> St) s :
  for_loop (S n) body s = body n (for_loop n body s).
Proof. unfold for_loop. rewrite seq_S, fold_left_app. reflexivity. Qed.

Lemma for_loopM_0 {St} (body : nat -> St -> result St) s :
  for_loopM 0 body s = ok s.
Proof. reflexivity. Qed.

Lemma for_loopM_S {St} n (body : nat -> St -> result St) s :
  for_loopM (S n) body s = bind (for_loopM n body s) (body n).
Proof. unfold for_loopM. rewrite seq_S, fold_left_app. reflexivity. Qed.

(** Invariant rule for infallible loops. *)
Lemma for_loop_inv {St} (I : nat -> St -> Prop) n body s :
  I 0 s ->
  (∀ i a, i < n -> I i a -> I (S i) (body i a)) ->
  I n (for_loop n body s).
Proof.
  intros H0 Hstep. induction n as [|n IH]; [exact H0|].
  rewrite for_loop_S. apply Hstep; [lia|]. apply IH.
  intros i a Hi. apply Hstep. lia.
Qed.

(** Invariant rule for fallible loops: the loop returns, and the invariant
    holds of what it returns. *)
Lemma for_loopM_inv {St} (I : nat -> St -> Prop) n body s :
  I 0 s ->
  (∀ i a, i < n -> I i a -> ∃ a', body i a = ok a' ∧ I (S i) a') ->
  ∃ s', for_loopM n body s = ok s' ∧ I n s'.
Proof.
  intros H0 Hstep. induction n as [|n IH]; [by exists s|].
  destruct IH as (a & Ha & HI); [intros i b Hi; apply Hstep; lia|].
  rewrite for_loopM_S, Ha. simpl. apply Hstep; [lia|exact HI].
Qed.

(** Two loops whose bodies agree on the indices they visit are equal. *)
Lemma for_loopM_ext {St} n (body1 body2 : nat -> St -> result St) s :
  (∀ i a, i < n -> body1 i a = body2 i a) ->
  for_loopM n body1 s = for_loopM n body2 s.
Proof.
  intros Hext. induction n as [|n IH]; [reflexivity|].
  rewrite !for_loopM_S, IH by (intros; apply Hext; lia).
  destruct (for_loopM n body2 s); simpl; [reflexivity|]. apply Hext. lia.
Qed.

(** Simulation: every successful run of the first loop is matched by a
    successful run of the second on related states. *)
Lemma for_loopM_sim {S1 S2} (Rel : S1 -> S2 -> Prop) n body1 body2 s1 s2 :
  Rel s1 s2 ->
  (∀ i a b a', i < n -> Rel a b -> body1 i a = ok a' ->
     ∃ b', body2 i b = ok b' ∧ Rel a' b') ->
  ∀ s1', for_loopM n body1 s1 = ok s1' ->
  ∃ s2', for_loopM n body2 s2 = ok s2' ∧ Rel s1' s2'.
Proof.
  intros H0 Hstep. induction n as [|n IH]; intros s1' Hrun.
  - inversion Hrun; subst. by exists s2.
  - rewrite for_loopM_S in Hrun.
    destruct (for_loopM n body1 s1) as [e|a] eqn:Ha; [discriminate|].
    destruct (IH (fun i x y x' Hi => Hstep i x y x' (Nat.lt_lt_succ_r _ _ Hi)) a eq_refl)
      as (b & Hb & Hab).
    simpl in Hrun. destruct (Hstep n a b s1' (Nat.lt_succ_diag_r n) Hab Hrun)
      as (b' & Hb' & Hrel).
    exists b'. by rewrite for_loopM_S, Hb.
Qed.

(** Partial invariant rule: what holds of every successful step holds of a
    successful loop. *)
Lemma for_loopM_inv_ok {St} (I : nat -> St -> Prop) n body s s' :
  I 0 s ->
  (∀ i a a', i < n -> I i a -> body i a = ok a' -> I (S i) a') ->
  for_loopM n body s = ok s' -> I n s'.
Proof.
  intros H0 Hstep. revert s'. induction n as [|n IH]; intros s' Hrun.
  - inversion Hrun; by subst.
  - rewrite for_loopM_S in Hrun.
    destruct (for_loopM n body s) as [e|a] eqn:Ha; [discriminate|].
    simpl in Hrun. eapply Hstep; [lia| |exact Hrun].
    apply IH; [|reflexivity]. intros i b b' Hi. apply Hstep. lia.
Qed.

(** ** Checked vector accesses *)

Lemma read_at_ok {A} a (l : list A) i x : l !! i = Some x -> read_at a l i = ok x.
Proof. unfold read_at. by intros ->. Qed.

Lemma read_at_inv {A} a (l : list A) i x : read_at a l i = ok x -> l !! i = Some x.
Proof. unfold read_at. destruct (l !! i); [by inversion 1|discriminate]. Qed.

Lemma write_at_ok {A} a (l : list A) i x :
  i < length l -> write_at a l i x = ok (<[i:=x]> l).
Proof. unfold write_at. intros Hi. by rewrite decide_True. Qed.

Lemma write_at_inv {A} a (l l' : list A) i x :
  write_at a l i x = ok l' -> i < length l ∧ l' = <[i:=x]> l.
Proof.
  unfold write_at. destruct (decide (i < length l)); [|discriminate].
  by inversion 1.
Qed.

Lemma bind_ok_inv {A B} (r : result A) (f : A -> result B) y :
  bind r f = ok y -> ∃ x, r = ok x ∧ f x = ok y.
Proof. destruct r as [e|x]; [discriminate|]. intros H. by exists x. Qed.

(** ** First-seen lists *)

Section first_seen.
Context {A : Type} `{EqDecision A}.
Implicit Types l : list A.

Lemma first_seen_snoc l x :
  first_seen (l ++ [x]) = first_seen_step (first_seen l) x.
Proof. unfold first_seen. by rewrite fold_left_app. Qed.

Lemma elem_of_first_seen l x : x ∈ first_seen l ↔ x ∈ l.
Proof.
  induction l as [|y l IH] using rev_ind.
  - reflexivity.
  - rewrite first_seen_snoc. unfold first_seen_step.
    destruct (decide (y ∈ first_seen l)) as [Hy|Hy];
      rewrite !elem_of_app, !list_elem_of_singleton; [|by rewrite IH].
    split; [intros Hx; left; by apply IH|].
    intros [Hx| ->]; [by apply IH|done].
Qed.

Lemma NoDup_first_seen l : NoDup (first_seen l).
Proof.
  induction l as [|y l IH] using rev_ind; [constructor|].
  rewrite first_seen_snoc. unfold first_seen_step.
  destruct (decide (y ∈ first_seen l)) as [Hy|Hy]; [done|].
  apply NoDup_app. split_and!; [done| |apply NoDup_singleton].
  intros x Hx ->%list_elem_of_singleton. done.
Qed.

End first_seen.

(** The length of the first-seen list is the number of distinct entries. *)
Lemma length_first_seen {A} `{Countable A} (l : list A) :
  length (first_seen l) = size (list_to_set l : gset A).
Proof.
  rewrite <- (size_list_to_set (C:=gset A) (first_seen l)) by apply NoDup_first_seen.
  f_equal. apply set_eq. intros x.
  by rewrite !elem_of_list_to_set, elem_of_first_seen.
Qed.

(** ** Populating the stencil *)

Lemma set_vertex_step (tv : list Z) (v : nat) (x : Z) :
  length tv = kNumVerts -> v < kNumVerts -> tv !! v = Some x ->
  <[v:=x]> (take v tv ++ replicate (kNumVerts - v) 0%Z)
  = take (S v) tv ++ replicate (kNumVerts - S v) 0%Z.
Proof.
  intros Hlen Hv Hx.
  destruct tv as [|a [|b [|c [|d [|]]]]]; try discriminate.
  do 4 (destruct v as [|v]; [by simplify_eq/=|]). unfold kNumVerts, Stencil3D.kNumVerts in Hv. lia.
Qed.

Lemma tet_vertices_lookup simplex t v :
  v < kNumVerts -> kNumVerts * t + v < length simplex ->
  tet_vertices simplex t !! v = simplex !! (kNumVerts * t + v).
Proof.
  intros Hv Hlen. unfold tet_vertices.
  rewrite list_lookup_fmap, lookup_seq_lt by done.
  destruct (lookup_lt_is_Some_2 simplex (kNumVerts * t + v) Hlen) as [x Hx].
  rewrite Hx. cbn [fmap option_fmap option_map Nat.add]. f_equal.
  by apply list_lookup_total_correct.
Qed.

Lemma populate_ok simplex n s :
  elements s = replicate n Stencil3D.zero ->
  kNumVerts * n <= length simplex ->
  ∃ s', for_loopM n (fun t => for_loopM kNumVerts (populate_vertex simplex t)) s = ok s'
        ∧ s' = set_elements (elements s') s
        ∧ length (elements s') = n
        ∧ ∀ t, t < n ->
            elements s' !! t = Some (Stencil3D.mk (tet_vertices simplex t) zero_edges).
Proof.
  intros Hel Hlen.
  pose (I := fun (t : nat) (a : Solid) =>
    a = set_elements (elements a) s ∧ length (elements a) = n ∧
    (∀ t', t' < t -> elements a !! t' = Some (Stencil3D.mk (tet_vertices simplex t') zero_edges)) ∧
    (∀ t', t <= t' < n -> elements a !! t' = Some Stencil3D.zero)).
  destruct (for_loopM_inv I n (fun t => for_loopM kNumVerts (populate_vertex simplex t)) s)
    as (s' & Hrun & Hs' & Hn & Hdone & _).
  - unfold I. split_and!.
    + by destruct s.
    + by rewrite Hel, length_replicate.
    + intros; lia.
    + intros t' Ht'. rewrite Hel. apply lookup_replicate_2. lia.
  - intros t a Ht (Ha & Hn & Hdone & Htodo).
    pose (J := fun (v : nat) (b : Solid) =>
      b = set_elements (elements b) s ∧ length (elements b) = n ∧
      (∀ t', t' < t -> elements b !! t' = Some (Stencil3D.mk (tet_vertices simplex t') zero_edges)) ∧
      (∀ t', t < t' < n -> elements b !! t' = Some Stencil3D.zero) ∧
      elements b !! t = Some (Stencil3D.mk
         (take v (tet_vertices simplex t) ++ replicate (kNumVerts - v) 0%Z) zero_edges)).
    destruct (for_loopM_inv J kNumVerts (populate_vertex simplex t) a)
      as (b & Hrun & Hb & Hbn & Hbdone & Hbtodo & Hbt).
    + unfold J. split_and!; [done..| |].
      * intros t' Ht'. apply Htodo. lia.
      * rewrite Htodo by lia. done.
    + intros v b Hv (Hb & Hbn & Hbdone & Hbtodo & Hbt).
      assert (kNumVerts * t + v < length simplex) as Hin
          by (unfold kNumVerts, Stencil3D.kNumVerts in *; lia).
      destruct (lookup_lt_is_Some_2 simplex _ Hin) as [x Hx].
      unfold populate_vertex.
      rewrite (read_at_ok _ _ _ _ Hx). simpl.
      rewrite (read_at_ok _ _ _ _ Hbt). simpl.
      rewrite write_at_ok by lia. simpl.
      eexists; split; [reflexivity|]. unfold J. simpl. split_and!.
      * rewrite Hb. reflexivity.
      * by rewrite length_insert.
      * intros t' Ht'. rewrite list_lookup_insert_ne by lia. by apply Hbdone.
      * intros t' Ht'. rewrite list_lookup_insert_ne by lia. by apply Hbtodo.
      * rewrite list_lookup_insert_eq by lia. f_equal.
        unfold Stencil3D.set_vertex. simpl. f_equal.
        apply set_vertex_step; [done|done|].
        by rewrite tet_vertices_lookup.
    + exists b. split; [exact Hrun|]. unfold I. split_and!; [done..| |].
      * intros t' Ht'. destruct (decide (t' = t)) as [->|]; [|apply Hbdone; lia].
        rewrite Hbt. reflexivity.
      * intros t' Ht'. apply Hbtodo. lia.
  - exists s'. split_and!; try done. 
Qed.

(** ** Deduplicating the edges *)

Lemma tet_pairs_lookup simplex t e :
  e < kNumEdges ->
  tet_pairs simplex t !! e = Some (edge_pair (tet_vertices simplex t) e).
Proof.
  intros He. unfold tet_pairs. by rewrite list_lookup_fmap, lookup_seq_lt.
Qed.

Lemma pairs_upto_S simplex t e :
  e < kNumEdges ->
  pairs_upto simplex t (S e)
  = pairs_upto simplex t e ++ [edge_pair (tet_vertices simplex t) e].
Proof.
  intros He. unfold pairs_upto.
  rewrite (take_S_r _ _ _ (tet_pairs_lookup simplex t e He)).
  by rewrite app_assoc.
Qed.

Lemma pairs_upto_next simplex t :
  pairs_upto simplex t kNumEdges = pairs_upto simplex (S t) 0.
Proof.
  unfold pairs_upto, all_pairs.
  rewrite seq_S, flat_map_app. cbn [flat_map Nat.add take].
  by rewrite !app_nil_r.
Qed.

Lemma pairs_upto_all simplex t : pairs_upto simplex t 0 = all_pairs simplex t.
Proof. unfold pairs_upto. by rewrite take_0, app_nil_r. Qed.

Lemma lookup_edge_insert (els : list Stencil3D.t) el t e id t' e' :
  els !! t = Some el ->
  length (Stencil3D.edges el) = kNumEdges -> e < kNumEdges ->
  (el' ← <[t:=Stencil3D.set_edge el e id]> els !! t'; Stencil3D.edges el' !! e')
  = if decide (t' = t ∧ e' = e) then Some id
    else el' ← els !! t'; Stencil3D.edges el' !! e'.
Proof.
  intros Hel Hlen He.
  assert (t < length els) by (by eapply lookup_lt_Some).
  destruct (decide (t' = t)) as [->|Ht].
  - rewrite list_lookup_insert_eq, Hel by done. simpl.
    destruct (decide (e' = e)) as [->|Hne].
    + rewrite decide_True by done. apply list_lookup_insert_eq. lia.
    + rewrite decide_False by (intros [_ ?]; done).
      by apply list_lookup_insert_ne.
  - rewrite decide_False by (intros [? _]; done).
    by rewrite list_lookup_insert_ne.
Qed.

Lemma assign_edge_ok t e id (a : Solid) el :
  elements a !! t = Some el ->
  assign_edge t e id a
  = ok (set_elements (<[t:=Stencil3D.set_edge el e id]> (elements a)) a).
Proof.
  intros Hel. unfold assign_edge.
  rewrite (read_at_ok _ _ _ _ Hel). simpl.
  rewrite write_at_ok by (by eapply lookup_lt_Some). reflexivity.
Qed.

(** One iteration of the inner loop, assertions off. *)
Lemma stencil_edge_step simplex n t e st :
  t < n -> e < kNumEdges ->
  stencil_inv simplex n t e st ->
  ∃ st', stencil_edge false [] (tet_vertices simplex t) t e st = ok st'
         ∧ stencil_inv simplex n t (S e) st'.
Proof.
  intros Ht He. destruct st as [M a].
  unfold stencil_inv, edge_id.
  intros (Hnt & Hlen & Hels & Hedges & Hne & HM & Hids). simpl in *.
  destruct (Hels t Ht) as (el & Hel & Hv & Hel6).
  set (pair := edge_pair (tet_vertices simplex t) e).
  unfold stencil_edge, map_insert. fold pair.
  destruct (M !! pair) as [old|] eqn:Hlook.
  - (* the pair is known: reuse its id *)
    rewrite (assign_edge_ok _ _ _ _ _ Hel). simpl.
    eexists; split; [reflexivity|].
    simpl. split_and!; try done.
    + by rewrite length_insert.
    + intros t' Ht'. destruct (decide (t' = t)) as [->|Hne'].
      * rewrite list_lookup_insert_eq by lia. eexists; split_and!; [done|done|].
        simpl. by rewrite length_insert.
      * rewrite list_lookup_insert_ne by done. by apply Hels.
    + rewrite pairs_upto_S, first_seen_snoc by done. fold pair.
      unfold first_seen_step. rewrite decide_True; [done|].
      rewrite <- Hedges. apply list_elem_of_lookup. exists old. by apply HM.
    + intros t' e' Hcase. rewrite (lookup_edge_insert _ _ _ _ _ _ _ Hel Hel6 He).
      destruct (decide (t' = t ∧ e' = e)) as [[-> ->]|Hne'].
      * exists old. split; [done|]. by apply HM.
      * apply Hids. lia.
  - (* a new pair: next id, appended to the edge list *)
    assert (pair ∉ edges a) as Hnew.
    { intros [i Hi]%list_elem_of_lookup. apply HM in Hi. congruence. }
    rewrite (assign_edge_ok _ _ _ (set_edges (edges a ++ [pair]) a) el Hel). simpl.
    eexists; split; [reflexivity|].
    simpl. split_and!; try done.
    + by rewrite length_insert.
    + intros t' Ht'. destruct (decide (t' = t)) as [->|Hne'].
      * rewrite list_lookup_insert_eq by lia. eexists; split_and!; [done|done|].
        simpl. by rewrite length_insert.
      * rewrite list_lookup_insert_ne by done. by apply Hels.
    + rewrite pairs_upto_S, first_seen_snoc by done. fold pair.
      unfold first_seen_step. rewrite decide_False; [by rewrite Hedges|].
      by rewrite <- Hedges.
    + rewrite length_app. simpl. lia.
    + intros p i. destruct (decide (p = pair)) as [->|Hp].
      * rewrite lookup_insert_eq. split.
        -- intros [= <-]. rewrite Hne. by rewrite lookup_app_r, Nat.sub_diag.
        -- intros Hi. f_equal. destruct (decide (i < length (edges a))) as [Hlt|Hge].
           ++ rewrite lookup_app_l in Hi by done.
              exfalso. apply Hnew. apply list_elem_of_lookup. eauto.
           ++ apply lookup_lt_Some in Hi. rewrite length_app in Hi. simpl in Hi. lia.
      * rewrite lookup_insert_ne by done. rewrite HM. split.
        -- intros Hi. by apply lookup_app_l_Some.
        -- intros Hi. destruct (decide (i < length (edges a))) as [Hlt|Hge].
           ++ by rewrite lookup_app_l in Hi.
           ++ rewrite lookup_app_r in Hi by lia.
              apply list_lookup_singleton_Some in Hi. destruct Hi as [_ Hi]. congruence.
    + intros t' e' Hcase.
      rewrite (lookup_edge_insert _ _ _ _ _ _ _ Hel Hel6 He).
      destruct (decide (t' = t ∧ e' = e)) as [[-> ->]|Hne'].
      * exists (ne a). split; [done|]. rewrite Hne. by rewrite lookup_app_r, Nat.sub_diag.
      * destruct (Hids t' e') as (id & Hid & Hlk); [lia|].
        exists id. split; [done|]. by apply lookup_app_l_Some.
Qed.

(** The body of the loop over the tetrahedra, assertions off. *)
Lemma stencil_tet_step simplex n t st :
  t < n ->
  stencil_inv simplex n t 0 st ->
  ∃ st', (do el <- read_at A_elements (elements st.2) t;
          for_loopM kNumEdges
            (stencil_edge false [] (Stencil3D.vertices el) t) st) = ok st'
         ∧ stencil_inv simplex n (S t) 0 st'.
Proof.
  intros Ht Hinv.
  pose proof Hinv as (Hnt & Hlen & Hels & Hrest).
  destruct (Hels t Ht) as (el & Hel & Hv & Hel6).
  rewrite (read_at_ok _ _ _ _ Hel). simpl. rewrite Hv.
  destruct (for_loopM_inv (fun e st => stencil_inv simplex n t e st) kNumEdges
              (stencil_edge false [] (tet_vertices simplex t) t) st)
    as (st' & Hrun & Hinv').
  - exact Hinv.
  - intros e a He Ha. by apply stencil_edge_step.
  - exists st'. split; [done|].
    destruct Hinv' as (? & ? & ? & Hedges' & ? & ? & Hids').
    split_and!; try done.
    + by rewrite <- pairs_upto_next.
    + intros t' e' Hcase. apply Hids'. lia.
Qed.

Lemma stencil_edge_no_edgeidx debug v t e st :
  stencil_edge debug [] v t e st = stencil_edge false [] v t e st.
Proof. unfold stencil_edge. by destruct debug. Qed.

Lemma stencil_edge_release edgeidx v t e st :
  stencil_edge false edgeidx v t e st = stencil_edge false [] v t e st.
Proof. reflexivity. Qed.

(** The stencil builder on a fresh instance, without an edge-id array. *)
Lemma CreateStencils_pure simplex s :
  fresh s ->
  ∃ s', CreateStencils false simplex [] s = ok s' ∧ stencil_post simplex s'.
Proof.
  intros (Hel & Hed & Hne). unfold CreateStencils. cbv zeta.
  set (n := length simplex / kNumVerts).
  set (s1 := set_elements (resize _ _ _) _).
  change (nt (set_nt n s)) with n in s1.
  destruct (populate_ok simplex n s1) as (s2 & Hrun & Hs2 & Hlen2 & Hels2).
  { subst s1. simpl. rewrite Hel. apply resize_nil. }
  { subst n. unfold kNumVerts, Stencil3D.kNumVerts.
    pose proof (Nat.Div0.mul_div_le (length simplex) 4). lia. }
  assert (nt s1 = n) as Hnt1 by reflexivity.
  rewrite Hnt1, Hrun. simpl.
  assert (nt s2 = n) as Hnt2 by (by rewrite Hs2).
  rewrite Hnt2.
  destruct (for_loopM_inv (fun t st => stencil_inv simplex n t 0 st) n
     (fun t st =>
        do el <- read_at A_elements (elements st.2) t;
        for_loopM kNumEdges (stencil_edge false [] (Stencil3D.vertices el) t) st)
     (∅, s2)) as (st' & Hrun' & Hinv').
  - split_and!; simpl; try done.
    + intros t Ht. eexists. split; [by apply Hels2|]. done.
    + rewrite Hs2. simpl. by rewrite Hed.
    + rewrite Hs2. simpl. by rewrite Hne, Hed.
    + intros p i. rewrite lookup_empty. rewrite Hs2. simpl. rewrite Hed.
      by rewrite lookup_nil.
    + intros t' e' Hcase. lia.
  - intros t st Ht Hinv. by apply stencil_tet_step.
  - rewrite Hrun'. simpl. exists st'.2. split; [done|].
    destruct Hinv' as (? & ? & ? & Hedges' & ? & ? & Hids').
    unfold stencil_post. fold n. split_and!; try done.
    + by rewrite <- pairs_upto_all.
    + intros t e Ht He. apply Hids'. lia.
Qed.

(** ** The optional edge-id array *)

(** A loop whose body only adds failures (drawn from [E]) to those of
    another loop either agrees with it or fails with an error of [E]. *)
Lemma for_loopM_refine {St} (E : error -> Prop) n
    (body1 body2 : nat -> St -> result St) s s' :
  (∀ i a a', body1 i a = ok a' ->
     body2 i a = ok a' ∨ ∃ err, body2 i a = fail err ∧ E err) ->
  for_loopM n body1 s = ok s' ->
  for_loopM n body2 s = ok s' ∨ ∃ err, for_loopM n body2 s = fail err ∧ E err.
Proof.
  intros Hstep. revert s'. induction n as [|n IH]; intros s' Hrun.
  - left. exact Hrun.
  - rewrite for_loopM_S in Hrun. apply bind_ok_inv in Hrun as (a & Ha & Hb).
    rewrite for_loopM_S.
    destruct (IH a Ha) as [->|(err & -> & Herr)]; simpl.
    + by apply Hstep.
    + right. by exists err.
Qed.

Lemma for_loopM_mono {St} n (body1 body2 : nat -> St -> result St) s s' :
  (∀ i a a', body1 i a = ok a' -> body2 i a = ok a') ->
  for_loopM n body1 s = ok s' -> for_loopM n body2 s = ok s'.
Proof.
  intros Hstep Hrun.
  destruct (for_loopM_sim eq n body1 body2 s s eq_refl) with (s1' := s')
    as (b & Hb & <-); [|done..].
  intros i a ? a' _ <- Ha. exists a'. split; [by apply Hstep|done].
Qed.

Lemma assign_edge_readable t e id (a a' : Solid) :
  assign_edge t e id a = ok a' -> is_Some (elements a' !! t).
Proof.
  unfold assign_edge. intros (el & Hel & H)%bind_ok_inv.
  apply bind_ok_inv in H as (els & (Hlt & ->)%write_at_inv & [= <-]).
  simpl. apply lookup_lt_is_Some. by rewrite length_insert.
Qed.

(** The outcome of an edge step is that of the step without assertions,
    unless the assertion stops it. *)
Lemma stencil_edge_assert debug edgeidx v t e st st' :
  stencil_edge false [] v t e st = ok st' ->
  stencil_edge debug edgeidx v t e st = ok st'
  ∨ ∃ err, stencil_edge debug edgeidx v t e st = fail err ∧ edgeidx_error err.
Proof.
  unfold stencil_edge. destruct st as [M a].
  destruct (map_insert _ _ _) as [[it ins] M'].
  match goal with |- context [bind ?x _] =>
    destruct x as [err|a'] eqn:Hfirst end; [discriminate|].
  simpl. intros [= <-].
  assert (is_Some (elements a' !! t)) as [el Hel].
  { destruct ins.
    - apply bind_ok_inv in Hfirst as (a1 & Ha1 & Hq).
      simpl in Hq. injection Hq as <-. by apply assign_edge_readable in Ha1.
    - by apply assign_edge_readable in Hfirst. }
  destruct (debug && _); simpl; [|by left].
  rewrite (read_at_ok _ _ _ _ Hel). simpl.
  destruct (read_at A_edgeidx _ _) as [err|x] eqn:Hx; simpl.
  - right. exists err. split; [done|]. right.
    unfold read_at in Hx. destruct (edgeidx !! _); by inversion Hx.
  - destruct (_ =? _)%Z; [by left|]. right. exists assertion_failed.
    split; [done|by left].
Qed.

Lemma stencil_edge_ok_pure debug edgeidx v t e st st' :
  stencil_edge debug edgeidx v t e st = ok st' ->
  stencil_edge false [] v t e st = ok st'.
Proof.
  unfold stencil_edge. destruct st as [M a].
  destruct (map_insert _ _ _) as [[it ins] M'].
  match goal with |- context [bind ?x _] => destruct x as [err|a'] end;
    [discriminate|]. simpl.
  match goal with |- context [bind ?x _] => destruct x as [err|[]] end;
    [discriminate|]. done.
Qed.

(** [CreateStencils] never looks at [edgeidx] to build the stencil: a run that
    returns returns what the run without the array returns. *)
Lemma CreateStencils_ok_pure debug simplex edgeidx s s' :
  CreateStencils debug simplex edgeidx s = ok s' ->
  CreateStencils false simplex [] s = ok s'.
Proof.
  unfold CreateStencils. cbv zeta.
  intros (s1 & -> & H)%bind_ok_inv. simpl.
  apply bind_ok_inv in H as (st & Hst & [= <-]).
  erewrite for_loopM_mono; [reflexivity| |exact Hst].
  intros t a a' (el & -> & H)%bind_ok_inv. simpl.
  eapply for_loopM_mono; [|exact H].
  intros e b b'. apply stencil_edge_ok_pure.
Qed.

(** Conversely the array can only stop the builder with a failed assertion
    (or by being too short for the assertion to read it). *)
Lemma CreateStencils_assert debug simplex edgeidx s s' :
  CreateStencils false simplex [] s = ok s' ->
  CreateStencils debug simplex edgeidx s = ok s'
  ∨ ∃ err, CreateStencils debug simplex edgeidx s = fail err ∧ edgeidx_error err.
Proof.
  unfold CreateStencils. cbv zeta.
  intros (s1 & -> & H)%bind_ok_inv. simpl.
  apply bind_ok_inv in H as (st & Hst & [= <-]).
  destruct (for_loopM_refine edgeidx_error (nt s1)
    (fun t st => do el <- read_at A_elements (elements st.2) t;
       for_loopM kNumEdges (stencil_edge false [] (Stencil3D.vertices el) t) st)
    (fun t st => do el <- read_at A_elements (elements st.2) t;
       for_loopM kNumEdges (stencil_edge debug edgeidx (Stencil3D.vertices el) t) st)
    (∅, s1) st) as [->|(err & -> & Herr)]; [|exact Hst|by left|right; by exists err].
  intros t a a' (el & -> & H)%bind_ok_inv. simpl.
  eapply for_loopM_refine; [|exact H].
  intros e b b'. apply stencil_edge_assert.
Qed.

Lemma CreateStencils_no_edgeidx debug simplex s :
  CreateStencils debug simplex [] s = CreateStencils false simplex [] s.
Proof.
  unfold CreateStencils. cbv zeta.
  destruct (for_loopM _ _ _) as [err|s1]; [reflexivity|]. simpl.
  f_equal. apply for_loopM_ext. intros t st _.
  destruct (read_at _ _ _); [reflexivity|]. simpl.
  apply for_loopM_ext. intros e b _. apply stencil_edge_no_edgeidx.
Qed.

Lemma CreateStencils_release simplex edgeidx s :
  CreateStencils false simplex edgeidx s = CreateStencils false simplex [] s.
Proof. reflexivity. Qed.

(** ** The metric assembler *)

Lemma lt_kNumEdges_cases (P : nat -> Prop) :
  P 0 -> P 1 -> P 2 -> P 3 -> P 4 -> P 5 -> ∀ e, e < kNumEdges -> P e.
Proof.
  intros ? ? ? ? ? ? e He.
  destruct e as [|[|[|[|[|[|e]]]]]]; try done.
  unfold kNumEdges, Stencil3D.kNumEdges in He. lia.
Qed.

Lemma second_invariant_sym (basis : nat -> larray) a b :
  a < kNumEdges -> b < kNumEdges ->
  second_invariant basis (kNumEdges * a + b) = second_invariant basis (kNumEdges * b + a).
Proof.
  intros Ha Hb. revert b Hb. revert a Ha.
  apply (lt_kNumEdges_cases (fun a => ∀ b, b < kNumEdges -> _));
    apply (lt_kNumEdges_cases (fun b => _)); vm_compute; ring.
Qed.

Lemma metric_entry_sym mu la (basis : nat -> larray) a b :
  a < kNumEdges -> b < kNumEdges ->
  metric_entry mu la (first_invariant basis) (second_invariant basis) a b
  = metric_entry mu la (first_invariant basis) (second_invariant basis) b a.
Proof.
  intros Ha Hb. unfold metric_entry.
  rewrite (second_invariant_sym basis a b Ha Hb). unfold mjtNum. ring.
Qed.

(** Doubling (or scaling by [c]) Young's modulus scales every entry. *)
Lemma metric_entry_scale (c E nu volume : mjtNum) trT trTT a b :
  metric_entry (c * E / (2 * (1 + nu)) * volume)
               (c * E * nu / ((1 + nu) * (1 - 2 * nu)) * volume) trT trTT a b
  = (c * metric_entry (E / (2 * (1 + nu)) * volume)
                      (E * nu / ((1 + nu) * (1 - 2 * nu)) * volume) trT trTT a b)%R.
Proof. unfold metric_entry, Rdiv, mjtNum. ring. Qed.

(** The assembly loops write the 36 entries of one element and nothing else. *)
Lemma write_block (a : array_name) (base : nat) (f : nat -> nat -> mjtNum)
    (mt : list mjtNum) :
  base + kNumEdges * kNumEdges <= length mt ->
  ∃ mt',
    for_loopM kNumEdges (fun ed1 =>
      for_loopM kNumEdges (fun ed2 metric =>
        write_at a metric (base + kNumEdges * ed1 + ed2) (f ed1 ed2))) mt = ok mt'
    ∧ length mt' = length mt
    ∧ (∀ ed1 ed2, ed1 < kNumEdges -> ed2 < kNumEdges ->
         mt' !! (base + kNumEdges * ed1 + ed2) = Some (f ed1 ed2))
    ∧ (∀ k, k < base ∨ base + kNumEdges * kNumEdges <= k -> mt' !! k = mt !! k).
Proof.
  intros Hlen. unfold kNumEdges, Stencil3D.kNumEdges in *.
  pose (I := fun (ed1 ed2 : nat) (mt' : list mjtNum) =>
    length mt' = length mt ∧
    (∀ e1 e2, (e1 < ed1 ∧ e2 < 6) ∨ (e1 = ed1 ∧ e2 < ed2) ->
       mt' !! (base + 6 * e1 + e2) = Some (f e1 e2)) ∧
    (∀ k, k < base ∨ base + 6 * ed1 + ed2 <= k -> mt' !! k = mt !! k)).
  destruct (for_loopM_inv (fun ed1 => I ed1 0) 6
    (fun ed1 => for_loopM 6 (fun ed2 metric =>
        write_at a metric (base + 6 * ed1 + ed2) (f ed1 ed2))) mt)
    as (mt' & Hrun & Hl & Hin & Hout).
  - split_and!; [done| |done]. intros; lia.
  - intros ed1 m1 Hed1 HI.
    destruct (for_loopM_inv (I ed1) 6
      (fun ed2 metric => write_at a metric (base + 6 * ed1 + ed2) (f ed1 ed2)) m1)
      as (m2 & Hrun2 & Hl2 & Hin2 & Hout2); [exact HI| |].
    + intros ed2 m2 Hed2 (Hl2 & Hin2 & Hout2).
      rewrite write_at_ok by lia. eexists; split; [reflexivity|].
      split_and!.
      * by rewrite length_insert.
      * intros e1 e2 Hcase.
        destruct (decide (e1 = ed1 ∧ e2 = ed2)) as [[-> ->]|Hne].
        -- apply list_lookup_insert_eq. lia.
        -- rewrite list_lookup_insert_ne by lia. apply Hin2. lia.
      * intros k Hk. rewrite list_lookup_insert_ne by lia. apply Hout2. lia.
    + exists m2. split; [exact Hrun2|]. split_and!; [done| |].
      * intros e1 e2 Hcase. apply Hin2. lia.
      * intros k Hk. apply Hout2. lia.
  - exists mt'. split_and!; [done|done| |].
    + intros ed1 ed2 H1 H2. apply Hin. lia.
    + intros k Hk. apply Hout. lia.
Qed.

(** Invariant rule with failures: the loop returns in a state satisfying the
    invariant, or stops with one of the errors its body can raise. *)
Lemma for_loopM_inv_err {St} (I : nat -> St -> Prop) (E : error -> Prop) n
    (body : nat -> St -> result St) s :
  I 0 s ->
  (∀ i a, i < n -> I i a ->
     (∃ a', body i a = ok a' ∧ I (S i) a') ∨ (∃ err, body i a = fail err ∧ E err)) ->
  (∃ s', for_loopM n body s = ok s' ∧ I n s')
  ∨ (∃ err, for_loopM n body s = fail err ∧ E err).
Proof.
  intros H0 Hstep. induction n as [|n IH]; [left; by exists s|].
  rewrite for_loopM_S.
  destruct IH as [(a & -> & Ha)|(err & -> & Herr)].
  - intros i a Hi. apply Hstep. lia.
  - simpl. apply Hstep; [lia|done].
  - right. by exists err.
Qed.

(** ** The constructor *)

Lemma for_range_inv {St} (I : St -> Prop) lo hi (body : Z -> St -> St) s :
  I s -> (∀ i a, I a -> I (body i a)) -> I (for_range lo hi body s).
Proof.
  intros H0 Hstep. unfold for_range.
  apply (for_loop_inv (fun _ => I)); [done|]. intros i a _. apply Hstep.
Qed.

Lemma count_plugin_bodies_fresh m instance s :
  fresh s -> fresh (count_plugin_bodies m instance s).
Proof.
  intros Hs. unfold count_plugin_bodies. apply for_range_inv; [done|].
  intros i a Ha. destruct (_ =? _)%Z; [|done]. by destruct (_ =? _)%Z.
Qed.

Lemma count_flexes_fresh m s : fresh s -> fresh (count_flexes m s).
Proof.
  intros Hs. unfold count_flexes.
  apply (for_range_inv (fun st : bool * Solid => fresh st.2)); [done|].
  intros i [stop a] Ha. destruct stop; [done|]. by destruct (_ =? _)%Z.
Qed.

Lemma check_plugin_bodies_cases m instance s v :
  check_plugin_bodies m instance s v = ok tt
  ∨ check_plugin_bodies m instance s v = fail mju_error_raised.
Proof.
  unfold check_plugin_bodies, for_loopM. simpl.
  repeat (destruct (_ =? _)%Z; simpl; [|by right]). by left.
Qed.

(** [UpdateSquaredLengths] on a vector with one entry per edge. *)
Lemma UpdateSquaredLengths_ok a (len : list mjtNum) eds x :
  length len = length eds ->
  UpdateSquaredLengths a len eds x = ok (map (edge_sqlen x) eds).
Proof.
  intros Hlen. unfold UpdateSquaredLengths.
  destruct (for_loopM_inv (fun idx (l : list mjtNum) =>
      length l = length eds ∧ take idx l = map (edge_sqlen x) (take idx eds))
    (length eds)
    (fun idx len => do p <- read_at A_edges eds idx; write_at a len idx (edge_sqlen x p))
    len) as (l & -> & Hl & Htake).
  - split; [done|]. by rewrite !take_0.
  - intros idx l Hidx (Hl & Htake).
    destruct (lookup_lt_is_Some_2 eds idx Hidx) as [p Hp].
    rewrite (read_at_ok _ _ _ _ Hp). simpl.
    rewrite write_at_ok by lia. eexists; split; [reflexivity|].
    split; [by rewrite length_insert|].
    rewrite (take_S_r eds idx p Hp), map_app. simpl.
    rewrite (take_S_r _ idx (edge_sqlen x p)) by (apply list_lookup_insert_eq; lia).
    f_equal. rewrite take_insert_ge by lia. exact Htake.
  - f_equal. rewrite <- (firstn_all eds), <- Htake, <- Hl. by rewrite firstn_all.
Qed.

Lemma Solid_init_fresh i0_init m instance damp :
  fresh (Solid_init i0_init m instance damp).
Proof.
  unfold Solid_init. apply count_flexes_fresh, count_plugin_bodies_fresh.
  by split_and!.
Qed.

(** One element of the assembly loop: it raises [mju_error] or writes the
    36 entries of the element. *)
Lemma assemble_metric_cases m instance nu E t s el :
  elements s !! t = Some el ->
  kNumEdges * kNumEdges * t + kNumEdges * kNumEdges <= length (metric s) ->
  assemble_metric m instance nu E t s = fail mju_error_raised
  ∨ ∃ mt, assemble_metric m instance nu E t s = ok (set_metric mt s)
      ∧ length mt = length (metric s)
      ∧ (∀ ed1 ed2, ed1 < kNumEdges -> ed2 < kNumEdges ->
           mt !! (kNumEdges * kNumEdges * t + kNumEdges * ed1 + ed2)
           = Some (element_metric (ptr_add (body_pos m) (3 * i0 s))
                     (Stencil3D.vertices el) nu E ed1 ed2))
      ∧ (∀ k, k < kNumEdges * kNumEdges * t
              ∨ kNumEdges * kNumEdges * t + kNumEdges * kNumEdges <= k ->
           mt !! k = metric s !! k).
Proof.
  intros Hel Hlen. unfold assemble_metric.
  rewrite (read_at_ok _ _ _ _ Hel). cbn [bind ok].
  destruct (check_plugin_bodies_cases m instance s (Stencil3D.vertices el))
    as [-> | ->]; cbn [bind ok fail]; [|by left].
  right. cbv zeta.
  match goal with |- context [write_at _ _ _ (metric_entry ?mu ?la ?trT ?trTT _ _)] =>
    destruct (write_block A_metric (kNumEdges * kNumEdges * t)
                (metric_entry mu la trT trTT) (metric s) Hlen)
      as (mt & Hrun & Hl & Hin & Hout) end.
  rewrite Hrun. cbn [bind ok]. exists mt. split_and!; done.
Qed.

(** The loop over all tetrahedra of the constructor. *)
Lemma assemble_loop_cases m instance nu E s1 :
  length (elements s1) = nt s1 ->
  let s0 := set_metric (replicate (kNumEdges * kNumEdges * nt s1) 0%R) s1 in
  for_loopM (nt s1) (assemble_metric m instance nu E) s0 = fail mju_error_raised
  ∨ ∃ mt, for_loopM (nt s1) (assemble_metric m instance nu E) s0
          = ok (set_metric mt s1)
      ∧ metric_assembled m nu E s1 mt.
Proof.
  intros Hlen s0.
  destruct (for_loopM_inv_err
    (fun t a => ∃ mt, a = set_metric mt s1
       ∧ length mt = kNumEdges * kNumEdges * nt s1
       ∧ ∀ t' el ed1 ed2, t' < t -> elements s1 !! t' = Some el ->
           ed1 < kNumEdges -> ed2 < kNumEdges ->
           mt !! (kNumEdges * kNumEdges * t' + kNumEdges * ed1 + ed2)
           = Some (element_metric (ptr_add (body_pos m) (3 * i0 s1))
                     (Stencil3D.vertices el) nu E ed1 ed2))
    (fun err => err = mju_error_raised)
    (nt s1) (assemble_metric m instance nu E) s0)
    as [(s' & Hrun & mt & -> & Hl & Hmt)|(err & Hrun & ->)].
  - eexists. split_and!; [reflexivity|by rewrite length_replicate|]. intros; lia.
  - intros t a Ht (mt & -> & Hl & Hmt).
    destruct (lookup_lt_is_Some_2 (elements s1) t) as [el Hel]; [lia|].
    assert (kNumEdges * kNumEdges * t + kNumEdges * kNumEdges
            <= length (metric (set_metric mt s1))) as Hroom.
    { simpl. rewrite Hl. unfold kNumEdges, Stencil3D.kNumEdges. lia. }
    destruct (assemble_metric_cases m instance nu E t (set_metric mt s1) el Hel Hroom)
      as [Hfail|(mt' & Hok & Hl' & Hin & Hout)]; [right; by eexists|].
    left. eexists. split; [exact Hok|]. exists mt'. simpl in *.
    split_and!; [done|lia|].
    intros t' el' ed1 ed2 Ht' Hel' H1 H2.
    destruct (decide (t' = t)) as [->|Hne].
    + assert (el' = el) as -> by congruence. by apply Hin.
    + rewrite Hout; [apply Hmt; [lia|done..]|].
      unfold kNumEdges, Stencil3D.kNumEdges in *. lia.
  - right. exists mt. split; [done|]. split; [done|].
    intros t el ed1 ed2 Hel H1 H2. apply Hmt; [|done..].
    apply lookup_lt_Some in Hel. lia.
  - by left.
Qed.

(** The outcomes of the constructor. *)
Lemma Solid_Solid_cases debug i0_init m d instance nu E damp simplex edgeidx :
  ∃ s1, CreateStencils false simplex [] (Solid_init i0_init m instance damp) = ok s1
    ∧ stencil_post simplex s1
    ∧ ((∃ err, CreateStencils debug simplex edgeidx
                 (Solid_init i0_init m instance damp) = fail err
               ∧ Solid_Solid debug i0_init m d instance nu E damp simplex edgeidx
                 = fail err
               ∧ edgeidx_error err)
       ∨ Solid_Solid debug i0_init m d instance nu E damp simplex edgeidx
         = fail mju_error_raised
       ∨ ∃ mt, Solid_Solid debug i0_init m d instance nu E damp simplex edgeidx
               = ok (ctor_result m s1 mt)
           ∧ metric_assembled m nu E s1 mt).
Proof.
  destruct (CreateStencils_pure simplex (Solid_init i0_init m instance damp))
    as (s1 & Hs1 & Hpost); [apply Solid_init_fresh|].
  exists s1. split; [done|]. split; [done|].
  unfold Solid_Solid. cbv zeta.
  destruct (CreateStencils_assert debug simplex edgeidx _ _ Hs1)
    as [->|(err & -> & Herr)]; [|left; by exists err].
  right. simpl.
  destruct Hpost as (Hnt & Hlen & _ & _ & Hne & _).
  destruct (assemble_loop_cases m instance nu E s1) as [Hfail|(mt & Hok & Hmt)].
  { lia. }
  - left. simpl in Hfail. change (nt (set_metric ?x s1)) with (nt s1).
    by rewrite Hfail.
  - right. exists mt. split; [|done].
    simpl in Hok. change (nt (set_metric ?x s1)) with (nt s1).
    rewrite Hok. simpl.
    rewrite UpdateSquaredLengths_ok by (by rewrite length_replicate).
    reflexivity.
Qed.

Lemma Solid_Solid_spec debug i0_init m d instance nu E damp simplex edgeidx s :
  Solid_Solid debug i0_init m d instance nu E damp simplex edgeidx = ok s ->
  ∃ s1 mt,
    CreateStencils false simplex [] (Solid_init i0_init m instance damp) = ok s1
    ∧ stencil_post simplex s1
    ∧ s = ctor_result m s1 mt
    ∧ metric_assembled m nu E s1 mt.
Proof.
  intros Hs.
  destruct (Solid_Solid_cases debug i0_init m d instance nu E damp simplex edgeidx)
    as (s1 & Hs1 & Hpost & [(err & _ & He & _)|[He|(mt & He & Hmt)]]);
    rewrite He in Hs; [discriminate..|].
  exists s1, mt. split_and!; try done. by inversion Hs.
Qed.

(** ** The representation invariant *)

Lemma stencil_post_ids simplex s1 t el :
  stencil_post simplex s1 ->
  elements s1 !! t = Some el ->
  length (Stencil3D.edges el) = kNumEdges
  ∧ ∀ e, e < kNumEdges -> Stencil3D.edges el !!! e < ne s1.
Proof.
  intros (Hnt & Hlen & Hels & _ & Hne & Hids) Hel.
  assert (t < length simplex / kNumVerts) as Ht
    by (apply lookup_lt_Some in Hel; lia).
  destruct (Hels t Ht) as (el' & Hel' & _ & Hl6).
  assert (el' = el) as -> by congruence.
  split; [done|]. intros e He.
  destruct (Hids t e Ht He) as (id & Hid & Hlk).
  unfold edge_id in Hid. rewrite Hel in Hid. simpl in Hid.
  rewrite (list_lookup_total_correct _ _ _ Hid).
  apply lookup_lt_Some in Hlk. lia.
Qed.

Lemma ctor_result_wf simplex m nu E s1 mt :
  stencil_post simplex s1 ->
  metric_assembled m nu E s1 mt ->
  Solid_wf (ctor_result m s1 mt).
Proof.
  intros Hpost [Hmt _]. pose proof Hpost as (Hnt & Hlen & _ & _ & Hne & _).
  unfold Solid_wf, ctor_result. simpl. split_and!; try done.
  - lia.
  - intros t el Hel. by eapply stencil_post_ids.
  - rewrite length_map. lia.
  - by rewrite length_replicate.
  - rewrite length_map. lia.
Qed.

(** ** The force evaluator *)

(** The state in which [Compute] visits the elements and leaves the
    instance. *)
Lemma update_deformed_ok d s :
  length (deformed s) = length (edges s) ->
  update_deformed d s
  = ok (if (f0 s <? 0)%Z
        then set_deformed
               (map (edge_sqlen (ptr_add (xpos d) (3 * i0 s))) (edges s)) s
        else s).
Proof.
  intros Hlen. unfold update_deformed. destruct (f0 s <? 0)%Z; [|done].
  by rewrite UpdateSquaredLengths_ok.
Qed.

Lemma elongation_of_ok m d s el e :
  Stencil3D.edges el !!! e < length (deformed s) ->
  Stencil3D.edges el !!! e < length (reference s) ->
  Stencil3D.edges el !!! e < length (previous s) ->
  ∃ x, elongation_of m d s el e = ok x.
Proof.
  intros [dfm Hd]%lookup_lt_is_Some_2 [ref Hr]%lookup_lt_is_Some_2
         [prv Hp]%lookup_lt_is_Some_2.
  unfold elongation_of. destruct (f0 s <? 0)%Z; [|by eexists].
  rewrite (read_at_ok _ _ _ _ Hd), (read_at_ok _ _ _ _ Hr),
          (read_at_ok _ _ _ _ Hp). simpl. by eexists.
Qed.

(** The elongation loop stores, for each local edge, what [elongation_of]
    returns. *)
Lemma compute_elongation_ok m d s el :
  (∀ e, e < kNumEdges -> ∃ x, elongation_of m d s el e = ok x) ->
  ∃ elongation, compute_elongation m d s el = ok elongation
    ∧ ∀ e, e < kNumEdges -> elongation_of m d s el e = ok (elongation e).
Proof.
  intros Hall. unfold compute_elongation.
  apply (for_loopM_inv (fun n (a : larray) =>
           ∀ e, e < n -> elongation_of m d s el e = ok (a e))).
  - intros; lia.
  - intros e a He Ha. destruct (Hall e He) as [x Hx]. rewrite Hx. simpl.
    eexists; split; [reflexivity|]. intros e' He'. unfold upd.
    destruct (Nat.eqb_spec e' e) as [->|Hne]; [done|]. apply Ha. lia.
Qed.

(** Invariant rule for the force loops: a property of [force] that every
    accumulation step preserves holds of the result, and every read of
    [metric] is in bounds. *)
Lemma compute_force_inv (P : larray -> Prop) s t elongation gradient :
  kNumEdges * kNumEdges * t + kNumEdges * kNumEdges <= length (metric s) ->
  P zeros ->
  (∀ force ed1 ed2 i x mt,
     ed1 < kNumEdges -> ed2 < kNumEdges -> i < 2 -> x < 3 ->
     metric s !! (kNumEdges * kNumEdges * t + kNumEdges * ed1 + ed2) = Some mt ->
     P force ->
     P (upd force (3 * edge ed2 i + x)
          (force (3 * edge ed2 i + x)%nat
           + elongation ed1 * gradient ed2 i x * mt)%R)) ->
  ∃ force, compute_force s t elongation gradient = ok force ∧ P force.
Proof.
  intros Hlen H0 Hstep. unfold compute_force.
  apply (for_loopM_inv (fun _ => P)); [done|]. intros ed1 f1 Hed1 Hf1.
  apply (for_loopM_inv (fun _ => P)); [done|]. intros ed2 f2 Hed2 Hf2.
  apply (for_loopM_inv (fun _ => P)); [done|]. intros i f3 Hi Hf3.
  apply (for_loopM_inv (fun _ => P)); [done|]. intros x f4 Hx Hf4.
  destruct (lookup_lt_is_Some_2 (metric s)
              (kNumEdges * kNumEdges * t + kNumEdges * ed1 + ed2)) as [mt Hmt].
  { unfold kNumEdges, Stencil3D.kNumEdges in *. lia. }
  rewrite (read_at_ok _ _ _ _ Hmt). cbn [bind ok].
  eexists; split; [reflexivity|]. by apply Hstep.
Qed.

Lemma insert_force_inv (P : mjData -> Prop) m s v force d :
  P d ->
  (∀ d' i x, i < kNumVerts -> x < 3 -> P d' ->
     P (set_qfrc_passive
          (ptr_sub_at (qfrc_passive d')
             (body_dofadr m (i0 s) + 3 * vert v i + Z.of_nat x)%Z
             (force (3 * i + x))) d')) ->
  P (insert_force m s v force d).
Proof.
  intros H0 Hstep. unfold insert_force.
  apply (for_loop_inv (fun _ => P)); [done|]. intros i d1 Hi Hd1.
  apply (for_loop_inv (fun _ => P)); [done|]. intros x d2 Hx Hd2.
  by apply Hstep.
Qed.

Lemma Compute_visit_wf d s : Solid_wf s -> Solid_wf (Compute_visit d s).
Proof.
  intros Hwf. unfold Compute_visit. destruct (f0 s <? 0)%Z; [|done].
  destruct Hwf as (? & ? & ? & ? & ? & ? & ?).
  unfold Solid_wf. simpl. split_and!; try done. rewrite length_map. lia.
Qed.

Lemma Compute_state_wf d s : Solid_wf s -> Solid_wf (Compute_state d s).
Proof.
  intros Hwf. unfold Compute_state. destruct (f0 s <? 0)%Z; [|done].
  destruct Hwf as (? & ? & ? & ? & ? & ? & ?).
  unfold Solid_wf. simpl. split_and!; try done; rewrite length_map; lia.
Qed.

(** One element of the loop of [Compute] on a well-formed instance: every
    vector access is in bounds. *)
Lemma compute_element_ok m s t d :
  Solid_wf s -> t < nt s ->
  ∃ el elongation force,
    elements s !! t = Some el
    ∧ (∀ e, e < kNumEdges -> elongation_of m d s el e = ok (elongation e))
    ∧ compute_force s t elongation
        (GradSquaredLengths (ptr_add (xpos d) (3 * i0 s)) (Stencil3D.vertices el) edge)
      = ok force
    ∧ compute_element m s t d
      = ok (insert_force m s (Stencil3D.vertices el) force d).
Proof.
  intros (Hnt & Hne & Hids & Hmt & Href & Hdfm & Hprv) Ht.
  destruct (lookup_lt_is_Some_2 (elements s) t) as [el Hel]; [lia|].
  destruct (Hids t el Hel) as [Hl6 Hlt].
  destruct (compute_elongation_ok m d s el) as (elongation & Hrun & Hval).
  { intros e He. apply elongation_of_ok; rewrite ?Hdfm, ?Href, ?Hprv; by apply Hlt. }
  destruct (compute_force_inv (fun _ => True) s t elongation
    (GradSquaredLengths (ptr_add (xpos d) (3 * i0 s)) (Stencil3D.vertices el) edge))
    as (force & Hforce & _); [|done|done|].
  { rewrite Hmt. unfold kNumEdges, Stencil3D.kNumEdges. lia. }
  exists el, elongation, force. split_and!; try done.
  unfold compute_element. rewrite (read_at_ok _ _ _ _ Hel). cbn [bind ok].
  rewrite Hrun. cbn [bind ok]. by rewrite Hforce.
Qed.

Lemma insert_force_same_inputs m s v force d :
  same_inputs d (insert_force m s v force d).
Proof.
  apply (insert_force_inv (same_inputs d)); [done|]. by intros d' i x _ _ [? ?].
Qed.

(** [Compute] on a well-formed instance returns; it leaves the instance in
    the state [Compute_state], and the host's positions and edge lengths as
    they were. *)
Lemma Compute_ok m d instance s :
  Solid_wf s ->
  ∃ d', Compute m d instance s = ok (d', Compute_state d s) ∧ same_inputs d d'.
Proof.
  intros Hwf. unfold Compute.
  rewrite update_deformed_ok by (destruct Hwf as (? & ? & ? & ? & ? & ? & ?); lia).
  cbn [bind ok]. fold (Compute_visit d s).
  pose proof (Compute_visit_wf d s Hwf) as Hwf'.
  destruct (for_loopM_inv (fun _ => same_inputs d) (nt (Compute_visit d s))
              (compute_element m (Compute_visit d s)) d) as (d' & Hrun & Hd').
  - done.
  - intros t a Ht Ha.
    destruct (compute_element_ok m _ t a Hwf' Ht) as (el & elo & force & _ & _ & _ & ->).
    eexists; split; [reflexivity|].
    destruct Ha as [Hx Hf]. destruct (insert_force_same_inputs m (Compute_visit d s)
      (Stencil3D.vertices el) force a) as [Hx' Hf'].
    split; congruence.
  - rewrite Hrun. cbn [bind ok]. exists d'. split; [|done].
    unfold Compute_state, Compute_visit.
    destruct (f0 s <? 0)%Z eqn:Hf0; simpl; by rewrite Hf0.
Qed.

(** ** Zero elongation, zero force *)

Lemma ptr_sub_at_zero (q : ptr) adr k : ptr_sub_at q adr 0 k = q k.
Proof. unfold ptr_sub_at. destruct (k =? adr)%Z; [|done]. unfold mjtNum. ring. Qed.

(** If every elongation [Compute] computes is zero, the generalized force
    is left as it was. *)
Lemma Compute_zero_elongation m d instance s :
  Solid_wf s ->
  (∀ d' t el e x, same_inputs d d' -> elements s !! t = Some el ->
     e < kNumEdges ->
     elongation_of m d' (Compute_visit d s) el e = ok x -> x = 0%R) ->
  ∃ d', Compute m d instance s = ok (d', Compute_state d s)
    ∧ ∀ k, qfrc_passive d' k = qfrc_passive d k.
Proof.
  intros Hwf Hzero.
  destruct (Compute_ok m d instance s Hwf) as (d1 & Hrun & _).
  exists d1. split; [done|].
  unfold Compute in Hrun.
  rewrite update_deformed_ok in Hrun
    by (destruct Hwf as (? & ? & ? & ? & ? & ? & ?); lia).
  cbn [bind ok] in Hrun. fold (Compute_visit d s) in Hrun.
  pose proof (Compute_visit_wf d s Hwf) as Hwf'.
  assert (elements (Compute_visit d s) = elements s) as Hels
    by (unfold Compute_visit; by destruct (f0 s <? 0)%Z).
  destruct (for_loopM_inv
    (fun _ d' => same_inputs d d' ∧ ∀ k, qfrc_passive d' k = qfrc_passive d k)
    (nt (Compute_visit d s)) (compute_element m (Compute_visit d s)) d)
    as (d' & Hrun' & _ & Hq).
  - done.
  - intros t a Ht [Ha Hqa].
    destruct (compute_element_ok m _ t a Hwf' Ht)
      as (el & elo & force & Hel & Helo & Hforce & ->).
    eexists; split; [reflexivity|].
    assert (∀ e, e < kNumEdges -> elo e = 0%R) as Helo0.
    { intros e He. eapply Hzero; [exact Ha| |exact He|by apply Helo].
      by rewrite <- Hels. }
    assert (∀ k, force k = 0%R) as Hforce0.
    { destruct (compute_force_inv (fun f => ∀ k, f k = 0%R) (Compute_visit d s) t elo
        (GradSquaredLengths (ptr_add (xpos a) (3 * i0 (Compute_visit d s)))
           (Stencil3D.vertices el) edge)) as (force' & Hforce' & Hz).
      - destruct Hwf' as (_ & _ & _ & -> & _).
        unfold kNumEdges, Stencil3D.kNumEdges. lia.
      - done.
      - intros f ed1 ed2 i x mt Hed1 _ _ _ _ Hf k. unfold upd.
        destruct (Nat.eqb_spec k (3 * edge ed2 i + x)) as [->|_]; [|done].
        rewrite Hf, (Helo0 ed1 Hed1). unfold mjtNum. ring.
      - rewrite Hforce in Hforce'. by injection Hforce' as <-. }
    apply (insert_force_inv
      (fun d' => same_inputs d d' ∧ ∀ k, qfrc_passive d' k = qfrc_passive d k));
      [done|].
    intros d2 i x _ _ [Hd2 Hq2]. split; [by destruct Hd2|].
    intros k. simpl. rewrite Hforce0, ptr_sub_at_zero. apply Hq2.
  - rewrite Hrun' in Hrun. cbn [bind ok] in Hrun. by inversion Hrun; subst.
Qed.

(** ** Linearity in Young's modulus *)

Lemma for_loop_rel {S1 S2} (Rel : S1 -> S2 -> Prop) n
    (body1 : nat -> S1 -> S1) (body2 : nat -> S2 -> S2) s1 s2 :
  Rel s1 s2 ->
  (∀ i a b, i < n -> Rel a b -> Rel (body1 i a) (body2 i b)) ->
  Rel (for_loop n body1 s1) (for_loop n body2 s2).
Proof.
  intros H0 Hstep. induction n as [|n IH]; [done|].
  rewrite !for_loop_S. apply Hstep; [lia|]. apply IH.
  intros i a b Hi. apply Hstep. lia.
Qed.

Lemma write_at_scale a (c : mjtNum) (mt mt' : list mjtNum) i (x : mjtNum) :
  write_at a mt i x = ok mt' ->
  write_at a (map (Rmult c) mt) i (c * x)%R = ok (map (Rmult c) mt').
Proof.
  intros [Hi ->]%write_at_inv.
  rewrite write_at_ok by (by rewrite length_map).
  f_equal. symmetry. apply (list_fmap_insert (Rmult c)).
Qed.

Lemma scale_zeros (c : mjtNum) n :
  map (Rmult c) (replicate n 0%R) = replicate n 0%R.
Proof.
  induction n as [|n IH]; [done|]. simpl. rewrite IH. f_equal. ring.
Qed.

Lemma assemble_metric_scale (c : mjtNum) m instance nu E t s s' :
  assemble_metric m instance nu E t s = ok s' ->
  assemble_metric m instance nu (c * E) t (scale_metric c s)
  = ok (scale_metric c s').
Proof.
  unfold assemble_metric. intros (el & Hel & H)%bind_ok_inv.
  apply bind_ok_inv in H as ([] & Hchk & H). cbv zeta in H.
  apply bind_ok_inv in H as (mt' & Hmt' & Hs'). injection Hs' as <-.
  change (elements (scale_metric c s)) with (elements s). rewrite Hel.
  cbn [bind ok].
  change (check_plugin_bodies m instance (scale_metric c s))
    with (check_plugin_bodies m instance s).
  rewrite Hchk. cbn [bind ok]. cbv zeta.
  change (i0 (scale_metric c s)) with (i0 s).
  change (metric (scale_metric c s)) with (map (Rmult c) (metric s)).
  match type of Hmt' with for_loopM _ ?body1 _ = _ =>
    match goal with |- bind (for_loopM _ ?body2 _) _ = _ =>
      destruct (for_loopM_sim (S1:=list mjtNum) (S2:=list mjtNum)
                  (fun a b => b = map (Rmult c) a) kNumEdges
                  body1 body2 (metric s) (map (Rmult c) (metric s)) eq_refl)
        with (s1' := mt') as (b & -> & ->); [|exact Hmt'|reflexivity]
    end end.
  intros ed1 a ? a' _ -> Ha. eexists; split; [|reflexivity].
  eapply (for_loopM_sim (fun a b => b = map (Rmult c) a)) in Ha
    as (b & Hb & ->); [exact Hb|reflexivity|].
  intros ed2 a1 ? a1' _ -> Ha1. eexists; split; [|reflexivity].
  rewrite metric_entry_scale. by apply write_at_scale.
Qed.

(** The constructor with Young's modulus [c * E] returns the instance it
    returns with [E], its metric multiplied by [c]. *)
Lemma Solid_Solid_scale (c : mjtNum) debug i0_init m d instance nu E damp
    simplex edgeidx s :
  Solid_Solid debug i0_init m d instance nu E damp simplex edgeidx = ok s ->
  Solid_Solid debug i0_init m d instance nu (c * E) damp simplex edgeidx
  = ok (scale_metric c s).
Proof.
  unfold Solid_Solid. cbv zeta. intros (s1 & -> & H)%bind_ok_inv.
  cbn [bind ok] in *.
  apply bind_ok_inv in H as (s2 & Hs2 & H).
  apply bind_ok_inv in H as (ref & Href & Hs). injection Hs as <-.
  eapply (for_loopM_sim (fun a b => b = scale_metric c a)) in Hs2
    as (b & Hb & ->).
  - cbn [nt set_metric] in *. rewrite Hb. cbn [bind ok].
    simpl in Href |- *. rewrite Href. reflexivity.
  - unfold scale_metric. simpl. by rewrite scale_zeros.
  - intros t a ? a' _ -> Ha. eexists; split; [|reflexivity].
    by apply assemble_metric_scale.
Qed.

Lemma elongation_of_scale (c : mjtNum) m d d' s el e :
  same_inputs d d' ->
  elongation_of m d' (scale_metric c s) el e = elongation_of m d s el e.
Proof.
  intros [_ Hf]. unfold elongation_of. simpl. by rewrite Hf.
Qed.

Lemma lookup_scale (c : mjtNum) (l : list mjtNum) i x :
  l !! i = Some x -> map (Rmult c) l !! i = Some (c * x)%R.
Proof.
  unfold mjtNum in *. intros H.
  change ((Rmult c <$> l) !! i = Some (c * x)%R).
  by rewrite list_lookup_fmap, H.
Qed.

Lemma compute_force_scale (c : mjtNum) s t elongation gradient force :
  compute_force s t elongation gradient = ok force ->
  ∃ force', compute_force (scale_metric c s) t elongation gradient = ok force'
    ∧ ∀ k, force' k = (c * force k)%R.
Proof.
  unfold compute_force. cbv zeta. intros Hrun.
  pose (Rel := fun a b : larray => ∀ k, b k = (c * a k)%R).
  eapply (for_loopM_sim Rel); [| |exact Hrun].
  { intros k. unfold zeros, mjtNum. ring. }
  intros ed1 a1 b1 a1' _ Hab1 Ha1.
  eapply (for_loopM_sim Rel); [exact Hab1| |exact Ha1].
  intros ed2 a2 b2 a2' _ Hab2 Ha2.
  eapply (for_loopM_sim Rel); [exact Hab2| |exact Ha2].
  intros i a3 b3 a3' _ Hab3 Ha3.
  eapply (for_loopM_sim Rel); [exact Hab3| |exact Ha3].
  intros x a4 b4 a4' _ Hab4 Ha4.
  apply bind_ok_inv in Ha4 as (mt & Hmt%read_at_inv & Ha4).
  injection Ha4 as <-.
  change (metric (scale_metric c s)) with (map (Rmult c) (metric s)).
  rewrite (read_at_ok _ _ _ _ (lookup_scale c _ _ _ Hmt)). cbn [bind ok].
  eexists; split; [reflexivity|].
  intros k. unfold upd. destruct (Nat.eqb k _); [|apply Hab4].
  rewrite Hab4. unfold mjtNum.
  change (edge ed2 i + (edge ed2 i + (edge ed2 i + 0)) + x)
    with (3 * edge ed2 i + x).
  ring.
Qed.

Lemma insert_force_scale (c : mjtNum) m s v force force' d d1 d2 :
  (∀ k, force' k = (c * force k)%R) ->
  scaled_force c d d1 d2 ->
  scaled_force c d (insert_force m s v force d1)
    (insert_force m (scale_metric c s) v force' d2).
Proof.
  intros Hforce Hd. unfold insert_force.
  apply (for_loop_rel (scaled_force c d)); [done|]. intros i a1 b1 _ Hab1.
  apply (for_loop_rel (scaled_force c d)); [done|]. intros x a2 b2 _ [[Hx Hf] Hq].
  split; [done|]. intros k. simpl. unfold ptr_sub_at.
  destruct (_ =? _)%Z; [|apply Hq].
  rewrite Hforce. specialize (Hq k). unfold mjtNum in *. lra.
Qed.

Lemma compute_element_scale (c : mjtNum) m s t d d1 d2 d1' :
  scaled_force c d d1 d2 ->
  compute_element m s t d1 = ok d1' ->
  ∃ d2', compute_element m (scale_metric c s) t d2 = ok d2'
    ∧ scaled_force c d d1' d2'.
Proof.
  intros Hd. unfold compute_element. intros (el & Hel & H)%bind_ok_inv.
  cbv zeta in H. apply bind_ok_inv in H as (elo & Helo & H).
  apply bind_ok_inv in H as (force & Hforce & H). injection H as <-.
  change (elements (scale_metric c s)) with (elements s). rewrite Hel.
  cbn [bind ok]. cbv zeta.
  assert (compute_elongation m d2 (scale_metric c s) el = ok elo) as ->.
  { rewrite <- Helo. unfold compute_elongation. apply for_loopM_ext.
    intros e a _. by rewrite (elongation_of_scale c m d1 d2) by apply Hd. }
  cbn [bind ok]. change (i0 (scale_metric c s)) with (i0 s).
  destruct Hd as [[Hx Hf] Hq]. rewrite Hx.
  destruct (compute_force_scale c s t elo _ force Hforce) as (force' & -> & Hf').
  cbn [bind ok]. eexists; split; [reflexivity|].
  by apply insert_force_scale.
Qed.

(** [Compute] is linear in the metric: with the metric scaled by [c], the
    force added to the host's generalized force is scaled by [c]. *)
Lemma Compute_scale (c : mjtNum) m d instance s d1 s1 :
  Compute m d instance s = ok (d1, s1) ->
  ∃ d2, Compute m d instance (scale_metric c s) = ok (d2, scale_metric c s1)
    ∧ ∀ k, (qfrc_passive d2 k - qfrc_passive d k
            = c * (qfrc_passive d1 k - qfrc_passive d k))%R.
Proof.
  unfold Compute. intros (s' & Hs' & H)%bind_ok_inv.
  apply bind_ok_inv in H as (d1' & Hd1 & H). cbv zeta in H. injection H as <- <-.
  assert (update_deformed d (scale_metric c s) = ok (scale_metric c s')) as ->.
  { unfold update_deformed in *. simpl. destruct (f0 s <? 0)%Z.
    - apply bind_ok_inv in Hs' as (dfm & -> & Hq). by injection Hq as <-.
    - by injection Hs' as <-. }
  cbn [bind ok].
  eapply (for_loopM_sim (scaled_force c d)) in Hd1 as (d2 & Hd2 & Hrel).
  - change (nt (scale_metric c s')) with (nt s'). rewrite Hd2. cbn [bind ok].
    exists d2. split; [|apply Hrel].
    cbv zeta. simpl. by destruct (f0 s' <? 0)%Z.
  - split; [done|]. intros k. unfold mjtNum. ring.
  - intros t a b a' _ Hab Ha. by eapply compute_element_scale.
Qed.

(** ** What [CreateStencils] leaves alone *)

Lemma assign_edge_header t e id a a' :
  assign_edge t e id a = ok a' -> same_header a' a.
Proof.
  unfold assign_edge. intros (el & _ & H)%bind_ok_inv.
  apply bind_ok_inv in H as (els & _ & H). by injection H as <-.
Qed.

Lemma stencil_edge_header debug edgeidx v t e st st' :
  stencil_edge debug edgeidx v t e st = ok st' -> same_header st'.2 st.2.
Proof.
  intros H%stencil_edge_ok_pure. revert H. unfold stencil_edge.
  destruct st as [M a]. destruct (map_insert _ _ _) as [[it ins] M'].
  intros (a1 & Ha1 & H)%bind_ok_inv. simpl in H. injection H as <-. simpl.
  destruct ins.
  - apply bind_ok_inv in Ha1 as (a2 & Ha2%assign_edge_header & H).
    by injection H as <-.
  - by apply assign_edge_header in Ha1.
Qed.

Lemma same_header_trans a b c : same_header a b -> same_header b c -> same_header a c.
Proof. intros (? & ? & ? & ?) (? & ? & ? & ?). split_and!; congruence. Qed.

Lemma CreateStencils_header debug simplex edgeidx s s' :
  CreateStencils debug simplex edgeidx s = ok s' -> same_header s' s.
Proof.
  unfold CreateStencils. cbv zeta. intros (s1 & Hs1 & H)%bind_ok_inv.
  apply bind_ok_inv in H as (st & Hst & H). injection H as <-.
  apply (for_loopM_inv_ok (fun _ a => same_header a s)) in Hs1; [| done |].
  - apply (for_loopM_inv_ok (fun _ st => same_header st.2 s)) in Hst; [done|done|].
    intros t a a' _ Ha (el & _ & H)%bind_ok_inv.
    apply (for_loopM_inv_ok (fun _ st => same_header st.2 s)) in H; [done|done|].
    intros e b b' _ Hb Hstep%stencil_edge_header. by eapply same_header_trans.
  - intros t a a' _ Ha H.
    apply (for_loopM_inv_ok (fun _ a => same_header a s)) in H; [done|done|].
    intros v b b' _ Hb. unfold populate_vertex.
    intros (x & _ & H')%bind_ok_inv.
    apply bind_ok_inv in H' as (el & _ & H').
    apply bind_ok_inv in H' as (els & _ & H'). by injection H' as <-.
Qed.

(** ** The body check of the constructor *)

Lemma check_plugin_bodies_iff m instance s v :
  check_plugin_bodies m instance s v = ok tt
  ↔ ∀ i, i < kNumVerts -> body_plugin m (i0 s + vert v i) = instance.
Proof.
  unfold check_plugin_bodies, for_loopM. simpl.
  destruct (Z.eqb_spec (body_plugin m (i0 s + vert v 0)) instance) as [H0|H0];
    simpl.
  2:{ split; [done|]. intros H. destruct H0. apply H.
      unfold kNumVerts, Stencil3D.kNumVerts. lia. }
  destruct (Z.eqb_spec (body_plugin m (i0 s + vert v 1)) instance) as [H1|H1];
    simpl.
  2:{ split; [done|]. intros H. destruct H1. apply H.
      unfold kNumVerts, Stencil3D.kNumVerts. lia. }
  destruct (Z.eqb_spec (body_plugin m (i0 s + vert v 2)) instance) as [H2|H2];
    simpl.
  2:{ split; [done|]. intros H. destruct H2. apply H.
      unfold kNumVerts, Stencil3D.kNumVerts. lia. }
  destruct (Z.eqb_spec (body_plugin m (i0 s + vert v 3)) instance) as [H3|H3];
    simpl.
  2:{ split; [done|]. intros H. destruct H3. apply H.
      unfold kNumVerts, Stencil3D.kNumVerts. lia. }
  split; [|done]. intros _ i Hi.
  destruct i as [|[|[|[|i]]]]; try done.
  unfold kNumVerts, Stencil3D.kNumVerts in Hi. lia.
Qed.

(** The assembly loop returns exactly when every element passes the body
    check. *)
Lemma assemble_loop_iff m instance nu E s1 :
  length (elements s1) = nt s1 ->
  (∃ s', for_loopM (nt s1) (assemble_metric m instance nu E)
           (set_metric (replicate (kNumEdges * kNumEdges * nt s1) 0%R) s1)
         = ok s')
  ↔ ∀ t el i, elements s1 !! t = Some el -> i < kNumVerts ->
      body_plugin m (i0 s1 + vert (Stencil3D.vertices el) i) = instance.
Proof.
  intros Hlen. split.
  - intros (s' & Hrun).
    apply (for_loopM_inv_ok (fun t a =>
             elements a = elements s1 ∧ i0 a = i0 s1
             ∧ ∀ t' el i, t' < t -> elements s1 !! t' = Some el ->
                 i < kNumVerts ->
                 body_plugin m (i0 s1 + vert (Stencil3D.vertices el) i)
                 = instance)) in Hrun as (_ & _ & Hall).
    + intros t el i Hel Hi. apply (Hall t el i); [|done..].
      apply lookup_lt_Some in Hel. lia.
    + split_and!; [done..|]. intros; lia.
    + intros t a a' Ht (Hels & Hi0 & Hall). unfold assemble_metric.
      intros (el & Hel%read_at_inv & H)%bind_ok_inv.
      apply bind_ok_inv in H as ([] & Hchk & H). cbv zeta in H.
      apply bind_ok_inv in H as (mt & _ & H). injection H as <-.
      split_and!; [done..|].
      intros t' el' i Ht' Hel' Hi.
      destruct (decide (t' = t)) as [->|]; [|apply (Hall t'); [lia|done..]].
      rewrite Hels, Hel' in Hel. injection Hel as <-.
      rewrite <- Hi0. by apply check_plugin_bodies_iff.
  - intros Hall.
    destruct (for_loopM_inv (fun t a =>
                ∃ mt, a = set_metric mt s1
                  ∧ length mt = kNumEdges * kNumEdges * nt s1) (nt s1)
                (assemble_metric m instance nu E)
                (set_metric (replicate (kNumEdges * kNumEdges * nt s1) 0%R) s1))
      as (s' & Hrun & _); [| |by exists s'].
    + eexists. split; [reflexivity|]. by rewrite length_replicate.
    + intros t a Ht (mt & -> & Hl).
      destruct (lookup_lt_is_Some_2 (elements s1) t) as [el Hel]; [lia|].
      unfold assemble_metric.
      change (elements (set_metric mt s1)) with (elements s1).
      rewrite (read_at_ok _ _ _ _ Hel). cbn [bind ok].
      assert (check_plugin_bodies m instance (set_metric mt s1)
                (Stencil3D.vertices el) = ok tt) as ->.
      { apply check_plugin_bodies_iff. intros i Hi. by apply (Hall t). }
      cbn [bind ok]. cbv zeta.
      match goal with
      |- context [write_at _ _ _ (metric_entry ?mu ?la ?trT ?trTT _ _)] =>
        destruct (write_block A_metric (kNumEdges * kNumEdges * t)
                    (metric_entry mu la trT trTT) (metric (set_metric mt s1)))
          as (mt' & Hrun & Hl' & _)
      end.
      { simpl. rewrite Hl. unfold kNumEdges, Stencil3D.kNumEdges. lia. }
      rewrite Hrun. cbn [bind ok]. eexists. split; [reflexivity|].
      exists mt'. split; [done|]. simpl in Hl'. lia.
Qed.

(** Without an edge array the constructor returns exactly on the meshes
    whose vertices are bodies of the plugin instance. *)
Lemma Solid_Solid_accepts debug i0_init m d instance nu E damp simplex :
  (∃ s, Solid_Solid debug i0_init m d instance nu E damp simplex [] = ok s)
  ↔ mesh_on_plugin m instance (i0 (Solid_init i0_init m instance damp)) simplex.
Proof.
  destruct (CreateStencils_pure simplex (Solid_init i0_init m instance damp))
    as (s1 & Hs1 & Hpost); [apply Solid_init_fresh|].
  pose proof (CreateStencils_header _ _ _ _ _ Hs1) as (Hi0 & _).
  pose proof Hpost as (Hnt & Hlen & Hels & _ & Hne & _).
  assert ((∀ t el i, elements s1 !! t = Some el -> i < kNumVerts ->
             body_plugin m (i0 s1 + vert (Stencil3D.vertices el) i) = instance)
          ↔ mesh_on_plugin m instance
              (i0 (Solid_init i0_init m instance damp)) simplex) as Hmesh.
  { assert (∀ t i, t < length simplex / kNumVerts -> i < kNumVerts ->
              vert (tet_vertices simplex t) i = simplex !!! (kNumVerts * t + i))
      as Hvert.
    { intros t i Ht Hi. unfold vert. apply list_lookup_total_correct.
      assert (kNumVerts * t + i < length simplex) as Hin.
      { pose proof (Nat.Div0.mul_div_le (length simplex) kNumVerts).
        unfold kNumVerts, Stencil3D.kNumVerts in *. lia. }
      rewrite tet_vertices_lookup by done.
      by apply list_lookup_lookup_total_lt. }
    unfold mesh_on_plugin. rewrite Hi0. split.
    - intros H t i Ht Hi. destruct (Hels t Ht) as (el & Hel & Hv & _).
      specialize (H t el i Hel Hi). by rewrite Hv, Hvert in H.
    - intros H t el i Hel Hi.
      assert (t < length simplex / kNumVerts) as Ht
        by (apply lookup_lt_Some in Hel; lia).
      destruct (Hels t Ht) as (el' & Hel' & Hv & _).
      rewrite Hel in Hel'. injection Hel' as <-.
      rewrite Hv, Hvert by done. by apply H. }
  rewrite <- Hmesh, <- (assemble_loop_iff m instance nu E s1) by lia.
  unfold Solid_Solid. cbv zeta.
  rewrite CreateStencils_no_edgeidx, Hs1. cbn [bind ok].
  change (nt (set_metric ?x s1)) with (nt s1).
  destruct (for_loopM (nt s1) (assemble_metric m instance nu E) _)
    as [err|s2] eqn:Hloop; cbn [bind ok].
  - split; intros [s Hs]; discriminate.
  - split; [by exists s2|]. intros _.
    destruct (assemble_loop_cases m instance nu E s1) as [Hf|(mt & Hok & _)];
      [lia| |].
    + cbv zeta in Hf. rewrite Hloop in Hf. discriminate.
    + cbv zeta in Hok. rewrite Hloop in Hok. injection Hok as ->.
      simpl. rewrite UpdateSquaredLengths_ok by (by rewrite length_replicate).
      by eexists.
Qed.

(** ** Examples *)

(** Two tetrahedra sharing the face 1-2-3: nine edges, three of them shared. *)
Example two_tets_edges :
  edges two_tets_stencil
  = [(0, 1); (1, 2); (0, 2); (2, 3); (0, 3); (1, 3); (3, 4); (1, 4); (2, 4)]%Z
  ∧ ne two_tets_stencil = 9
  ∧ map Stencil3D.edges (elements two_tets_stencil)
    = [[0; 1; 2; 3; 4; 5]; [1; 3; 5; 6; 7; 8]].
Proof. by vm_compute. Qed.

(** A validation array that agrees with the computed ids is accepted; one
    that disagrees, or is too short, stops a debug build and is ignored by a
    release build. *)
Example edgeidx_agrees :
  CreateStencils true tet_simplex [0; 1; 2; 3; 4; 5]%Z empty_solid
  = CreateStencils true tet_simplex [] empty_solid.
Proof. by vm_compute. Qed.

Example edgeidx_disagrees :
  CreateStencils true tet_simplex [0; 1; 2; 3; 4; 4]%Z empty_solid
  = fail assertion_failed.
Proof. by vm_compute. Qed.

Example edgeidx_too_short :
  CreateStencils true tet_simplex [0; 1; 2]%Z empty_solid
  = fail (out_of_bounds A_edgeidx).
Proof. by vm_compute. Qed.

Example edgeidx_ignored_in_release :
  CreateStencils false tet_simplex [0; 1; 2; 3; 4; 4]%Z empty_solid
  = CreateStencils false tet_simplex [] empty_solid.
Proof. by vm_compute. Qed.

(** A tetrahedron naming a body outside the plugin instance is fatal. *)
Example foreign_body_is_fatal :
  Solid_Solid true 0 tet_model tet_data 0 (3 / 10) 100 0 [0; 1; 2; 7]%Z []
  = fail mju_error_raised.
Proof. by vm_compute. Qed.

(** The instance built on the unit tetrahedron: first plugin body 1, no
    flex, four bodies, one element, six edges with squared rest lengths
    1, 2, 1, 2, 1, 2. *)
Example tet_solid_shape :
  i0 tet_solid = 1%Z ∧ f0 tet_solid = (-1)%Z ∧ nv tet_solid = 4%Z
  ∧ nt tet_solid = 1 ∧ ne tet_solid = 6
  ∧ length (metric tet_solid) = 36
  ∧ Forall2 eq (reference tet_solid) [1; 2; 1; 2; 1; 2]%R.
Proof.
  split_and!; try reflexivity.
  repeat (constructor; [simpl; lra|]). constructor.
Qed.

(** * Properties of the specification *)

(** ** The stencil builder *)

Lemma edge_pair_eq_iff simplex t e t' e' :
  edge_pair (tet_vertices simplex t) e = edge_pair (tet_vertices simplex t') e'
  ↔ same_unordered (raw_pair simplex t e) (raw_pair simplex t' e').
Proof.
  unfold edge_pair, same_unordered, raw_pair. simpl. split.
  - intros [= Hmin Hmax]. lia.
  - intros Hsame. f_equal; lia.
Qed.

Lemma elem_of_all_pairs simplex n p :
  p ∈ all_pairs simplex n
  ↔ ∃ t e, t < n ∧ e < kNumEdges ∧ p = edge_pair (tet_vertices simplex t) e.
Proof.
  unfold all_pairs. rewrite list_elem_of_In, in_flat_map. split.
  - intros (t & Ht%in_seq & Hp). unfold tet_pairs in Hp.
    apply in_map_iff in Hp as (e & <- & He%in_seq).
    exists t, e. split_and!; [lia|lia|done].
  - intros (t & e & Ht & He & ->). exists t. split; [apply in_seq; lia|].
    unfold tet_pairs. apply in_map_iff. exists e. split; [done|apply in_seq; lia].
Qed.

(** C1.  On a fresh instance the stencil builder returns (here: without a
    validation array), and whenever it returns, with or without one:
    two local edges receive the same id exactly when their vertex pairs are
    equal as unordered pairs; the number of edges [ne] is the number of
    distinct normalised pairs of the mesh and the length of the edge list;
    the ids in use are exactly the numbers below [ne]; and the edge list is
    the list of distinct pairs in first-seen order, the id of a local edge
    being the position of its pair in that list. *)
Theorem C1_edge_dedup (debug : bool) (simplex edgeidx : list Z) (s s' : Solid) :
  fresh s ->
  CreateStencils debug simplex edgeidx s = ok s' ->
  let n := length simplex / kNumVerts in
  (∃ s0, CreateStencils debug simplex [] s = ok s0)
  ∧ (∀ t e t' e', t < n -> e < kNumEdges -> t' < n -> e' < kNumEdges ->
       ∃ id id', edge_id s' t e = Some id ∧ edge_id s' t' e' = Some id'
         ∧ (same_unordered (raw_pair simplex t e) (raw_pair simplex t' e')
            ↔ id = id'))
  ∧ ne s' = size (list_to_set (all_pairs simplex n) : gset (Z * Z))
  ∧ length (edges s') = ne s'
  ∧ (∀ id, id < ne s'
       ↔ ∃ t e, t < n ∧ e < kNumEdges ∧ edge_id s' t e = Some id)
  ∧ edges s' = first_seen (all_pairs simplex n)
  ∧ (∀ t e, t < n -> e < kNumEdges ->
       ∃ id, edge_id s' t e = Some id
         ∧ edges s' !! id = Some (edge_pair (tet_vertices simplex t) e)).
Proof.
  intros Hfresh Hrun n.
  destruct (CreateStencils_pure simplex s Hfresh) as (s0 & Hs0 & Hpost).
  apply CreateStencils_ok_pure in Hrun. rewrite Hs0 in Hrun.
  injection Hrun as <-.
  destruct Hpost as (Hnt & Hlen & Hels & Hedges & Hne & Hids). fold n in Hids, Hedges.
  assert (NoDup (edges s0)) as Hnodup by (rewrite Hedges; apply NoDup_first_seen).
  split_and!.
  - exists s0. by rewrite CreateStencils_no_edgeidx.
  - intros t e t' e' Ht He Ht' He'.
    destruct (Hids t e Ht He) as (id & Hid & Hlk).
    destruct (Hids t' e' Ht' He') as (id' & Hid' & Hlk').
    exists id, id'. split_and!; [done|done|].
    rewrite <- edge_pair_eq_iff. split.
    + intros Heq. rewrite Heq in Hlk. by eapply NoDup_lookup.
    + intros ->. congruence.
  - rewrite Hne, Hedges. apply length_first_seen.
  - done.
  - intros id. split.
    + intros Hid. rewrite Hne in Hid.
      destruct (lookup_lt_is_Some_2 _ _ Hid) as [p Hp].
      assert (p ∈ all_pairs simplex n) as Hin.
      { apply elem_of_first_seen. rewrite <- Hedges.
        apply list_elem_of_lookup. eauto. }
      apply elem_of_all_pairs in Hin as (t & e & Ht & He & ->).
      destruct (Hids t e Ht He) as (id' & Hid' & Hlk').
      exists t, e. split_and!; [done|done|].
      rewrite Hid'. f_equal. by eapply NoDup_lookup.
    + intros (t & e & Ht & He & Hid).
      destruct (Hids t e Ht He) as (id' & Hid' & Hlk').
      assert (id' = id) as -> by congruence.
      apply lookup_lt_Some in Hlk'. lia.
  - done.
  - done.
Qed.

Lemma C1_edge_dedup_witness :
  fresh empty_solid
  ∧ CreateStencils true two_tets [] empty_solid = ok two_tets_stencil
  ∧ ne two_tets_stencil = size (list_to_set (all_pairs two_tets 2) : gset (Z * Z))
  ∧ edges two_tets_stencil = first_seen (all_pairs two_tets 2).
Proof.
  assert (fresh empty_solid) as Hfresh by (by split_and!).
  assert (CreateStencils true two_tets [] empty_solid = ok two_tets_stencil)
    as Hrun by (vm_compute; reflexivity).
  pose proof (C1_edge_dedup true two_tets [] empty_solid two_tets_stencil
                Hfresh Hrun) as H.
  exact (conj Hfresh (conj Hrun (conj (proj1 (proj2 (proj2 H)))
           (proj1 (proj2 (proj2 (proj2 (proj2 (proj2 H))))))))).
Defined.

(** The builder reads [simplex] only below [kNumVerts * (length simplex /
    kNumVerts)]. *)
Lemma CreateStencils_take debug simplex edgeidx s :
  CreateStencils debug simplex edgeidx s
  = CreateStencils debug
      (take (kNumVerts * (length simplex / kNumVerts)) simplex) edgeidx s.
Proof.
  set (n := length simplex / kNumVerts).
  assert (kNumVerts * n <= length simplex) as Hle.
  { subst n. unfold kNumVerts, Stencil3D.kNumVerts.
    pose proof (Nat.Div0.mul_div_le (length simplex) 4). lia. }
  assert (length (take (kNumVerts * n) simplex) / kNumVerts = n) as Hn.
  { rewrite length_take, Nat.min_l by done.
    unfold kNumVerts, Stencil3D.kNumVerts. rewrite Nat.mul_comm.
    by apply Nat.div_mul. }
  unfold CreateStencils. cbv zeta. rewrite Hn. fold n.
  cbn [nt set_nt set_elements].
  rewrite (for_loopM_ext n
    (fun t => for_loopM kNumVerts (populate_vertex simplex t))
    (fun t => for_loopM kNumVerts
                (populate_vertex (take (kNumVerts * n) simplex) t))); [done|].
  intros t a Ht. apply for_loopM_ext. intros v b Hv.
  unfold populate_vertex, read_at. rewrite lookup_take_lt; [done|].
  unfold kNumVerts, Stencil3D.kNumVerts in *. lia.
Qed.

(** C10.  When the length of [simplex] is not a multiple of four, the
    builder behaves exactly as on the list cut after the last complete
    tetrahedron: the trailing indices are never read.  Without a validation
    array it returns, no error is raised, and it creates [length simplex / 4]
    elements, element [t] holding the four indices [simplex[4t .. 4t+3]]. *)
Theorem C10_trailing_indices_ignored (debug : bool) (simplex edgeidx : list Z)
    (s : Solid) :
  length simplex mod kNumVerts ≠ 0 ->
  fresh s ->
  let n := length simplex / kNumVerts in
  CreateStencils debug simplex edgeidx s
  = CreateStencils debug (take (kNumVerts * n) simplex) edgeidx s
  ∧ ∃ s', CreateStencils debug simplex [] s = ok s'
      ∧ nt s' = n
      ∧ length (elements s') = n
      ∧ ∀ t, t < n ->
          ∃ el, elements s' !! t = Some el
            ∧ Stencil3D.vertices el
              = [simplex !!! (4 * t); simplex !!! (4 * t + 1);
                 simplex !!! (4 * t + 2); simplex !!! (4 * t + 3)].
Proof.
  intros _ Hfresh n. split; [apply CreateStencils_take|].
  destruct (CreateStencils_pure simplex s Hfresh) as (s' & Hs' & Hpost).
  exists s'. rewrite CreateStencils_no_edgeidx.
  destruct Hpost as (Hnt & Hlen & Hels & _). split_and!; try done.
  intros t Ht. destruct (Hels t Ht) as (el & Hel & Hv & _).
  exists el. split; [done|]. rewrite Hv. unfold tet_vertices. simpl.
  by rewrite !Nat.add_0_r.
Qed.

Lemma C10_trailing_indices_ignored_witness :
  length (two_tets ++ [9%Z]) mod kNumVerts ≠ 0
  ∧ fresh empty_solid
  ∧ CreateStencils true (two_tets ++ [9%Z]) [] empty_solid
    = CreateStencils true two_tets [] empty_solid.
Proof.
  assert (length (two_tets ++ [9%Z]) mod kNumVerts ≠ 0) as Hmod
    by (vm_compute; discriminate).
  assert (fresh empty_solid) as Hfresh by (by split_and!).
  exact (conj Hmod (conj Hfresh
    (proj1 (C10_trailing_indices_ignored true (two_tets ++ [9%Z]) []
              empty_solid Hmod Hfresh)))).
Defined.

(** ** The optional edge-id array of the constructor *)

Lemma Solid_Solid_ok_pure debug i0_init m d instance nu E damp simplex edgeidx s :
  Solid_Solid debug i0_init m d instance nu E damp simplex edgeidx = ok s ->
  Solid_Solid debug i0_init m d instance nu E damp simplex [] = ok s.
Proof.
  unfold Solid_Solid. cbv zeta. intros (s1 & Hs1 & H)%bind_ok_inv.
  apply CreateStencils_ok_pure in Hs1.
  by rewrite CreateStencils_no_edgeidx, Hs1.
Qed.

Lemma Solid_Solid_assert debug i0_init m d instance nu E damp simplex edgeidx s :
  Solid_Solid debug i0_init m d instance nu E damp simplex [] = ok s ->
  Solid_Solid debug i0_init m d instance nu E damp simplex edgeidx = ok s
  ∨ ∃ err, Solid_Solid debug i0_init m d instance nu E damp simplex edgeidx
           = fail err ∧ edgeidx_error err.
Proof.
  unfold Solid_Solid. cbv zeta. intros (s1 & Hs1 & H)%bind_ok_inv.
  rewrite CreateStencils_no_edgeidx in Hs1.
  destruct (CreateStencils_assert debug simplex edgeidx _ _ Hs1)
    as [->|(err & -> & Herr)]; [by left|right; by exists err].
Qed.

Lemma Solid_Solid_no_edgeidx debug i0_init m d instance nu E damp simplex :
  (∃ s, Solid_Solid debug i0_init m d instance nu E damp simplex [] = ok s)
  ∨ Solid_Solid debug i0_init m d instance nu E damp simplex []
    = fail mju_error_raised.
Proof.
  destruct (Solid_Solid_cases debug i0_init m d instance nu E damp simplex [])
    as (s1 & Hs1 & _ & [(err & He & _)|[He|(mt & He & _)]]).
  - rewrite CreateStencils_no_edgeidx, Hs1 in He. discriminate.
  - by right.
  - left. by eexists.
Qed.

(** C6.  The constructor does not need the edge-id array.  Without one it
    returns an instance on every mesh whose tetrahedra lie on bodies of the
    plugin instance (and on no other mesh): creation succeeds on every such
    setup, and only the fatal body check can stop it.  A supplied array
    never changes the instance that is built: a run that returns with the
    array returns what the run without it returns; the array can only stop
    the construction through the assertion (a failed comparison, or an array
    too short to compare with), and a build without assertions ignores it
    altogether.  For the factory: once the four attribute checks of the host
    have passed (the checks are parameters, their code is not in
    [solid.cc]), with no edge ids in the configuration, or in a build
    without assertions, and a mesh on the plugin's bodies, [Create] returns
    an instance, the one the constructor builds without an array. *)
Theorem C6_edge_ids_optional
    (CheckAttr : string -> mjModel -> Z -> bool)
    (mj_getPluginConfig : mjModel -> Z -> string -> string)
    (strtod : string -> mjtNum) (String2Vector : string -> list Z)
    (debug : bool) (i0_init : Z) (m : mjModel) (d : mjData) (instance : Z)
    (nu E damp : mjtNum) (simplex edgeidx : list Z) :
  let with_ids :=
    Solid_Solid debug i0_init m d instance nu E damp simplex edgeidx in
  let without :=
    Solid_Solid debug i0_init m d instance nu E damp simplex [] in
  let cfg := mj_getPluginConfig m instance in
  (mesh_on_plugin m instance (i0 (Solid_init i0_init m instance damp)) simplex
   -> ∃ s, without = ok s)
  ∧ ((∃ s, without = ok s)
     -> mesh_on_plugin m instance (i0 (Solid_init i0_init m instance damp))
          simplex)
  ∧ ((∃ s, without = ok s) ∨ without = fail mju_error_raised)
  ∧ (∀ s, with_ids = ok s -> without = ok s)
  ∧ (∀ s, without = ok s ->
       with_ids = ok s ∨ ∃ err, with_ids = fail err ∧ edgeidx_error err)
  ∧ (debug = false -> with_ids = without)
  ∧ (CheckAttr "face"%string m instance && CheckAttr "edge"%string m instance
     && CheckAttr "poisson"%string m instance
     && CheckAttr "young"%string m instance = true ->
     debug = false ∨ String2Vector (cfg "edge"%string) = [] ->
     mesh_on_plugin m instance
       (i0 (Solid_init i0_init m instance (strtod (cfg "damping"%string))))
       (String2Vector (cfg "face"%string)) ->
     ∃ s,
       Create CheckAttr mj_getPluginConfig strtod String2Vector
         debug i0_init m d instance = Some (ok s)
       ∧ Solid_Solid debug i0_init m d instance
           (strtod (cfg "poisson"%string)) (strtod (cfg "young"%string))
           (strtod (cfg "damping"%string)) (String2Vector (cfg "face"%string))
           [] = ok s).
Proof.
  intros with_ids without cfg. split_and!.
  - apply Solid_Solid_accepts.
  - apply Solid_Solid_accepts.
  - apply Solid_Solid_no_edgeidx.
  - intros s. apply Solid_Solid_ok_pure.
  - intros s. apply Solid_Solid_assert.
  - intros ->. reflexivity.
  - intros Hchk Hedge Hmesh.
    apply (Solid_Solid_accepts debug i0_init m d instance
             (strtod (cfg "poisson"%string)) (strtod (cfg "young"%string)))
      in Hmesh as [s Hs].
    exists s. split; [|exact Hs]. unfold Create. rewrite Hchk. fold cfg.
    destruct Hedge as [-> | ->]; [|by rewrite Hs].
    f_equal. exact Hs.
Qed.

Lemma C6_edge_ids_optional_witness :
  mesh_on_plugin tet_model 0 (i0 (Solid_init 0 tet_model 0 0)) tet_simplex
  ∧ (∃ s, Solid_Solid true 0 tet_model tet_data 0 (3 / 10) 100 0 tet_simplex []
          = ok s)
  ∧ tet_String2Vector (tet_config tet_model 0 "edge"%string) = []
  ∧ ∃ s,
      Create tet_CheckAttr tet_config tet_strtod tet_String2Vector
        true 0 tet_model tet_data 0 = Some (ok s)
      ∧ Solid_Solid true 0 tet_model tet_data 0
          (tet_strtod (tet_config tet_model 0 "poisson"%string))
          (tet_strtod (tet_config tet_model 0 "young"%string))
          (tet_strtod (tet_config tet_model 0 "damping"%string))
          (tet_String2Vector (tet_config tet_model 0 "face"%string)) [] = ok s.
Proof.
  assert (mesh_on_plugin tet_model 0 (i0 (Solid_init 0 tet_model 0 0))
            tet_simplex) as Hmesh.
  { intros t i Ht Hi.
    assert (t = 0) as -> by (vm_compute in Ht; lia).
    destruct i as [|[|[|[|i]]]];
      [vm_compute; reflexivity..|vm_compute in Hi; lia]. }
  assert (tet_String2Vector (tet_config tet_model 0 "edge"%string) = [])
    as Hedge by (vm_compute; reflexivity).
  pose proof (C6_edge_ids_optional tet_CheckAttr tet_config tet_strtod
                tet_String2Vector true 0 tet_model tet_data 0 (3 / 10) 100 0
                tet_simplex []) as H.
  cbv zeta in H. destruct H as (Hok & _ & _ & _ & _ & _ & Hcreate).
  exact (conj Hmesh (conj (Hok Hmesh) (conj Hedge
    (Hcreate eq_refl (or_intror Hedge) Hmesh)))).
Defined.

(** ** The constructor establishes the invariant *)

Lemma Solid_Solid_wf debug i0_init m d instance nu E damp simplex edgeidx s :
  Solid_Solid debug i0_init m d instance nu E damp simplex edgeidx = ok s ->
  Solid_wf s.
Proof.
  intros (s1 & mt & _ & Hpost & -> & Hmt)%Solid_Solid_spec.
  by eapply ctor_result_wf.
Qed.

Lemma Solid_Solid_fail debug i0_init m d instance nu E damp simplex edgeidx err :
  Solid_Solid debug i0_init m d instance nu E damp simplex edgeidx = fail err ->
  err = mju_error_raised ∨ edgeidx_error err.
Proof.
  intros Hfail.
  destruct (Solid_Solid_cases debug i0_init m d instance nu E damp simplex edgeidx)
    as (s1 & _ & _ & [(err' & _ & He & Herr)|[He|(mt & He & _)]]);
    rewrite He in Hfail.
  - injection Hfail as <-. by right.
  - injection Hfail as <-. by left.
  - discriminate.
Qed.

(** ** The metric and the force *)

(** C4.  The metric the constructor assembles is symmetric: for every
    tetrahedron [t] and local edges [a], [b] the entries [metric[t][a][b]]
    and [metric[t][b][a]] exist and are equal, whatever the positions and the
    material parameters (in exact arithmetic). *)
Theorem C4_metric_symmetric (debug : bool) (i0_init : Z) (m : mjModel)
    (d : mjData) (instance : Z) (nu E damp : mjtNum) (simplex edgeidx : list Z)
    (s : Solid) (t a b : nat) :
  Solid_Solid debug i0_init m d instance nu E damp simplex edgeidx = ok s ->
  t < nt s -> a < kNumEdges -> b < kNumEdges ->
  ∃ x, metric s !! (kNumEdges * kNumEdges * t + kNumEdges * a + b) = Some x
     ∧ metric s !! (kNumEdges * kNumEdges * t + kNumEdges * b + a) = Some x.
Proof.
  intros (s1 & mt & _ & Hpost & -> & Hlen & Hmt)%Solid_Solid_spec Ht Ha Hb.
  destruct Hpost as (Hnt & Hels & _). simpl in Ht.
  destruct (lookup_lt_is_Some_2 (elements s1) t) as [el Hel]; [lia|].
  change (metric (ctor_result m s1 mt)) with mt.
  eexists. split; [by apply Hmt|].
  rewrite (Hmt t el b a Hel Hb Ha). f_equal.
  unfold element_metric. cbv zeta. by apply metric_entry_sym.
Qed.

Lemma C4_metric_symmetric_witness :
  Solid_Solid true 0 tet_model tet_data 0 (3 / 10) 100 0 tet_simplex []
  = ok tet_solid
  ∧ 0 < nt tet_solid ∧ 1 < kNumEdges ∧ 4 < kNumEdges
  ∧ ∃ x, metric tet_solid !! (kNumEdges * kNumEdges * 0 + kNumEdges * 1 + 4) = Some x
       ∧ metric tet_solid !! (kNumEdges * kNumEdges * 0 + kNumEdges * 4 + 1) = Some x.
Proof.
  assert (Solid_Solid true 0 tet_model tet_data 0 (3 / 10) 100 0 tet_simplex []
          = ok tet_solid) as Hrun by (vm_compute; reflexivity).
  assert (0 < nt tet_solid) as Ht by (vm_compute; lia).
  assert (1 < kNumEdges) as Ha by (vm_compute; lia).
  assert (4 < kNumEdges) as Hb by (vm_compute; lia).
  exact (conj Hrun (conj Ht (conj Ha (conj Hb
    (C4_metric_symmetric true 0 tet_model tet_data 0 (3 / 10) 100 0
       tet_simplex [] tet_solid 0 1 4 Hrun Ht Ha Hb))))).
Defined.

(** C9.  After stencil construction the edge list has [ne] entries and every
    element has six edge ids, all below [ne]; the constructor returns a
    well-formed instance, and when it fails it is never because one of its
    own vectors was indexed out of bounds; on a well-formed instance [Compute]
    returns, so every read of [reference], [previous], [deformed] and
    [metric] is in bounds, and the instance it leaves is well formed. *)
Theorem C9_accesses_in_bounds (debug : bool) (i0_init : Z) (m : mjModel)
    (d : mjData) (instance : Z) (nu E damp : mjtNum) (simplex edgeidx : list Z)
    (s0 s : Solid) :
  (fresh s0 ->
   ∀ s1, CreateStencils debug simplex edgeidx s0 = ok s1 ->
     length (edges s1) = ne s1
     ∧ ∀ t el, elements s1 !! t = Some el ->
         length (Stencil3D.edges el) = kNumEdges
         ∧ ∀ e, e < kNumEdges -> Stencil3D.edges el !!! e < ne s1)
  ∧ (Solid_Solid debug i0_init m d instance nu E damp simplex edgeidx = ok s ->
     Solid_wf s)
  ∧ (∀ err,
       Solid_Solid debug i0_init m d instance nu E damp simplex edgeidx = fail err ->
       err = mju_error_raised ∨ edgeidx_error err)
  ∧ (Solid_wf s ->
     ∃ d' s', Compute m d instance s = ok (d', s') ∧ Solid_wf s').
Proof.
  split_and!.
  - intros Hfresh s1 Hs1. apply CreateStencils_ok_pure in Hs1.
    destruct (CreateStencils_pure simplex s0 Hfresh) as (s1' & Hs1' & Hpost).
    rewrite Hs1' in Hs1. injection Hs1 as <-. split.
    + destruct Hpost as (_ & _ & _ & _ & -> & _). done.
    + intros t el Hel. by eapply stencil_post_ids.
  - apply Solid_Solid_wf.
  - intros err. apply Solid_Solid_fail.
  - intros Hwf. destruct (Compute_ok m d instance s Hwf) as (d' & Hrun & _).
    exists d', (Compute_state d s). split; [done|]. by apply Compute_state_wf.
Qed.

(** C7.  On a well-formed instance [Compute] returns and leaves [reference]
    as it was; without a flex it refreshes [deformed] from the current
    positions and ends with [previous = deformed]; with a flex it leaves
    [previous] and [deformed] as they were. *)
Theorem C7_length_arrays_frame (m : mjModel) (d : mjData) (instance : Z)
    (s : Solid) :
  Solid_wf s ->
  ∃ d' s', Compute m d instance s = ok (d', s')
    ∧ reference s' = reference s
    ∧ ((f0 s < 0)%Z ->
         deformed s' = map (edge_sqlen (ptr_add (xpos d) (3 * i0 s))) (edges s)
         ∧ previous s' = deformed s')
    ∧ ((0 <= f0 s)%Z -> previous s' = previous s ∧ deformed s' = deformed s).
Proof.
  intros Hwf. destruct (Compute_ok m d instance s Hwf) as (d' & Hrun & _).
  exists d', (Compute_state d s). split; [done|]. unfold Compute_state.
  destruct (Z.ltb_spec (f0 s) 0); simpl; split_and!; try done; intros; lia.
Qed.

Lemma C7_length_arrays_frame_witness :
  Solid_wf tet_solid
  ∧ ∃ d' s', Compute tet_model tet_data 0 tet_solid = ok (d', s')
      ∧ reference s' = reference tet_solid
      ∧ ((f0 tet_solid < 0)%Z ->
           deformed s'
           = map (edge_sqlen (ptr_add (xpos tet_data) (3 * i0 tet_solid)))
               (edges tet_solid)
           ∧ previous s' = deformed s')
      ∧ ((0 <= f0 tet_solid)%Z ->
           previous s' = previous tet_solid ∧ deformed s' = deformed tet_solid).
Proof.
  assert (Solid_wf tet_solid) as Hwf.
  { apply (Solid_Solid_wf true 0 tet_model tet_data 0 (3 / 10) 100 0
             tet_simplex [])%R.
    vm_compute. reflexivity. }
  exact (conj Hwf (C7_length_arrays_frame tet_model tet_data 0 tet_solid Hwf)).
Defined.

Lemma edge_sqlen_ext (x y : ptr) off p :
  (∀ k, x k = y k) ->
  edge_sqlen (ptr_add x off) p = edge_sqlen (ptr_add y off) p.
Proof.
  intros Hxy. unfold edge_sqlen, SquaredDist3, mju_sub3, ptr_add.
  by rewrite !Hxy.
Qed.

(** The two branches of [elongation_of]. *)
Lemma elongation_of_free m d s el e x :
  (f0 s < 0)%Z ->
  elongation_of m d s el e = ok x ->
  ∃ dfm ref prv,
    deformed s !! (Stencil3D.edges el !!! e) = Some dfm
    ∧ reference s !! (Stencil3D.edges el !!! e) = Some ref
    ∧ previous s !! (Stencil3D.edges el !!! e) = Some prv
    ∧ x = (dfm - ref + (dfm - prv) * (damping s / opt_timestep m))%R.
Proof.
  intros Hf0%Z.ltb_lt. unfold elongation_of. rewrite Hf0.
  intros (dfm & Hd%read_at_inv & H)%bind_ok_inv.
  apply bind_ok_inv in H as (ref & Hr%read_at_inv & H).
  apply bind_ok_inv in H as (prv & Hp%read_at_inv & H).
  injection H as <-. by exists dfm, ref, prv.
Qed.

Lemma elongation_of_flex m d s el e :
  (0 <= f0 s)%Z ->
  elongation_of m d s el e
  = ok (let k := (Z.of_nat (Stencil3D.edges el !!! e) + flex_edgeadr m (f0 s))%Z in
        flexedge_length d k * flexedge_length d k
        - flexedge_length0 m k * flexedge_length0 m k)%R.
Proof.
  intros Hf0%Z.ltb_ge. unfold elongation_of. by rewrite Hf0.
Qed.

(** C2.  Take a valid setup: a Poisson ratio other than 1/2 and -1, a
    timestep other than zero, and the instance the constructor returns, none
    of whose elements is flat in the rest pose (any Young's modulus and
    damping, in particular zero damping).  Run the force evaluator on
    positions equal to the rest positions of setup; with a flex, let the
    host's current edge lengths equal its rest edge lengths.  Then [Compute]
    returns and the host's generalized force is, at every degree of freedom,
    what it was: the contribution is zero.

    The first four hypotheses are the conditions under which no quotient of
    the source has a zero divisor: [mu] and [la] divide by [2*(1+nu)] and
    [(1+nu)*(1-2*nu)], [ComputeBasis] by [36*2*volume*volume], the damping
    factor by the timestep.  Outside them the source computes with
    infinities and NaN, which the real numbers of the embedding do not
    represent; the statement is made where the two agree. *)
Theorem C2_rest_state_zero_force (debug : bool) (i0_init : Z) (m : mjModel)
    (d0 d : mjData) (instance : Z) (nu E damp : mjtNum)
    (simplex edgeidx : list Z) (s : Solid) :
  nu ≠ (1 / 2)%R -> nu ≠ (-1)%R -> opt_timestep m ≠ 0%R ->
  Solid_Solid debug i0_init m d0 instance nu E damp simplex edgeidx = ok s ->
  nonflat m s ->
  (∀ k, xpos d k = body_pos m k) ->
  ((0 <= f0 s)%Z -> ∀ k, flexedge_length d k = flexedge_length0 m k) ->
  ∃ d' s', Compute m d instance s = ok (d', s')
    ∧ ∀ k, qfrc_passive d' k = qfrc_passive d k.
Proof.
  intros _ _ _ Hrun _ Hpos Hflex.
  pose proof (Solid_Solid_wf _ _ _ _ _ _ _ _ _ _ _ Hrun) as Hwf.
  apply Solid_Solid_spec in Hrun as (s1 & mt & _ & _ & -> & _).
  destruct (Compute_zero_elongation m d instance _ Hwf) as (d' & Hd' & Hq);
    [|by exists d', (Compute_state d (ctor_result m s1 mt))].
  intros d1 t el e x [_ Hlen] _ _. unfold Compute_visit.
  change (f0 (ctor_result m s1 mt)) with (f0 s1) in *.
  destruct (Z.ltb_spec (f0 s1) 0) as [Hfree|Hflexmode].
  - intros (dfm & ref & prv & Hd & Hr & Hp & ->)%elongation_of_free; [|done].
    cbn [deformed reference previous set_deformed ctor_result edges i0] in Hd, Hr, Hp.
    rewrite (map_ext _ _ (fun p => edge_sqlen_ext _ _ (3 * i0 s1) p Hpos)) in Hd.
    assert (dfm = ref) as -> by congruence.
    assert (prv = ref) as -> by congruence.
    unfold mjtNum. ring.
  - rewrite elongation_of_flex by done. intros [= <-]. cbv zeta.
    rewrite Hlen, Hflex by done. unfold mjtNum. ring.
Qed.

Lemma C2_rest_state_zero_force_witness :
  (3 / 10 ≠ 1 / 2)%R ∧ (3 / 10 ≠ -1)%R ∧ opt_timestep tet_model ≠ 0%R
  ∧ Solid_Solid true 0 tet_model tet_data 0 (3 / 10) 100 0 tet_simplex []
    = ok tet_solid
  ∧ nonflat tet_model tet_solid
  ∧ (∀ k, xpos tet_data k = body_pos tet_model k)
  ∧ ((0 <= f0 tet_solid)%Z ->
     ∀ k, flexedge_length tet_data k = flexedge_length0 tet_model k)
  ∧ ∃ d' s', Compute tet_model tet_data 0 tet_solid = ok (d', s')
      ∧ ∀ k, qfrc_passive d' k = qfrc_passive tet_data k.
Proof.
  assert (3 / 10 ≠ 1 / 2)%R as Hnu1 by lra.
  assert (3 / 10 ≠ -1)%R as Hnu2 by lra.
  assert (opt_timestep tet_model ≠ 0%R) as Hstep by (simpl; lra).
  assert (Solid_Solid true 0 tet_model tet_data 0 (3 / 10) 100 0 tet_simplex []
          = ok tet_solid) as Hrun by (vm_compute; reflexivity).
  assert (nonflat tet_model tet_solid) as Hflat.
  { intros t el Hel. destruct t as [|t]; [|destruct t; discriminate Hel].
    injection Hel as <-. vm_compute. lra. }
  assert (∀ k, xpos tet_data k = body_pos tet_model k) as Hpos
    by (intros k; reflexivity).
  assert ((0 <= f0 tet_solid)%Z ->
          ∀ k, flexedge_length tet_data k = flexedge_length0 tet_model k) as Hflex
    by (intros _ k; reflexivity).
  exact (conj Hnu1 (conj Hnu2 (conj Hstep (conj Hrun (conj Hflat (conj Hpos
    (conj Hflex
      (C2_rest_state_zero_force true 0 tet_model tet_data tet_data 0 (3 / 10)
         100 0 tet_simplex [] tet_solid Hnu1 Hnu2 Hstep Hrun Hflat Hpos
         Hflex)))))))).
Defined.

(** C3.  On a well-formed instance, for every element [t] and local edge
    [e], the elongation array the force evaluator fills holds at [e]:
    without a flex, [deformed - reference + (deformed - previous) *
    (damping / timestep)] read from the instance's own arrays at the edge's
    id, [deformed] being the array refreshed at the start of the step and
    [reference], [previous] those the instance holds; with a flex, the square
    of the host's current edge length minus the square of its rest edge
    length, at the edge's id offset by the flex's edge address, with no
    damping term. *)
Theorem C3_elongation_formula (m : mjModel) (d : mjData) (s : Solid)
    (t e : nat) :
  Solid_wf s -> t < nt s -> e < kNumEdges ->
  ∃ s' el elongation,
    update_deformed d s = ok s'
    ∧ elements s' !! t = Some el
    ∧ compute_elongation m d s' el = ok elongation
    ∧ ((f0 s < 0)%Z ->
         ∃ dfm ref prv,
           deformed s' !! (Stencil3D.edges el !!! e) = Some dfm
           ∧ reference s !! (Stencil3D.edges el !!! e) = Some ref
           ∧ previous s !! (Stencil3D.edges el !!! e) = Some prv
           ∧ elongation e
             = (dfm - ref + (dfm - prv) * (damping s / opt_timestep m))%R)
    ∧ ((0 <= f0 s)%Z ->
         let k := (Z.of_nat (Stencil3D.edges el !!! e)
                   + flex_edgeadr m (f0 s))%Z in
         elongation e
         = (flexedge_length d k * flexedge_length d k
            - flexedge_length0 m k * flexedge_length0 m k)%R).
Proof.
  intros Hwf Ht He.
  pose proof (Compute_visit_wf d s Hwf) as Hwf'.
  assert (nt (Compute_visit d s) = nt s) as Hnt
    by (unfold Compute_visit; by destruct (f0 s <? 0)%Z).
  destruct (compute_element_ok m (Compute_visit d s) t d Hwf')
    as (el & elo & force & Hel & Helo & _); [lia|].
  destruct (compute_elongation_ok m d (Compute_visit d s) el)
    as (elongation & Hrun & Hval); [by eauto|].
  exists (Compute_visit d s), el, elongation. split_and!; try done.
  - rewrite update_deformed_ok; [done|].
    destruct Hwf as (? & ? & ? & ? & ? & ? & ?). lia.
  - intros Hfree. specialize (Hval e He).
    apply elongation_of_free in Hval as (dfm & ref & prv & Hd & Hr & Hp & Hx).
    + exists dfm, ref, prv. revert Hd Hr Hp Hx. unfold Compute_visit.
      by destruct (f0 s <? 0)%Z.
    + unfold Compute_visit. by destruct (f0 s <? 0)%Z.
  - intros Hflex. specialize (Hval e He).
    assert (Compute_visit d s = s) as Heq.
    { unfold Compute_visit. by rewrite (proj2 (Z.ltb_ge _ _) Hflex). }
    rewrite Heq, elongation_of_flex in Hval by done. by injection Hval as <-.
Qed.

Lemma C3_elongation_formula_witness :
  Solid_wf tet_solid ∧ 0 < nt tet_solid ∧ 2 < kNumEdges
  ∧ ∃ s' el elongation,
      update_deformed tet_data tet_solid = ok s'
      ∧ elements s' !! 0 = Some el
      ∧ compute_elongation tet_model tet_data s' el = ok elongation
      ∧ ((f0 tet_solid < 0)%Z ->
           ∃ dfm ref prv,
             deformed s' !! (Stencil3D.edges el !!! 2) = Some dfm
             ∧ reference tet_solid !! (Stencil3D.edges el !!! 2) = Some ref
             ∧ previous tet_solid !! (Stencil3D.edges el !!! 2) = Some prv
             ∧ elongation 2
               = (dfm - ref
                  + (dfm - prv)
                    * (damping tet_solid / opt_timestep tet_model))%R)
      ∧ ((0 <= f0 tet_solid)%Z ->
           let k := (Z.of_nat (Stencil3D.edges el !!! 2%nat)
                     + flex_edgeadr tet_model (f0 tet_solid))%Z in
           elongation 2
           = (flexedge_length tet_data k * flexedge_length tet_data k
              - flexedge_length0 tet_model k * flexedge_length0 tet_model k)%R).
Proof.
  assert (Solid_wf tet_solid) as Hwf.
  { apply (Solid_Solid_wf true 0 tet_model tet_data 0 (3 / 10) 100 0
             tet_simplex [])%R.
    vm_compute. reflexivity. }
  assert (0 < nt tet_solid) as Ht by (vm_compute; lia).
  assert (2 < kNumEdges) as He by (vm_compute; lia).
  exact (conj Hwf (conj Ht (conj He
    (C3_elongation_formula tet_model tet_data tet_solid 0 2 Hwf Ht He)))).
Defined.

(** C5.  With everything else fixed (mesh, rest positions, Poisson ratio,
    damping, timestep, current positions and the force already accumulated
    by the host), the constructor run with Young's modulus [2 * E] returns
    whenever it returns with [E], both force evaluations return, and at every
    degree of freedom the force added with [2 * E] is exactly twice the force
    added with [E] (in exact arithmetic). *)
Theorem C5_force_doubles_with_young (debug : bool) (i0_init : Z) (m : mjModel)
    (d0 d : mjData) (instance : Z) (nu E damp : mjtNum)
    (simplex edgeidx : list Z) (s : Solid) :
  Solid_Solid debug i0_init m d0 instance nu E damp simplex edgeidx = ok s ->
  ∃ s2 d1 s1' d2 s2',
    Solid_Solid debug i0_init m d0 instance nu (2 * E) damp simplex edgeidx
    = ok s2
    ∧ Compute m d instance s = ok (d1, s1')
    ∧ Compute m d instance s2 = ok (d2, s2')
    ∧ ∀ k, (qfrc_passive d2 k - qfrc_passive d k
            = 2 * (qfrc_passive d1 k - qfrc_passive d k))%R.
Proof.
  intros Hrun.
  pose proof (Solid_Solid_wf _ _ _ _ _ _ _ _ _ _ _ Hrun) as Hwf.
  destruct (Compute_ok m d instance s Hwf) as (d1 & Hd1 & _).
  destruct (Compute_scale 2 m d instance s d1 _ Hd1) as (d2 & Hd2 & Hq).
  exists (scale_metric 2 s), d1, (Compute_state d s), d2,
    (scale_metric 2 (Compute_state d s)).
  split_and!; try done. by apply Solid_Solid_scale.
Qed.

Lemma C5_force_doubles_with_young_witness :
  Solid_Solid true 0 tet_model tet_data 0 (3 / 10) 100 0 tet_simplex []
  = ok tet_solid
  ∧ ∃ s2 d1 s1' d2 s2',
      Solid_Solid true 0 tet_model tet_data 0 (3 / 10) (2 * 100) 0 tet_simplex []
      = ok s2
      ∧ Compute tet_model tet_data 0 tet_solid = ok (d1, s1')
      ∧ Compute tet_model tet_data 0 s2 = ok (d2, s2')
      ∧ ∀ k, (qfrc_passive d2 k - qfrc_passive tet_data k
              = 2 * (qfrc_passive d1 k - qfrc_passive tet_data k))%R.
Proof.
  assert (Solid_Solid true 0 tet_model tet_data 0 (3 / 10) 100 0 tet_simplex []
          = ok tet_solid) as Hrun by (vm_compute; reflexivity).
  exact (conj Hrun
    (C5_force_doubles_with_young true 0 tet_model tet_data tet_data 0 (3 / 10)
       100 0 tet_simplex [] tet_solid Hrun)).
Defined.

(** C8, as stated, fails.  Build the instance on [line_model] with damping 1
    (timestep 1), run one step with the second vertex pushed in from 4 to 2,
    and start the next step with the vertex released to 3.  The edge between
    the first two vertices is lengthening (deformed 9 above previous 4) but
    still compressed (reference 16); its elongation is
    [9 - 16 + (9 - 4) * (1 / 1) = -2], of smaller magnitude than the undamped
    value [9 - 16 = -7]. *)
Lemma C8_counterexample :
  Solid_Solid true 0 line_model (line_data 4) 0 (3 / 10) 100 1 tet_simplex []
  = ok line_solid
  ∧ (∃ d', Compute line_model (line_data 2) 0 line_solid
           = ok (d', line_solid_compressed))
  ∧ update_deformed (line_data 3) line_solid_compressed = ok line_solid_rebound
  ∧ elements line_solid_rebound !! 0 = Some line_element
  ∧ Stencil3D.edges line_element !!! 0 = 0
  ∧ (f0 line_solid_rebound < 0)%Z
  ∧ (damping line_solid_rebound > 0)%R ∧ (opt_timestep line_model > 0)%R
  ∧ ∃ dfm ref prv x,
      deformed line_solid_rebound !! 0 = Some dfm ∧ dfm = 9%R
      ∧ reference line_solid_rebound !! 0 = Some ref ∧ ref = 16%R
      ∧ previous line_solid_rebound !! 0 = Some prv ∧ prv = 4%R
      ∧ (dfm > prv)%R
      ∧ elongation_of line_model (line_data 3) line_solid_rebound line_element 0
        = ok x
      ∧ x = (-2)%R
      ∧ ¬ (Rabs x > Rabs (dfm - ref))%R.
Proof.
  assert (Solid_Solid true 0 line_model (line_data 4) 0 (3 / 10) 100 1
            tet_simplex [] = ok line_solid) as Hrun by (vm_compute; reflexivity).
  split; [exact Hrun|]. split.
  { destruct (Compute_ok line_model (line_data 2) 0 line_solid) as (d' & Hd' & _);
      [by eapply Solid_Solid_wf|].
    exists d'. rewrite Hd'. reflexivity. }
  split; [vm_compute; reflexivity|]. split; [reflexivity|].
  split; [reflexivity|]. split; [vm_compute; reflexivity|].
  split; [simpl; lra|]. split; [simpl; lra|].
  do 4 eexists.
  split; [reflexivity|]. split; [vm_compute; lra|].
  split; [reflexivity|]. split; [vm_compute; lra|].
  split; [reflexivity|]. split; [vm_compute; lra|].
  split; [vm_compute; lra|]. split; [reflexivity|].
  split; [vm_compute; lra|].
  unfold Rabs. do 2 destruct (Rcase_abs _); vm_compute in *; lra.
Qed.

(** C8, amended.  Without a flex, with positive damping and timestep, the
    elongation of an edge whose squared length is increasing exceeds the
    undamped value [deformed - reference]; its magnitude exceeds that of the
    undamped value whenever the edge is not compressed
    ([reference <= deformed]). *)
Theorem C8_damping_increases_elongation (m : mjModel) (d : mjData) (s : Solid)
    (el : Stencil3D.t) (e : nat) (dfm ref prv : mjtNum) :
  (f0 s < 0)%Z ->
  (damping s > 0)%R -> (opt_timestep m > 0)%R ->
  deformed s !! (Stencil3D.edges el !!! e) = Some dfm ->
  reference s !! (Stencil3D.edges el !!! e) = Some ref ->
  previous s !! (Stencil3D.edges el !!! e) = Some prv ->
  (dfm > prv)%R ->
  ∃ x, elongation_of m d s el e = ok x
    ∧ (x > dfm - ref)%R
    ∧ ((ref <= dfm)%R -> (Rabs x > Rabs (dfm - ref))%R).
Proof.
  intros Hf0%Z.ltb_lt Hdamp Hstep Hd Hr Hp Hinc.
  unfold elongation_of. rewrite Hf0.
  rewrite (read_at_ok _ _ _ _ Hd), (read_at_ok _ _ _ _ Hr),
          (read_at_ok _ _ _ _ Hp). cbn [bind ok].
  eexists; split; [reflexivity|].
  assert (0 < damping s / opt_timestep m)%R as HkD
    by (by apply Rdiv_lt_0_compat).
  assert (0 < (dfm - prv) * (damping s / opt_timestep m))%R as Hterm
    by (apply Rmult_lt_0_compat; [lra|done]).
  split; [lra|]. intros Hstretch.
  rewrite !Rabs_right by lra. lra.
Qed.

(** The same instance pulled out from 4 to 5 and then to 6: the edge is
    stretched and lengthening (reference 16, previous 25, deformed 36). *)
Lemma C8_damping_increases_elongation_witness :
  ∃ dfm ref prv,
    (f0 line_solid_stretching < 0)%Z
    ∧ (damping line_solid_stretching > 0)%R ∧ (opt_timestep line_model > 0)%R
    ∧ deformed line_solid_stretching !! (Stencil3D.edges line_element !!! 0)
      = Some dfm
    ∧ reference line_solid_stretching !! (Stencil3D.edges line_element !!! 0)
      = Some ref
    ∧ previous line_solid_stretching !! (Stencil3D.edges line_element !!! 0)
      = Some prv
    ∧ (dfm > prv)%R
    ∧ ∃ x, elongation_of line_model (line_data 6) line_solid_stretching
             line_element 0 = ok x
        ∧ (x > dfm - ref)%R
        ∧ ((ref <= dfm)%R -> (Rabs x > Rabs (dfm - ref))%R).
Proof.
  do 3 eexists.
  assert (f0 line_solid_stretching < 0)%Z as H1 by (vm_compute; reflexivity).
  assert (damping line_solid_stretching > 0)%R as H2 by (simpl; lra).
  assert (opt_timestep line_model > 0)%R as H3 by (simpl; lra).
  split; [exact H1|]. split; [exact H2|]. split; [exact H3|].
  split; [reflexivity|]. split; [reflexivity|]. split; [reflexivity|].
  split; [vm_compute; lra|].
  apply (C8_damping_increases_elongation line_model (line_data 6)
           line_solid_stretching line_element 0 _ _ _ H1 H2 H3
           eq_refl eq_refl eq_refl).
  vm_compute; lra.
Defined.

(** * Further properties of the code *)

(** ** Geometry kernels *)

(** X1.  The tensor [ComputeBasis] writes is symmetric: [basis[3*i+j]] and
    [basis[3*j+i]] are equal for all [i], [j] below 3, whatever the positions,
    the two faces, the volume and the previous contents of the buffer. *)
Theorem X1_basis_symmetric (basis : larray) (x : ptr) (v : list Z)
    (faceL faceR : nat -> nat) (volume : mjtNum) (i j : nat) :
  i < 3 -> j < 3 ->
  ComputeBasis basis x v faceL faceR volume (3 * i + j)
  = ComputeBasis basis x v faceL faceR volume (3 * j + i).
Proof.
  intros Hi Hj.
  destruct i as [|[|[|i]]]; [| | |lia];
    (destruct j as [|[|[|j]]]; [| | |lia]);
    unfold ComputeBasis; cbv [for_loop fold_left seq upd Nat.eqb Nat.add Nat.mul];
    unfold Rdiv, mjtNum, larray in *; ring.
Qed.

Lemma X1_basis_symmetric_witness :
  1 < 3 ∧ 2 < 3
  ∧ ComputeBasis zeros tet_pos tet_simplex (face 2) (face 3) 1 (3 * 1 + 2)
    = ComputeBasis zeros tet_pos tet_simplex (face 2) (face 3) 1 (3 * 2 + 1).
Proof.
  assert (1 < 3) as H1 by lia. assert (2 < 3) as H2 by lia.
  exact (conj H1 (conj H2
    (X1_basis_symmetric zeros tet_pos tet_simplex (face 2) (face 3) 1 1 2 H1 H2))).
Defined.

(** X2.  [ComputeVolume] is a signed volume: exchanging two vertices of the
    tetrahedron (the first two, the middle two or the last two, hence any
    two) negates it, and it is zero when the first two vertices coincide. *)
Theorem X2_volume_signed (x : ptr) (a b c d : Z) :
  ComputeVolume x [b; a; c; d] = (- ComputeVolume x [a; b; c; d])%R
  ∧ ComputeVolume x [a; c; b; d] = (- ComputeVolume x [a; b; c; d])%R
  ∧ ComputeVolume x [a; b; d; c] = (- ComputeVolume x [a; b; c; d])%R
  ∧ ComputeVolume x [a; a; c; d] = 0%R.
Proof.
  unfold ComputeVolume, mju_dot3, mju_cross, mju_sub3, ptr_add, vert.
  cbn [lookup_total list_lookup_total]. unfold mjtNum.
  split_and!; field.
Qed.

(** ** The counting loops of the constructor *)

Lemma for_range_ind {St} (I : Z -> St -> Prop) lo hi (body : Z -> St -> St) s :
  (lo <= hi)%Z ->
  I lo s ->
  (∀ i a, (lo <= i < hi)%Z -> I i a -> I (i + 1)%Z (body i a)) ->
  I hi (for_range lo hi body s).
Proof.
  intros Hle H0 Hstep. unfold for_range.
  replace hi with (lo + Z.of_nat (Z.to_nat (hi - lo)))%Z at 1 by lia.
  apply (for_loop_inv (fun k a => I (lo + Z.of_nat k)%Z a)).
  - by rewrite Z.add_0_r.
  - intros k a Hk Ha.
    replace (lo + Z.of_nat (S k))%Z with (lo + Z.of_nat k + 1)%Z by lia.
    apply Hstep; [lia|done].
Qed.

Lemma for_range_empty {St} lo hi (body : Z -> St -> St) s :
  (hi <= lo)%Z -> for_range lo hi body s = s.
Proof.
  intros Hle. unfold for_range. by replace (Z.to_nat (hi - lo)) with 0 by lia.
Qed.

Lemma seqZ_snoc (lo : Z) (n : Z) :
  (0 <= n)%Z -> seqZ lo (n + 1) = seqZ lo n ++ [(lo + n)%Z].
Proof.
  intros Hn. rewrite seqZ_app by lia. f_equal.
Qed.

Lemma count_plugin_bodies_spec m instance s :
  nv s = 0%Z ->
  let s' := count_plugin_bodies m instance s in
  nv s' = Z.of_nat (length (plugin_bodies m instance))
  ∧ f0 s' = f0 s ∧ damping s' = damping s
  ∧ ((nv s' = 0%Z ∧ i0 s' = i0 s
      ∧ ∀ j, (1 <= j < nbody m)%Z -> body_plugin m j ≠ instance)
     ∨ ((0 < nv s')%Z ∧ (1 <= i0 s' < nbody m)%Z
        ∧ body_plugin m (i0 s') = instance
        ∧ ∀ j, (1 <= j < i0 s')%Z -> body_plugin m j ≠ instance)).
Proof.
  intros Hnv. unfold count_plugin_bodies, plugin_bodies.
  destruct (Z.le_gt_cases 1 (nbody m)) as [Hle|Hgt].
  - apply (for_range_ind (fun i a =>
      nv a = Z.of_nat (length (filter (fun i => body_plugin m i = instance)
                                 (seqZ 1 (i - 1))))
      ∧ f0 a = f0 s ∧ damping a = damping s
      ∧ ((nv a = 0%Z ∧ i0 a = i0 s
          ∧ ∀ j, (1 <= j < i)%Z -> body_plugin m j ≠ instance)
         ∨ ((0 < nv a)%Z ∧ (1 <= i0 a < i)%Z
            ∧ body_plugin m (i0 a) = instance
            ∧ ∀ j, (1 <= j < i0 a)%Z -> body_plugin m j ≠ instance))));
      [done| |].
    { rewrite Hnv. split_and!; try done. left. split_and!; try done. intros; lia. }
    intros i a Hi (Hn & Hf0 & Hd & Hcase).
    replace (i + 1 - 1)%Z with (i - 1 + 1)%Z by lia.
    rewrite seqZ_snoc, filter_app by lia.
    replace (1 + (i - 1))%Z with i by lia.
    rewrite filter_cons, filter_nil.
    destruct (Z.eqb_spec (body_plugin m i) instance) as [Heq|Hne].
    + rewrite decide_True by done. rewrite length_app. simpl.
      destruct Hcase as [(Hz & Hi0 & Hnone)|(Hpos & Hr & Hc & Hfirst)].
      * rewrite Hz. simpl. split_and!; try done; [lia|].
        right. split_and!; try done; lia.
      * destruct (Z.eqb_spec (nv a) 0) as [Hz|_]; [lia|]. simpl.
        split_and!; try done; [lia|]. right. split_and!; try done; lia.
    + rewrite decide_False by done. rewrite app_nil_r.
      split_and!; try done.
      destruct Hcase as [(Hz & Hi0 & Hnone)|(Hpos & Hr & Hc & Hfirst)].
      * left. split_and!; try done. intros j Hj.
        destruct (decide (j = i)) as [->|]; [done|]. apply Hnone. lia.
      * right. split_and!; try done; lia.
  - rewrite for_range_empty by lia.
    rewrite seqZ_nil by lia. rewrite filter_nil, Hnv.
    split_and!; try done. left. split_and!; try done. intros; lia.
Qed.

Lemma count_flexes_spec m s :
  let s' := count_flexes m s in
  i0 s' = i0 s ∧ nv s' = nv s ∧ damping s' = damping s
  ∧ ((f0 s' = f0 s ∧ ∀ i, (0 <= i < nflex m)%Z -> ¬ flex_of m (i0 s) i)
     ∨ ((0 <= f0 s' < nflex m)%Z ∧ flex_of m (i0 s) (f0 s')
        ∧ ∀ i, (0 <= i < f0 s')%Z -> ¬ flex_of m (i0 s) i)).
Proof.
  unfold count_flexes, flex_of.
  destruct (Z.le_gt_cases 0 (nflex m)) as [Hle|Hgt].
  - match goal with |- context [for_range 0 (nflex m) ?body (false, s)] =>
      pose proof (for_range_ind (fun k (st : bool * Solid) =>
        i0 st.2 = i0 s ∧ nv st.2 = nv s ∧ damping st.2 = damping s
        ∧ ((st.1 = false ∧ f0 st.2 = f0 s
            ∧ ∀ i, (0 <= i < k)%Z -> flex_vertbodyid m (flex_vertadr m i) ≠ i0 s)
           ∨ (st.1 = true ∧ (0 <= f0 st.2 < k)%Z
              ∧ flex_vertbodyid m (flex_vertadr m (f0 st.2)) = i0 s
              ∧ ∀ i, (0 <= i < f0 st.2)%Z
                  -> flex_vertbodyid m (flex_vertadr m i) ≠ i0 s)))
        0 (nflex m) body (false, s) Hle) as Hloop;
      destruct (for_range 0 (nflex m) body (false, s)) as [stop a] end.
    simpl in *. destruct Hloop as (Hi0 & Hnv & Hd & Hcase).
    + split_and!; try done. left. split_and!; try done. intros; lia.
    + intros i [stop' a'] Hi (Hi0 & Hnv & Hd & Hcase). simpl in *.
      destruct Hcase as [(-> & Hf0 & Hnone)|(-> & Hr & Hc & Hfirst)].
      * destruct (Z.eqb_spec (flex_vertbodyid m (flex_vertadr m i)) (i0 a'))
          as [Heq|Hne]; simpl.
        -- split_and!; try done. right.
           split_and!; try done; try lia; congruence.
        -- split_and!; try done. left. split_and!; try done.
           intros j Hj. destruct (decide (j = i)) as [->|]; [congruence|].
           apply Hnone. lia.
      * split_and!; try done. right. split_and!; try done; simpl; lia.
    + split_and!; try done.
      destruct Hcase as [(_ & Hf0 & Hnone)|(_ & Hr & Hc & Hfirst)];
        [by left|by right].
  - rewrite for_range_empty by lia. simpl. split_and!; try done.
    left. split; [done|]. intros; lia.
Qed.

(** X3.  The instance the constructor returns records the plugin bodies of
    the model: [nv] is the number of bodies [1 <= i < nbody] whose plugin is
    [instance], and [i0] is the first of them; when there is none, [i0] keeps
    the indeterminate value it had.  [damping] is the constructor's argument. *)
Theorem X3_plugin_bodies_counted (debug : bool) (i0_init : Z) (m : mjModel)
    (d : mjData) (instance : Z) (nu E damp : mjtNum) (simplex edgeidx : list Z)
    (s : Solid) :
  Solid_Solid debug i0_init m d instance nu E damp simplex edgeidx = ok s ->
  nv s = Z.of_nat (length (plugin_bodies m instance))
  ∧ damping s = damp
  ∧ ((nv s = 0%Z ∧ i0 s = i0_init
      ∧ ∀ j, (1 <= j < nbody m)%Z -> body_plugin m j ≠ instance)
     ∨ ((0 < nv s)%Z ∧ (1 <= i0 s < nbody m)%Z
        ∧ body_plugin m (i0 s) = instance
        ∧ ∀ j, (1 <= j < i0 s)%Z -> body_plugin m j ≠ instance)).
Proof.
  intros (s1 & mt & Hs1 & _ & -> & _)%Solid_Solid_spec.
  apply CreateStencils_header in Hs1 as (Hi0 & Hf0 & Hnv & Hd).
  unfold ctor_result. cbn [nv i0 damping]. rewrite Hi0, Hnv, Hd.
  unfold Solid_init. cbv zeta.
  set (s0 := set_ne 0 _).
  destruct (count_flexes_spec m (count_plugin_bodies m instance s0))
    as (-> & -> & -> & _).
  destruct (count_plugin_bodies_spec m instance s0 eq_refl)
    as (Hn & _ & Hdamp & Hcase).
  split_and!; done.
Qed.

Lemma X3_plugin_bodies_counted_witness :
  Solid_Solid true 0 tet_model tet_data 0 (3 / 10) 100 0 tet_simplex []
  = ok tet_solid
  ∧ nv tet_solid = Z.of_nat (length (plugin_bodies tet_model 0))
  ∧ (0 < nv tet_solid)%Z ∧ i0 tet_solid = 1%Z.
Proof.
  assert (Solid_Solid true 0 tet_model tet_data 0 (3 / 10) 100 0 tet_simplex []
          = ok tet_solid) as Hrun by (vm_compute; reflexivity).
  pose proof (X3_plugin_bodies_counted true 0 tet_model tet_data 0 (3 / 10) 100 0
                tet_simplex [] tet_solid Hrun) as (Hn & _ & _).
  exact (conj Hrun (conj Hn (conj eq_refl eq_refl))).
Defined.

(** X4.  The constructor selects the flex by a search that stops at the
    first hit: [f0] is the least flex index [0 <= i < nflex] whose first
    vertex belongs to body [i0], and [-1] when no flex qualifies.  Hence the
    instance is in free-point mode ([f0 < 0]) exactly when no flex
    qualifies. *)
Theorem X4_first_flex_selected (debug : bool) (i0_init : Z) (m : mjModel)
    (d : mjData) (instance : Z) (nu E damp : mjtNum) (simplex edgeidx : list Z)
    (s : Solid) :
  Solid_Solid debug i0_init m d instance nu E damp simplex edgeidx = ok s ->
  (f0 s = (-1)%Z ∧ ∀ i, (0 <= i < nflex m)%Z -> ¬ flex_of m (i0 s) i)
  ∨ ((0 <= f0 s < nflex m)%Z ∧ flex_of m (i0 s) (f0 s)
     ∧ ∀ i, (0 <= i < f0 s)%Z -> ¬ flex_of m (i0 s) i).
Proof.
  intros (s1 & mt & Hs1 & _ & -> & _)%Solid_Solid_spec.
  apply CreateStencils_header in Hs1 as (Hi0 & Hf0 & Hnv & Hd).
  unfold ctor_result. cbn [f0 i0]. rewrite Hi0, Hf0.
  unfold Solid_init. cbv zeta.
  set (s0 := set_ne 0 _).
  destruct (count_flexes_spec m (count_plugin_bodies m instance s0))
    as (-> & _ & _ & Hcase).
  destruct (count_plugin_bodies_spec m instance s0 eq_refl)
    as (_ & Hf & _ & _).
  destruct Hcase as [[Heq Hnone]|Hfound]; [left|by right].
  split; [|done]. by rewrite Heq, Hf.
Qed.

Lemma X4_first_flex_selected_witness :
  Solid_Solid true 0 flex_model flex_data 0 (3 / 10) 100 1 tet_simplex []
  = ok flex_solid
  ∧ ((f0 flex_solid = (-1)%Z
      ∧ ∀ i, (0 <= i < nflex flex_model)%Z
          -> ¬ flex_of flex_model (i0 flex_solid) i)
     ∨ ((0 <= f0 flex_solid < nflex flex_model)%Z
        ∧ flex_of flex_model (i0 flex_solid) (f0 flex_solid)
        ∧ ∀ i, (0 <= i < f0 flex_solid)%Z
            -> ¬ flex_of flex_model (i0 flex_solid) i)).
Proof.
  assert (Solid_Solid true 0 flex_model flex_data 0 (3 / 10) 100 1 tet_simplex []
          = ok flex_solid) as Hrun by (vm_compute; reflexivity).
  exact (conj Hrun
    (X4_first_flex_selected true 0 flex_model flex_data 0 (3 / 10) 100 1
       tet_simplex [] flex_solid Hrun)).
Defined.

(** ** The edge list *)

Lemma length_first_seen_le {A} `{EqDecision A} (l : list A) :
  length (first_seen l) <= length l.
Proof.
  induction l as [|x l IH] using rev_ind; [done|].
  rewrite first_seen_snoc, length_app. unfold first_seen_step. simpl.
  destruct (decide (x ∈ first_seen l)); [lia|]. rewrite length_app. simpl. lia.
Qed.

Lemma length_all_pairs simplex n : length (all_pairs simplex n) = kNumEdges * n.
Proof.
  unfold all_pairs. induction n as [|n IH]; [done|].
  rewrite seq_S, flat_map_app, length_app, IH. simpl.
  unfold kNumEdges, Stencil3D.kNumEdges. lia.
Qed.

(** X5.  Every entry of the edge list the stencil builder produces is a pair
    [(a, b)] with [a <= b] whose two ends are the ends of a local edge of some
    tetrahedron of the mesh; no pair is listed twice; and there are at most
    six edges per tetrahedron. *)
Theorem X5_edge_list_normalised (debug : bool) (simplex edgeidx : list Z)
    (s s' : Solid) :
  fresh s ->
  CreateStencils debug simplex edgeidx s = ok s' ->
  (∀ p, p ∈ edges s' ->
     (p.1 <= p.2)%Z
     ∧ ∃ t e, t < nt s' ∧ e < kNumEdges
         ∧ same_unordered p (raw_pair simplex t e))
  ∧ NoDup (edges s')
  ∧ ne s' <= kNumEdges * nt s'.
Proof.
  intros Hfresh Hrun%CreateStencils_ok_pure.
  destruct (CreateStencils_pure simplex s Hfresh) as (s0 & Hs0 & Hpost).
  rewrite Hs0 in Hrun. injection Hrun as <-.
  destruct Hpost as (Hnt & _ & _ & Hedges & Hne & _).
  split_and!.
  - intros p Hp. rewrite Hedges in Hp.
    rewrite elem_of_first_seen, elem_of_all_pairs in Hp.
    destruct Hp as (t & e & Ht & He & ->).
    split; [unfold edge_pair; simpl; lia|].
    exists t, e. split_and!; [lia|done|].
    unfold same_unordered, edge_pair, raw_pair. simpl. lia.
  - rewrite Hedges. apply NoDup_first_seen.
  - rewrite Hne, Hedges, Hnt, <- (length_all_pairs simplex).
    apply length_first_seen_le.
Qed.

Lemma X5_edge_list_normalised_witness :
  fresh empty_solid
  ∧ CreateStencils true two_tets [] empty_solid = ok two_tets_stencil
  ∧ NoDup (edges two_tets_stencil)
  ∧ ne two_tets_stencil <= kNumEdges * nt two_tets_stencil.
Proof.
  assert (fresh empty_solid) as Hfresh by (by split_and!).
  assert (CreateStencils true two_tets [] empty_solid = ok two_tets_stencil)
    as Hrun by (vm_compute; reflexivity).
  exact (conj Hfresh (conj Hrun
    (proj2 (X5_edge_list_normalised true two_tets [] empty_solid two_tets_stencil
              Hfresh Hrun)))).
Defined.

(** ** A mesh without a complete tetrahedron *)

(** X6.  With fewer than four indices in [simplex] the constructor builds no
    element: whatever the validation array and the bodies of the model, it
    returns an instance with [nt = 0], [ne = 0] and empty vectors, and
    [Compute] on that instance returns the host data unchanged. *)
Theorem X6_no_tetrahedron (debug : bool) (i0_init : Z) (m : mjModel)
    (d0 d : mjData) (instance : Z) (nu E damp : mjtNum)
    (simplex edgeidx : list Z) :
  length simplex < kNumVerts ->
  ∃ s, Solid_Solid debug i0_init m d0 instance nu E damp simplex edgeidx = ok s
    ∧ nt s = 0 ∧ ne s = 0
    ∧ elements s = [] ∧ edges s = [] ∧ metric s = []
    ∧ reference s = [] ∧ deformed s = [] ∧ previous s = []
    ∧ Compute m d instance s = ok (d, s).
Proof.
  intros Hlen.
  assert (length simplex / kNumVerts = 0) as Hdiv by (by apply Nat.div_small).
  pose proof (Solid_init_fresh i0_init m instance damp) as (Hel & Hed & Hne).
  unfold Solid_Solid, CreateStencils. cbv zeta. rewrite Hdiv.
  cbn [nt set_nt]. rewrite resize_0.
  destruct (Solid_init i0_init m instance damp)
    as [i0' f0' nv' nt' ne' el' ed' me' re' de' pr' da'].
  cbn in Hel, Hed, Hne. subst el' ed' ne'.
  cbv [set_elements set_nt set_metric set_reference set_deformed
       set_previous nt ne elements edges metric reference deformed previous
       i0 f0 nv damping].
  rewrite !for_loopM_0. cbn [bind ok].
  rewrite !for_loopM_0. cbn [bind ok snd fst].
  cbv [set_elements set_nt set_metric set_reference set_deformed
       set_previous nt ne elements edges metric reference deformed previous
       i0 f0 nv damping kNumEdges Stencil3D.kNumEdges Nat.add Nat.mul replicate].
  rewrite !for_loopM_0. cbn [bind ok].
  unfold UpdateSquaredLengths.
  cbv [set_elements set_nt set_metric set_reference set_deformed
       set_previous nt ne elements edges metric reference deformed previous
       i0 f0 nv damping kNumEdges Stencil3D.kNumEdges Nat.add Nat.mul replicate for_loopM length seq fold_left bind ok].
  eexists. split; [reflexivity|].
  split_and!; try reflexivity.
  unfold Compute, update_deformed, UpdateSquaredLengths.
  cbv [set_elements set_nt set_metric set_reference set_deformed
       set_previous nt ne elements edges metric reference deformed previous
       i0 f0 nv damping kNumEdges Stencil3D.kNumEdges Nat.add Nat.mul replicate for_loopM length seq fold_left bind ok].
  destruct (f0' <? 0)%Z eqn:Hf0; cbn; rewrite ?Hf0; reflexivity.
Qed.

Lemma X6_no_tetrahedron_witness :
  length [0; 1; 2]%Z < kNumVerts
  ∧ ∃ s, Solid_Solid true 0 tet_model tet_data 0 (3 / 10) 100 0 [0; 1; 2]%Z [7]%Z
         = ok s
      ∧ nt s = 0 ∧ ne s = 0
      ∧ elements s = [] ∧ edges s = [] ∧ metric s = []
      ∧ reference s = [] ∧ deformed s = [] ∧ previous s = []
      ∧ Compute tet_model tet_data 0 s = ok (tet_data, s).
Proof.
  assert (length [0; 1; 2]%Z < kNumVerts) as Hlen by (vm_compute; lia).
  exact (conj Hlen
    (X6_no_tetrahedron true 0 tet_model tet_data tet_data 0 (3 / 10) 100 0
       [0; 1; 2]%Z [7]%Z Hlen)).
Defined.

(** ** The validation array *)

Lemma first_seen_app {A} `{EqDecision A} (l l' : list A) :
  ∃ k, first_seen (l ++ l') = first_seen l ++ k.
Proof.
  induction l' as [|x l' IH] using rev_ind.
  - exists []. by rewrite !app_nil_r.
  - destruct IH as [k Hk]. rewrite app_assoc, first_seen_snoc, Hk.
    unfold first_seen_step. destruct (decide _); [by exists k|].
    exists (k ++ [x]). by rewrite app_assoc.
Qed.

Lemma all_pairs_split simplex n t e :
  t < n -> ∃ rest, all_pairs simplex n = pairs_upto simplex t e ++ rest.
Proof.
  intros Ht. unfold pairs_upto, all_pairs.
  replace n with (t + S (n - S t)) by lia.
  rewrite seq_app, flat_map_app. cbn [seq flat_map Nat.add].
  exists (drop e (tet_pairs simplex t)
          ++ flat_map (tet_pairs simplex) (seq (S t) (n - S t))).
  rewrite <- app_assoc. f_equal. rewrite app_assoc. f_equal.
  by rewrite take_drop.
Qed.

(** The edge step of a debug build with a validation array is the step
    without assertions followed by the assertion. *)
Lemma stencil_edge_debug edgeidx v t e st :
  edgeidx ≠ [] ->
  stencil_edge true edgeidx v t e st
  = do st' <- stencil_edge false [] v t e st;
    do el <- read_at A_elements (elements st'.2) t;
    do x <- read_at A_edgeidx edgeidx (kNumEdges * t + e);
    if (Z.of_nat (Stencil3D.edges el !!! e) =? x)%Z
    then ok st' else fail assertion_failed.
Proof.
  intros Hne. unfold stencil_edge. destruct st as [M a].
  destruct (map_insert (edge_pair v e) (ne a) M) as [[it ins] M'].
  rewrite (bool_decide_eq_false_2 _ Hne). cbn [andb negb].
  match goal with |- bind ?x _ = _ => destruct x as [err|a'] end;
    cbn [bind ok snd]; [reflexivity|].
  destruct (read_at A_elements (elements a') t) as [|el]; cbn [bind ok];
    [reflexivity|].
  destruct (read_at A_edgeidx edgeidx (kNumEdges * t + e)) as [|x];
    cbn [bind ok]; [reflexivity|].
  by destruct (Z.of_nat (Stencil3D.edges el !!! e) =? x)%Z.
Qed.

(** The id an edge step stores is the id the finished stencil holds. *)
Lemma stencil_edge_final simplex t e st s' :
  let n := length simplex / kNumVerts in
  t < n -> e < kNumEdges ->
  stencil_post simplex s' ->
  stencil_inv simplex n t e st ->
  ∃ st' el id,
    stencil_edge false [] (tet_vertices simplex t) t e st = ok st'
    ∧ stencil_inv simplex n t (S e) st'
    ∧ elements st'.2 !! t = Some el
    ∧ Stencil3D.edges el !!! e = id
    ∧ edge_id s' t e = Some id.
Proof.
  intros n Ht He Hpost Hinv.
  destruct (stencil_edge_step simplex n t e st Ht He Hinv) as (st' & Hrun & Hinv').
  pose proof Hinv' as (_ & _ & _ & Hedges & _ & _ & Hids).
  destruct (Hids t e) as (id & Hid & Hlk); [right; lia|].
  destruct Hpost as (_ & _ & _ & Hedges' & _ & Hids'). fold n in Hedges', Hids'.
  destruct (Hids' t e Ht He) as (id' & Hid' & Hlk').
  destruct (all_pairs_split simplex n t (S e) Ht) as [rest Hrest].
  destruct (first_seen_app (pairs_upto simplex t (S e)) rest) as [k Hk].
  rewrite <- Hrest, <- Hedges', <- Hedges in Hk.
  assert (id = id') as <-.
  { apply (NoDup_lookup (edges s') id id'
             (edge_pair (tet_vertices simplex t) e)); [| |exact Hlk'].
    - rewrite Hedges'. apply NoDup_first_seen.
    - rewrite Hk. by apply lookup_app_l_Some. }
  unfold edge_id in Hid.
  destruct (elements st'.2 !! t) as [el|] eqn:Hel; [|done]. simpl in Hid.
  exists st', el, id. split_and!; try done.
  by apply list_lookup_total_correct.
Qed.

(** [CreateStencils] on a fresh instance: after the stencil is populated the
    invariant of the edge loops holds, and the outcome is that of the loop
    over the tetrahedra. *)
Lemma CreateStencils_loops debug simplex edgeidx s :
  let n := length simplex / kNumVerts in
  fresh s ->
  ∃ s2, stencil_inv simplex n 0 0 (∅, s2)
    ∧ CreateStencils debug simplex edgeidx s
      = do st <- for_loopM n (stencil_tet debug edgeidx) (∅, s2); ok st.2.
Proof.
  intros n (Hel & Hed & Hne). unfold CreateStencils. cbv zeta. fold n.
  set (s1 := set_elements (resize _ _ _) _).
  change (nt (set_nt n s)) with n in s1.
  destruct (populate_ok simplex n s1) as (s2 & Hrun & Hs2 & Hlen2 & Hels2).
  { subst s1. simpl. rewrite Hel. apply resize_nil. }
  { subst n. unfold kNumVerts, Stencil3D.kNumVerts.
    pose proof (Nat.Div0.mul_div_le (length simplex) 4). lia. }
  assert (nt s1 = n) as Hnt1 by reflexivity.
  rewrite Hnt1, Hrun. cbn [bind ok].
  assert (nt s2 = n) as Hnt2 by (by rewrite Hs2).
  rewrite Hnt2. exists s2. split; [|reflexivity].
  split_and!; simpl; try done.
  - intros t Ht. eexists. split; [by apply Hels2|]. done.
  - rewrite Hs2. simpl. by rewrite Hed.
  - rewrite Hs2. simpl. by rewrite Hne, Hed.
  - intros p i. rewrite lookup_empty. rewrite Hs2. simpl. rewrite Hed.
    by rewrite lookup_nil.
  - intros t' e' Hcase. lia.
Qed.

(** A matching array passes every assertion. *)
Lemma stencil_loop_accepts simplex edgeidx s' st :
  let n := length simplex / kNumVerts in
  edgeidx ≠ [] ->
  stencil_post simplex s' ->
  edgeidx_matches edgeidx s' ->
  stencil_inv simplex n 0 0 st ->
  ∃ st', for_loopM n (stencil_tet true edgeidx) st = ok st'.
Proof.
  intros n Hne Hpost Hmatch Hinv.
  assert (nt s' = n) as Hnt by apply Hpost.
  destruct (for_loopM_inv (fun t st => stencil_inv simplex n t 0 st) n
              (stencil_tet true edgeidx) st Hinv) as (st' & Hrun & _);
    [|by exists st'].
  intros t a Ht Ha. unfold stencil_tet.
  pose proof Ha as (_ & _ & Hels & _).
  destruct (Hels t Ht) as (el & Hel & Hv & _).
  rewrite (read_at_ok _ _ _ _ Hel). cbn [bind ok]. rewrite Hv.
  destruct (for_loopM_inv (fun e st => stencil_inv simplex n t e st) kNumEdges
              (stencil_edge true edgeidx (tet_vertices simplex t) t) a Ha)
    as (a' & Hrun & Hinv').
  - intros e b He Hb. rewrite stencil_edge_debug by done.
    destruct (stencil_edge_final simplex t e b s' Ht He Hpost Hb)
      as (b' & el' & id & -> & Hb' & Hel' & Hid & Hfin).
    cbn [bind ok]. rewrite (read_at_ok _ _ _ _ Hel'). cbn [bind ok].
    rewrite (read_at_ok _ _ _ _ (Hmatch t e id ltac:(lia) He Hfin)).
    cbn [bind ok]. rewrite Hid, Z.eqb_refl. by exists b'.
  - exists a'. split; [done|].
    destruct Hinv' as (? & ? & ? & Hedges' & ? & ? & Hids').
    split_and!; try done.
    + by rewrite <- pairs_upto_next.
    + intros t' e' Hcase. apply Hids'. lia.
Qed.

(** An array that passes every assertion matches. *)
Lemma stencil_loop_accepted simplex edgeidx s' st st' :
  let n := length simplex / kNumVerts in
  edgeidx ≠ [] ->
  stencil_post simplex s' ->
  stencil_inv simplex n 0 0 st ->
  for_loopM n (stencil_tet true edgeidx) st = ok st' ->
  edgeidx_matches edgeidx s'.
Proof.
  intros n Hne Hpost Hinv Hrun.
  assert (nt s' = n) as Hnt by apply Hpost.
  pose (J := fun (t e : nat) (a : gmap (Z * Z) nat * Solid) =>
    stencil_inv simplex n t e a
    ∧ ∀ t' e' id, (t' < t ∧ e' < kNumEdges) ∨ (t' = t ∧ e' < e) ->
        edge_id s' t' e' = Some id ->
        edgeidx !! (kNumEdges * t' + e') = Some (Z.of_nat id)).
  apply (for_loopM_inv_ok (fun t a => J t 0 a)) in Hrun as [_ Hall].
  - intros t e id Ht He Hid. apply Hall; [|done]. left. lia.
  - split; [done|]. intros t' e' id Hcase. lia.
  - intros t a a' Ht [Ha Hacc] Hstep. unfold stencil_tet in Hstep.
    pose proof Ha as (_ & _ & Hels & _).
    destruct (Hels t Ht) as (el & Hel & Hv & _).
    rewrite (read_at_ok _ _ _ _ Hel) in Hstep. cbn [bind ok] in Hstep.
    rewrite Hv in Hstep.
    apply (for_loopM_inv_ok (fun e a => J t e a)) in Hstep
      as [Hinv' Hacc'].
    + split.
      * destruct Hinv' as (? & ? & ? & Hedges' & ? & ? & Hids').
        split_and!; try done.
        -- by rewrite <- pairs_upto_next.
        -- intros t' e' Hcase. apply Hids'. lia.
      * intros t' e' id Hcase. apply Hacc'. lia.
    + done.
    + intros e b b' He [Hb Hbacc] Hstep'.
      rewrite stencil_edge_debug in Hstep' by done.
      destruct (stencil_edge_final simplex t e b s' Ht He Hpost Hb)
        as (b1 & el' & id & Hpure & Hb1 & Hel' & Hid & Hfin).
      rewrite Hpure in Hstep'. cbn [bind ok] in Hstep'.
      rewrite (read_at_ok _ _ _ _ Hel') in Hstep'. cbn [bind ok] in Hstep'.
      apply bind_ok_inv in Hstep' as (x & Hx%read_at_inv & Hstep').
      destruct (Z.eqb_spec (Z.of_nat (Stencil3D.edges el' !!! e)) x)
        as [Heq|]; [|discriminate].
      injection Hstep' as <-. split; [done|].
      intros t' e' id' [Hcase|[-> Hcase]] Hid'.
      * apply Hbacc; [by left|done].
      * destruct (decide (e' = e)) as [->|].
        -- rewrite Hfin in Hid'. injection Hid' as <-. by rewrite <- Hid, Heq.
        -- apply Hbacc; [right; lia|done].
Qed.

(** X14.  In a debug build the validation array is accepted exactly when it
    holds, for every local edge of every tetrahedron, the id the builder
    assigns to it: a non-empty [edgeidx] lets [CreateStencils] return (the
    stencil [s'] it builds without an array) if and only if
    [edgeidx[kNumEdges*t+e]] is the id of edge [e] of tetrahedron [t] for all
    [t] and [e]; otherwise the run stops at the assertion (or at a read past
    the end of [edgeidx]). *)
Theorem X14_validation_exact (simplex edgeidx : list Z) (s s' : Solid) :
  fresh s -> edgeidx ≠ [] ->
  CreateStencils false simplex [] s = ok s' ->
  (CreateStencils true simplex edgeidx s = ok s' ↔ edgeidx_matches edgeidx s')
  ∧ (¬ edgeidx_matches edgeidx s' ->
     ∃ err, CreateStencils true simplex edgeidx s = fail err
       ∧ edgeidx_error err).
Proof.
  intros Hfresh Hne Hpure.
  destruct (CreateStencils_pure simplex s Hfresh) as (s0 & Hs0 & Hpost).
  rewrite Hpure in Hs0. injection Hs0 as <-.
  destruct (CreateStencils_loops true simplex edgeidx s Hfresh)
    as (s2 & Hinv & Heq).
  assert (CreateStencils true simplex edgeidx s = ok s'
          ↔ edgeidx_matches edgeidx s') as Hiff.
  { split.
    - rewrite Heq. intros (st' & Hloop & _)%bind_ok_inv.
      by eapply stencil_loop_accepted.
    - intros Hmatch.
      destruct (stencil_loop_accepts simplex edgeidx s' (∅, s2) Hne Hpost
                  Hmatch Hinv) as (st' & Hloop).
      rewrite Hloop in Heq. cbn [bind ok] in Heq.
      pose proof (CreateStencils_ok_pure _ _ _ _ _ Heq) as Hpure'.
      rewrite Hpure in Hpure'. injection Hpure' as ->. done. }
  split; [done|]. intros Hno.
  destruct (CreateStencils_assert true simplex edgeidx s s' Hpure)
    as [Hok|Hfail]; [|done].
  by apply Hiff in Hok.
Qed.

Lemma X14_validation_exact_witness :
  fresh empty_solid ∧ [0; 1; 2; 3; 4; 5; 1; 3; 5; 6; 7; 8]%Z ≠ []
  ∧ CreateStencils false two_tets [] empty_solid = ok two_tets_stencil
  ∧ (CreateStencils true two_tets [0; 1; 2; 3; 4; 5; 1; 3; 5; 6; 7; 8]%Z
       empty_solid = ok two_tets_stencil
     ↔ edgeidx_matches [0; 1; 2; 3; 4; 5; 1; 3; 5; 6; 7; 8]%Z two_tets_stencil).
Proof.
  assert (fresh empty_solid) as Hfresh by (by split_and!).
  assert ([0; 1; 2; 3; 4; 5; 1; 3; 5; 6; 7; 8]%Z ≠ []) as Hne by discriminate.
  assert (CreateStencils false two_tets [] empty_solid = ok two_tets_stencil)
    as Hrun by (vm_compute; reflexivity).
  exact (conj Hfresh (conj Hne (conj Hrun
    (proj1 (X14_validation_exact two_tets [0; 1; 2; 3; 4; 5; 1; 3; 5; 6; 7; 8]%Z
              empty_solid two_tets_stencil Hfresh Hne Hrun))))).
Defined.

Lemma edge_ids_lookup (els : list Stencil3D.t) t e el :
  Forall (fun el => length (Stencil3D.edges el) = kNumEdges) els ->
  els !! t = Some el -> e < kNumEdges ->
  flat_map (fun el => map Z.of_nat (Stencil3D.edges el)) els
    !! (kNumEdges * t + e)
  = Z.of_nat <$> Stencil3D.edges el !! e.
Proof.
  intros Hall. revert t. induction Hall as [|el0 els Hlen _ IH]; intros t Ht He.
  - done.
  - cbn [flat_map]. destruct t as [|t].
    + injection Ht as ->. rewrite Nat.mul_0_r, Nat.add_0_l.
      rewrite lookup_app_l by (rewrite length_map; lia).
      apply list_lookup_fmap.
    + rewrite lookup_app_r by (rewrite length_map; lia).
      rewrite length_map, Hlen.
      replace (kNumEdges * S t + e - kNumEdges) with (kNumEdges * t + e) by lia.
      by apply IH.
Qed.

Lemma edge_ids_match simplex s :
  stencil_post simplex s -> edgeidx_matches (edge_ids s) s.
Proof.
  intros (Hnt & Hlen & Hels & _) t e id Ht He Hid.
  unfold edge_id in Hid.
  destruct (elements s !! t) as [el|] eqn:Hel; [|done]. simpl in Hid.
  unfold edge_ids. rewrite (edge_ids_lookup _ t e el); [by rewrite Hid| |done..].
  apply Forall_lookup. intros i el' Hi.
  destruct (Hels i) as (el'' & Hel'' & _ & Hl6).
  { apply lookup_lt_Some in Hi. lia. }
  congruence.
Qed.

(** X15.  Round trip of the edge ids: the ids the builder assigns, written out
    element by element, form a validation array that the debug build
    accepts, returning the same stencil. *)
Theorem X15_edge_ids_round_trip (simplex : list Z) (s s' : Solid) :
  fresh s ->
  CreateStencils false simplex [] s = ok s' ->
  CreateStencils true simplex (edge_ids s') s = ok s'.
Proof.
  intros Hfresh Hpure.
  destruct (CreateStencils_pure simplex s Hfresh) as (s0 & Hs0 & Hpost).
  rewrite Hpure in Hs0. injection Hs0 as <-.
  destruct (decide (edge_ids s' = [])) as [->|Hne].
  { by rewrite CreateStencils_no_edgeidx. }
  destruct (CreateStencils_loops true simplex (edge_ids s') s Hfresh)
    as (s2 & Hinv & Heq).
  destruct (stencil_loop_accepts simplex (edge_ids s') s' (∅, s2) Hne Hpost
              (edge_ids_match simplex s' Hpost) Hinv) as (st' & Hloop).
  rewrite Hloop in Heq. cbn [bind ok] in Heq.
  pose proof (CreateStencils_ok_pure _ _ _ _ _ Heq) as Hpure'.
  rewrite Hpure in Hpure'. injection Hpure' as ->. done.
Qed.

Lemma X15_edge_ids_round_trip_witness :
  fresh empty_solid
  ∧ CreateStencils false two_tets [] empty_solid = ok two_tets_stencil
  ∧ CreateStencils true two_tets (edge_ids two_tets_stencil) empty_solid
    = ok two_tets_stencil.
Proof.
  assert (fresh empty_solid) as Hfresh by (by split_and!).
  assert (CreateStencils false two_tets [] empty_solid = ok two_tets_stencil)
    as Hrun by (vm_compute; reflexivity).
  exact (conj Hfresh (conj Hrun
    (X15_edge_ids_round_trip two_tets empty_solid two_tets_stencil Hfresh Hrun))).
Defined.

(** ** Appending tetrahedra *)

Lemma tet_vertices_app simplex extra t :
  t < length simplex / kNumVerts ->
  tet_vertices (simplex ++ extra) t = tet_vertices simplex t.
Proof.
  intros Ht. unfold tet_vertices. apply map_ext_in. intros v Hv%in_seq.
  apply lookup_total_app_l.
  pose proof (Nat.Div0.mul_div_le (length simplex) kNumVerts).
  unfold kNumVerts, Stencil3D.kNumVerts in *. lia.
Qed.

Lemma all_pairs_app simplex extra n :
  n <= length simplex / kNumVerts ->
  all_pairs (simplex ++ extra) n = all_pairs simplex n.
Proof.
  intros Hn. unfold all_pairs.
  rewrite !flat_map_concat_map. f_equal. apply map_ext_in.
  intros t Ht%in_seq. unfold tet_pairs.
  rewrite tet_vertices_app by lia. done.
Qed.

(** X16.  Appending vertex ids to the mesh keeps what was built: the
    tetrahedra of [simplex] receive the same vertices and the same edge ids,
    and the edge list of the longer mesh starts with the edge list of
    [simplex]. *)
Theorem X16_appending_keeps_ids (debug debug' : bool)
    (simplex extra edgeidx edgeidx' : list Z) (s s1 s2 : Solid) :
  fresh s ->
  CreateStencils debug simplex edgeidx s = ok s1 ->
  CreateStencils debug' (simplex ++ extra) edgeidx' s = ok s2 ->
  nt s1 <= nt s2
  ∧ edges s2 = edges s1 ++ drop (ne s1) (edges s2)
  ∧ ∀ t, t < nt s1 -> elements s2 !! t = elements s1 !! t.
Proof.
  intros Hfresh Hs1%CreateStencils_ok_pure Hs2%CreateStencils_ok_pure.
  destruct (CreateStencils_pure simplex s Hfresh) as (s1' & Hs1' & Hpost1).
  rewrite Hs1 in Hs1'. injection Hs1' as <-.
  destruct (CreateStencils_pure (simplex ++ extra) s Hfresh)
    as (s2' & Hs2' & Hpost2).
  rewrite Hs2 in Hs2'. injection Hs2' as <-.
  destruct Hpost1 as (Hnt1 & Hlen1 & Hels1 & Hed1 & Hne1 & Hids1).
  destruct Hpost2 as (Hnt2 & Hlen2 & Hels2 & Hed2 & Hne2 & Hids2).
  set (n1 := length simplex / kNumVerts) in *.
  set (n2 := length (simplex ++ extra) / kNumVerts) in *.
  assert (n1 <= n2) as Hn.
  { subst n1 n2. apply Nat.Div0.div_le_mono. rewrite length_app. lia. }
  assert (∃ k, edges s2 = edges s1 ++ k) as [k Hk].
  { rewrite Hed1, Hed2.
    assert (∃ rest, all_pairs (simplex ++ extra) n2
                    = all_pairs simplex n1 ++ rest) as [rest ->].
    { rewrite <- (all_pairs_app simplex extra n1) by done.
      unfold all_pairs. replace n2 with (n1 + (n2 - n1)) by lia.
      rewrite seq_app, flat_map_app. by eexists. }
    apply first_seen_app. }
  split_and!.
  - lia.
  - rewrite Hk at 1. f_equal. rewrite Hk, Hne1.
    by rewrite drop_app_length.
  - intros t Ht. rewrite Hnt1 in Ht.
    destruct (Hels1 t Ht) as (el1 & Hel1 & Hv1 & Hl1).
    destruct (Hels2 t) as (el2 & Hel2 & Hv2 & Hl2); [lia|].
    rewrite Hel1, Hel2. f_equal.
    destruct el1 as [v1 e1], el2 as [v2 e2]. simpl in *.
    f_equal.
    + by rewrite Hv1, Hv2, tet_vertices_app.
    + apply list_eq_same_length with kNumEdges; [done..|].
      intros e x y He Hx Hy.
      destruct (Hids1 t e Ht He) as (id1 & Hid1 & Hlk1).
      destruct (Hids2 t e ltac:(lia) He) as (id2 & Hid2 & Hlk2).
      unfold edge_id in Hid1, Hid2. rewrite Hel1 in Hid1. rewrite Hel2 in Hid2.
      simpl in Hid1, Hid2.
      assert (x = id2) as -> by congruence.
      assert (y = id1) as -> by congruence.
      rewrite tet_vertices_app in Hlk2 by done.
      apply (NoDup_lookup (edges s2) id2 id1
               (edge_pair (tet_vertices simplex t) e)); [|done|].
      * rewrite Hed2. apply NoDup_first_seen.
      * rewrite Hk. by apply lookup_app_l_Some.
Qed.

Lemma X16_appending_keeps_ids_witness :
  fresh empty_solid
  ∧ CreateStencils true tet_simplex [] empty_solid = ok one_tet_stencil
  ∧ CreateStencils true (tet_simplex ++ [1; 2; 3; 4]%Z) [] empty_solid
    = ok two_tets_stencil
  ∧ nt one_tet_stencil <= nt two_tets_stencil
  ∧ edges two_tets_stencil
    = edges one_tet_stencil ++ drop (ne one_tet_stencil) (edges two_tets_stencil)
  ∧ ∀ t, t < nt one_tet_stencil ->
      elements two_tets_stencil !! t = elements one_tet_stencil !! t.
Proof.
  assert (fresh empty_solid) as Hfresh by (by split_and!).
  assert (CreateStencils true tet_simplex [] empty_solid = ok one_tet_stencil)
    as Hs1 by (vm_compute; reflexivity).
  assert (CreateStencils true (tet_simplex ++ [1; 2; 3; 4]%Z) [] empty_solid
          = ok two_tets_stencil) as Hs2 by (vm_compute; reflexivity).
  exact (conj Hfresh (conj Hs1 (conj Hs2
    (X16_appending_keeps_ids true true tet_simplex [1; 2; 3; 4]%Z [] []
       empty_solid one_tet_stencil two_tets_stencil Hfresh Hs1 Hs2)))).
Defined.

(** ** The body check of the constructor *)

(** X17.  The constructor accepts a mesh exactly when every vertex of every
    complete tetrahedron, counted from the first plugin body [i0], is a body
    of the plugin instance: without an edge array it returns an instance if
    and only if that holds, and otherwise it stops with [mju_error]. *)
Theorem X17_mesh_accepted (debug : bool) (i0_init : Z) (m : mjModel)
    (d : mjData) (instance : Z) (nu E damp : mjtNum) (simplex : list Z) :
  ((∃ s, Solid_Solid debug i0_init m d instance nu E damp simplex [] = ok s)
   ↔ mesh_on_plugin m instance (i0 (Solid_init i0_init m instance damp)) simplex)
  ∧ (¬ mesh_on_plugin m instance (i0 (Solid_init i0_init m instance damp)) simplex
     ↔ Solid_Solid debug i0_init m d instance nu E damp simplex []
       = fail mju_error_raised).
Proof.
  pose proof (Solid_Solid_accepts debug i0_init m d instance nu E damp simplex)
    as Hiff.
  split; [done|]. rewrite <- Hiff. split.
  - intros Hno.
    destruct (Solid_Solid_no_edgeidx debug i0_init m d instance nu E damp simplex)
      as [Hok|Hfail]; [by destruct Hno|done].
  - intros Hfail [s Hs]. rewrite Hs in Hfail. discriminate.
Qed.

(** ** No net force *)

(** The two inner loops of the force accumulation, for one pair of local
    edges: what they add at the first vertex of the edge they take away at
    the second. *)
Lemma force_edge_step (s : Solid) (t ed1 ed2 : nat) (elongation : larray)
    (x : ptr) (v : list Z) (mt : mjtNum) (force : larray) :
  ed2 < kNumEdges ->
  metric s !! (kNumEdges * kNumEdges * t + kNumEdges * ed1 + ed2) = Some mt ->
  ∃ force',
    for_loopM 2 (fun i =>
      for_loopM 3 (fun x0 force =>
        do mt <- read_at A_metric (metric s)
                   (kNumEdges * kNumEdges * t + kNumEdges * ed1 + ed2);
        let k := 3 * edge ed2 i + x0 in
        ok (upd force k
              (force k + elongation ed1
                         * GradSquaredLengths x v edge ed2 i x0 * mt)%R)))
      force = ok force'
    ∧ ∀ c, c < 3 -> net_force force' c = net_force force c.
Proof.
  intros Hed2 Hmt.
  cbv [for_loopM seq fold_left]. rewrite (read_at_ok _ _ _ _ Hmt).
  cbn [bind ok]. eexists. split; [reflexivity|].
  intros c Hc. unfold net_force, GradSquaredLengths.
  clear Hmt. revert ed2 Hed2. apply lt_kNumEdges_cases;
    destruct c as [|[|[|c]]]; try lia;
    cbv [upd edge table lookup_total list_lookup_total Nat.eqb Nat.add Nat.mul];
    unfold mjtNum; ring.
Qed.

Lemma compute_force_net (s : Solid) (t : nat) (elongation : larray)
    (x : ptr) (v : list Z) :
  kNumEdges * kNumEdges * t + kNumEdges * kNumEdges <= length (metric s) ->
  ∃ force,
    compute_force s t elongation (GradSquaredLengths x v edge) = ok force
    ∧ ∀ c, c < 3 -> net_force force c = 0%R.
Proof.
  intros Hlen. unfold compute_force. cbv zeta.
  apply (for_loopM_inv (fun _ f => ∀ c, c < 3 -> net_force f c = 0%R)).
  { intros c _. unfold net_force, zeros, mjtNum. ring. }
  intros ed1 f1 Hed1 Hf1.
  apply (for_loopM_inv (fun _ f => ∀ c, c < 3 -> net_force f c = 0%R));
    [done|].
  intros ed2 f2 Hed2 Hf2.
  destruct (lookup_lt_is_Some_2 (metric s)
              (kNumEdges * kNumEdges * t + kNumEdges * ed1 + ed2)) as [mt Hmt].
  { unfold kNumEdges, Stencil3D.kNumEdges in *. lia. }
  destruct (force_edge_step s t ed1 ed2 elongation x v mt f2 Hed2 Hmt)
    as (f' & Hrun & Hnet).
  exists f'. split; [exact Hrun|]. intros c Hc. rewrite Hnet by done. by apply Hf2.
Qed.

(** X7.  The local force that [Compute] accumulates for an element of a
    well-formed instance has no net component: in each of the three
    coordinates the entries of [force] of the four vertices sum to zero,
    whatever the elongations and the metric (in exact arithmetic). *)
Theorem X7_no_net_force (m : mjModel) (d : mjData) (s : Solid) (t : nat) :
  Solid_wf s -> t < nt s ->
  ∃ el force,
    elements s !! t = Some el
    ∧ compute_element m s t d
      = ok (insert_force m s (Stencil3D.vertices el) force d)
    ∧ ∀ c, c < 3 -> net_force force c = 0%R.
Proof.
  intros Hwf Ht.
  destruct (compute_element_ok m s t d Hwf Ht)
    as (el & elo & force & Hel & _ & Hforce & Hrun).
  exists el, force. split_and!; [done..|].
  destruct (compute_force_net s t elo (ptr_add (xpos d) (3 * i0 s))
              (Stencil3D.vertices el)) as (force' & Hforce' & Hnet).
  { destruct Hwf as (_ & _ & _ & -> & _).
    unfold kNumEdges, Stencil3D.kNumEdges in *. lia. }
  rewrite Hforce in Hforce'. by injection Hforce' as <-.
Qed.

Lemma X7_no_net_force_witness :
  Solid_wf line_solid ∧ 0 < nt line_solid
  ∧ ∃ el force,
      elements line_solid !! 0 = Some el
      ∧ compute_element line_model line_solid 0 (line_data 5)
        = ok (insert_force line_model line_solid (Stencil3D.vertices el) force
                (line_data 5))
      ∧ ∀ c, c < 3 -> net_force force c = 0%R.
Proof.
  assert (Solid_wf line_solid) as Hwf.
  { apply (Solid_Solid_wf true 0 line_model (line_data 4) 0 (3 / 10) 100 1
             tet_simplex [])%R.
    vm_compute. reflexivity. }
  assert (0 < nt line_solid) as Ht by (vm_compute; lia).
  exact (conj Hwf (conj Ht
    (X7_no_net_force line_model (line_data 5) line_solid 0 Hwf Ht))).
Defined.

(** ** No net torque *)

Lemma torque_edge_step (s : Solid) (t ed1 ed2 : nat) (elongation : larray)
    (x : ptr) (v : list Z) (mt : mjtNum) (force : larray) :
  ed2 < kNumEdges ->
  metric s !! (kNumEdges * kNumEdges * t + kNumEdges * ed1 + ed2) = Some mt ->
  ∃ force',
    for_loopM 2 (fun i =>
      for_loopM 3 (fun x0 force =>
        do mt <- read_at A_metric (metric s)
                   (kNumEdges * kNumEdges * t + kNumEdges * ed1 + ed2);
        let k := 3 * edge ed2 i + x0 in
        ok (upd force k
              (force k + elongation ed1
                         * GradSquaredLengths x v edge ed2 i x0 * mt)%R)))
      force = ok force'
    ∧ ∀ k, net_torque x v force' k = net_torque x v force k.
Proof.
  intros Hed2 Hmt.
  cbv [for_loopM seq fold_left]. rewrite (read_at_ok _ _ _ _ Hmt).
  cbn [bind ok]. eexists. split; [reflexivity|].
  intros k. unfold net_torque, mju_cross, vertex_pos, vertex_force,
    GradSquaredLengths.
  clear Hmt. revert ed2 Hed2. apply lt_kNumEdges_cases;
    destruct k as [|[|k]];
    cbv [upd edge table lookup_total list_lookup_total Nat.eqb Nat.add Nat.mul];
    unfold mjtNum; ring.
Qed.

Lemma compute_force_torque (s : Solid) (t : nat) (elongation : larray)
    (x : ptr) (v : list Z) :
  kNumEdges * kNumEdges * t + kNumEdges * kNumEdges <= length (metric s) ->
  ∃ force,
    compute_force s t elongation (GradSquaredLengths x v edge) = ok force
    ∧ ∀ k, net_torque x v force k = 0%R.
Proof.
  intros Hlen. unfold compute_force. cbv zeta.
  apply (for_loopM_inv (fun _ f => ∀ k, net_torque x v f k = 0%R)).
  { intros k. unfold net_torque, mju_cross, vertex_force, zeros.
    destruct k as [|[|k]]; unfold mjtNum; ring. }
  intros ed1 f1 Hed1 Hf1.
  apply (for_loopM_inv (fun _ f => ∀ k, net_torque x v f k = 0%R)); [done|].
  intros ed2 f2 Hed2 Hf2.
  destruct (lookup_lt_is_Some_2 (metric s)
              (kNumEdges * kNumEdges * t + kNumEdges * ed1 + ed2)) as [mt Hmt].
  { unfold kNumEdges, Stencil3D.kNumEdges in *. lia. }
  destruct (torque_edge_step s t ed1 ed2 elongation x v mt f2 Hed2 Hmt)
    as (f' & Hrun & Hnet).
  exists f'. split; [exact Hrun|]. intros k. by rewrite Hnet.
Qed.

(** X19.  The local force that [Compute] accumulates for an element of a
    well-formed instance exerts no net torque: the moments of the forces on
    the four vertices, taken at the current positions of the vertices, sum
    to zero in each coordinate, whatever the elongations and the metric (in
    exact arithmetic). *)
Theorem X19_no_net_torque (m : mjModel) (d : mjData) (s : Solid) (t : nat) :
  Solid_wf s -> t < nt s ->
  ∃ el force,
    elements s !! t = Some el
    ∧ compute_element m s t d
      = ok (insert_force m s (Stencil3D.vertices el) force d)
    ∧ ∀ k, net_torque (ptr_add (xpos d) (3 * i0 s)) (Stencil3D.vertices el)
             force k = 0%R.
Proof.
  intros Hwf Ht.
  destruct (compute_element_ok m s t d Hwf Ht)
    as (el & elo & force & Hel & _ & Hforce & Hrun).
  exists el, force. split_and!; [done..|].
  destruct (compute_force_torque s t elo (ptr_add (xpos d) (3 * i0 s))
              (Stencil3D.vertices el)) as (force' & Hforce' & Hnet).
  { destruct Hwf as (_ & _ & _ & -> & _).
    unfold kNumEdges, Stencil3D.kNumEdges in *. lia. }
  rewrite Hforce in Hforce'. by injection Hforce' as <-.
Qed.

Lemma X19_no_net_torque_witness :
  Solid_wf line_solid ∧ 0 < nt line_solid
  ∧ ∃ el force,
      elements line_solid !! 0 = Some el
      ∧ compute_element line_model line_solid 0 (line_data 5)
        = ok (insert_force line_model line_solid (Stencil3D.vertices el) force
                (line_data 5))
      ∧ ∀ k, net_torque (ptr_add (xpos (line_data 5)) (3 * i0 line_solid))
               (Stencil3D.vertices el) force k = 0%R.
Proof.
  assert (Solid_wf line_solid) as Hwf.
  { apply (Solid_Solid_wf true 0 line_model (line_data 4) 0 (3 / 10) 100 1
             tet_simplex [])%R.
    vm_compute. reflexivity. }
  assert (0 < nt line_solid) as Ht by (vm_compute; lia).
  exact (conj Hwf (conj Ht
    (X19_no_net_torque line_model (line_data 5) line_solid 0 Hwf Ht))).
Defined.

(** ** The footprint of [Compute] *)

(** X8.  On a well-formed instance [Compute] returns, leaves the host's
    positions and edge lengths as they were, and changes [qfrc_passive] at no
    offset other than the three degrees of freedom of the vertices of its
    elements. *)
Theorem X8_force_footprint (m : mjModel) (d : mjData) (instance : Z)
    (s : Solid) :
  Solid_wf s ->
  ∃ d' s', Compute m d instance s = ok (d', s')
    ∧ xpos d' = xpos d ∧ flexedge_length d' = flexedge_length d
    ∧ ∀ k, ¬ solid_dof m s k -> qfrc_passive d' k = qfrc_passive d k.
Proof.
  intros Hwf.
  destruct (Compute_ok m d instance s Hwf) as (d1 & Hrun & Hx & Hfl).
  exists d1, (Compute_state d s). split_and!; try done.
  unfold Compute in Hrun.
  rewrite update_deformed_ok in Hrun
    by (destruct Hwf as (? & ? & ? & ? & ? & ? & ?); lia).
  cbn [bind ok] in Hrun. fold (Compute_visit d s) in Hrun.
  pose proof (Compute_visit_wf d s Hwf) as Hwf'.
  assert (elements (Compute_visit d s) = elements s) as Hels
    by (unfold Compute_visit; by destruct (f0 s <? 0)%Z).
  assert (i0 (Compute_visit d s) = i0 s) as Hi0
    by (unfold Compute_visit; by destruct (f0 s <? 0)%Z).
  destruct (for_loopM_inv
    (fun _ d' => ∀ k, ¬ solid_dof m s k -> qfrc_passive d' k = qfrc_passive d k)
    (nt (Compute_visit d s)) (compute_element m (Compute_visit d s)) d)
    as (d' & Hrun' & Hq).
  - done.
  - intros t a Ht Ha.
    destruct (compute_element_ok m _ t a Hwf' Ht)
      as (el & elo & force & Hel & _ & _ & ->).
    eexists; split; [reflexivity|].
    apply (insert_force_inv
      (fun d' => ∀ k, ¬ solid_dof m s k -> qfrc_passive d' k = qfrc_passive d k));
      [done|].
    intros d2 i x Hi Hx2 Hq2 k Hk. simpl. unfold ptr_sub_at.
    destruct (Z.eqb_spec k
      (body_dofadr m (i0 (Compute_visit d s))
       + 3 * vert (Stencil3D.vertices el) i + Z.of_nat x)) as [->|_];
      [|by apply Hq2].
    exfalso. apply Hk. exists t, el, i, x. rewrite <- Hels, Hi0. done.
  - rewrite Hrun' in Hrun. cbn [bind ok] in Hrun. by inversion Hrun; subst.
Qed.

Lemma X8_force_footprint_witness :
  Solid_wf line_solid
  ∧ ∃ d' s', Compute line_model (line_data 5) 0 line_solid = ok (d', s')
      ∧ xpos d' = xpos (line_data 5)
      ∧ flexedge_length d' = flexedge_length (line_data 5)
      ∧ ∀ k, ¬ solid_dof line_model line_solid k ->
          qfrc_passive d' k = qfrc_passive (line_data 5) k.
Proof.
  assert (Solid_wf line_solid) as Hwf.
  { apply (Solid_Solid_wf true 0 line_model (line_data 4) 0 (3 / 10) 100 1
             tet_simplex [])%R.
    vm_compute. reflexivity. }
  exact (conj Hwf (X8_force_footprint line_model (line_data 5) 0 line_solid Hwf)).
Defined.

(** ** Young's modulus zero *)

(** X9.  On a valid setup (a Poisson ratio other than 1/2 and -1, a timestep
    other than zero, no element flat in the rest pose) an instance
    constructed with Young's modulus 0 exerts no force: [Compute] returns and
    leaves [qfrc_passive] as it was, whatever the positions and the damping
    (in exact arithmetic).  The hypotheses exclude the zero divisors of the
    source, at which it computes [0/0] or [0*inf]. *)
Theorem X9_zero_young_no_force (debug : bool) (i0_init : Z) (m : mjModel)
    (d0 d : mjData) (instance : Z) (nu damp : mjtNum)
    (simplex edgeidx : list Z) (s : Solid) :
  nu ≠ (1 / 2)%R -> nu ≠ (-1)%R -> opt_timestep m ≠ 0%R ->
  Solid_Solid debug i0_init m d0 instance nu 0 damp simplex edgeidx = ok s ->
  nonflat m s ->
  ∃ d' s', Compute m d instance s = ok (d', s')
    ∧ ∀ k, qfrc_passive d' k = qfrc_passive d k.
Proof.
  intros _ _ _ Hs _.
  pose proof (Solid_Solid_wf _ _ _ _ _ _ _ _ _ _ _ Hs) as Hwf.
  destruct (Compute_ok m d instance s Hwf) as (d1 & Hrun & _).
  pose proof (Solid_Solid_scale 0 _ _ _ _ _ _ _ _ _ _ _ Hs) as Hs0.
  unfold mjtNum in *. rewrite Rmult_0_l in Hs0.
  change R with mjtNum in *. rewrite Hs in Hs0. injection Hs0 as Hs0.
  destruct (Compute_scale 0 m d instance s d1 _ Hrun) as (d2 & Hrun2 & Hq).
  rewrite <- Hs0 in Hrun2. rewrite Hrun in Hrun2. injection Hrun2 as <- _.
  exists d1, (Compute_state d s). split; [done|].
  intros k. specialize (Hq k). unfold mjtNum in *. lra.
Qed.

Lemma X9_zero_young_no_force_witness :
  (3 / 10 ≠ 1 / 2)%R ∧ (3 / 10 ≠ -1)%R ∧ opt_timestep line_model ≠ 0%R
  ∧ Solid_Solid true 0 line_model (line_data 4) 0 (3 / 10) 0 1 tet_simplex []
    = ok line_solid_slack
  ∧ nonflat line_model line_solid_slack
  ∧ ∃ d' s', Compute line_model (line_data 5) 0 line_solid_slack = ok (d', s')
      ∧ ∀ k, qfrc_passive d' k = qfrc_passive (line_data 5) k.
Proof.
  assert (3 / 10 ≠ 1 / 2)%R as Hnu1 by lra.
  assert (3 / 10 ≠ -1)%R as Hnu2 by lra.
  assert (opt_timestep line_model ≠ 0%R) as Hstep by (simpl; lra).
  assert (Solid_Solid true 0 line_model (line_data 4) 0 (3 / 10) 0 1
            tet_simplex [] = ok line_solid_slack) as Hrun
    by (vm_compute; reflexivity).
  assert (nonflat line_model line_solid_slack) as Hflat.
  { intros t el Hel. destruct t as [|t]; [|destruct t; discriminate Hel].
    injection Hel as <-. vm_compute. lra. }
  exact (conj Hnu1 (conj Hnu2 (conj Hstep (conj Hrun (conj Hflat
    (X9_zero_young_no_force true 0 line_model (line_data 4) (line_data 5) 0
       (3 / 10) 1 tet_simplex [] line_solid_slack Hnu1 Hnu2 Hstep Hrun
       Hflat)))))).
Defined.

(** ** Flex mode *)

Lemma Compute_flex_lengths (m : mjModel) (d : mjData) (instance : Z)
    (s : Solid) (h damp : mjtNum) (ref dfm prv : list mjtNum) d1 s1 :
  (0 <= f0 s)%Z ->
  Compute m d instance s = ok (d1, s1) ->
  s1 = s
  ∧ Compute (set_opt_timestep h m) d instance (set_lengths damp ref dfm prv s)
    = ok (d1, set_lengths damp ref dfm prv s).
Proof.
  intros Hf0%Z.ltb_ge. unfold Compute, update_deformed.
  change (f0 (set_lengths damp ref dfm prv s)) with (f0 s).
  rewrite Hf0. cbn [bind ok]. rewrite Hf0.
  change (f0 (set_lengths damp ref dfm prv s)) with (f0 s). rewrite Hf0.
  change (nt (set_lengths damp ref dfm prv s)) with (nt s).
  intros (d1' & Hd1 & H)%bind_ok_inv. injection H as <- <-.
  split; [done|].
  rewrite (for_loopM_ext _ _ (compute_element m s)); [by rewrite Hd1|].
  intros t a _. unfold compute_element.
  change (elements (set_lengths damp ref dfm prv s)) with (elements s).
  destruct (read_at A_elements (elements s) t) as [|el]; [done|].
  cbn [bind ok]. cbv zeta.
  assert (compute_elongation (set_opt_timestep h m) a
            (set_lengths damp ref dfm prv s) el
          = compute_elongation m a s el) as ->; [|reflexivity].
  unfold compute_elongation. apply for_loopM_ext. intros e elo _.
  unfold elongation_of.
  change (f0 (set_lengths damp ref dfm prv s)) with (f0 s). by rewrite Hf0.
Qed.

(** X10.  With a flex ([f0 >= 0]) the force does not depend on the damping
    coefficient, on the timestep or on the instance's own length arrays:
    [Compute] returns the instance unchanged, and run with any other damping,
    timestep, [reference], [deformed] and [previous] it produces the same
    host data. *)
Theorem X10_flex_ignores_damping (m : mjModel) (d : mjData) (instance : Z)
    (s : Solid) (h damp : mjtNum) (ref dfm prv : list mjtNum) :
  Solid_wf s -> (0 <= f0 s)%Z ->
  ∃ d1,
    Compute m d instance s = ok (d1, s)
    ∧ Compute (set_opt_timestep h m) d instance (set_lengths damp ref dfm prv s)
      = ok (d1, set_lengths damp ref dfm prv s).
Proof.
  intros Hwf Hf0.
  destruct (Compute_ok m d instance s Hwf) as (d1 & Hrun & _).
  destruct (Compute_flex_lengths m d instance s h damp ref dfm prv d1 _ Hf0 Hrun)
    as [Hs Hrun'].
  exists d1. by rewrite Hs in Hrun.
Qed.

Lemma X10_flex_ignores_damping_witness :
  Solid_wf flex_solid ∧ (0 <= f0 flex_solid)%Z
  ∧ ∃ d1,
      Compute flex_model flex_data 0 flex_solid = ok (d1, flex_solid)
      ∧ Compute (set_opt_timestep 2 flex_model) flex_data 0
          (set_lengths 0 [] [] [] flex_solid)
        = ok (d1, set_lengths 0 [] [] [] flex_solid).
Proof.
  assert (Solid_wf flex_solid) as Hwf.
  { apply (Solid_Solid_wf true 0 flex_model flex_data 0 (3 / 10) 100 1
             tet_simplex [])%R.
    vm_compute. reflexivity. }
  assert (0 <= f0 flex_solid)%Z as Hf0 by (vm_compute; discriminate).
  exact (conj Hwf (conj Hf0
    (X10_flex_ignores_damping flex_model flex_data 0 flex_solid 2 0 [] [] []
       Hwf Hf0))).
Defined.

(** ** What the force depends on *)

Lemma compute_elongation_inputs m d d' s el :
  same_inputs d d' ->
  compute_elongation m d' s el = compute_elongation m d s el.
Proof.
  intros [_ Hf]. unfold compute_elongation. apply for_loopM_ext.
  intros e a _. unfold elongation_of. by rewrite Hf.
Qed.

Lemma insert_force_shift q' m s v force d d1 d2 :
  shifted_force q' d d1 d2 ->
  shifted_force q' d (insert_force m s v force d1) (insert_force m s v force d2).
Proof.
  intros Hd. unfold insert_force.
  apply (for_loop_rel (shifted_force q' d)); [done|]. intros i a1 b1 _ Hab1.
  apply (for_loop_rel (shifted_force q' d)); [done|].
  intros x a2 b2 _ [[Hx Hf] Hq].
  split; [done|]. intros k. simpl. unfold ptr_sub_at.
  destruct (_ =? _)%Z; [|apply Hq].
  specialize (Hq k). unfold mjtNum in *. lra.
Qed.

Lemma compute_element_shift q' m s t d d1 d2 d1' :
  shifted_force q' d d1 d2 ->
  compute_element m s t d1 = ok d1' ->
  ∃ d2', compute_element m s t d2 = ok d2' ∧ shifted_force q' d d1' d2'.
Proof.
  intros Hd. unfold compute_element. intros (el & Hel & H)%bind_ok_inv.
  cbv zeta in H. apply bind_ok_inv in H as (elo & Helo & H).
  apply bind_ok_inv in H as (force & Hforce & H). injection H as <-.
  rewrite Hel. cbn [bind ok]. cbv zeta.
  rewrite (compute_elongation_inputs m d1 d2) by apply Hd.
  rewrite Helo. cbn [bind ok].
  destruct Hd as [[Hx Hf] Hq]. rewrite Hx, Hforce. cbn [bind ok].
  eexists; split; [reflexivity|]. by apply insert_force_shift.
Qed.

Lemma Compute_shift q' m d instance s d1 s1 :
  Compute m d instance s = ok (d1, s1) ->
  ∃ d2, Compute m (set_qfrc_passive q' d) instance s = ok (d2, s1)
    ∧ ∀ k, (qfrc_passive d2 k - q' k = qfrc_passive d1 k - qfrc_passive d k)%R.
Proof.
  unfold Compute. intros (s' & Hs' & H)%bind_ok_inv.
  apply bind_ok_inv in H as (d1' & Hd1 & H). cbv zeta in H. injection H as <- <-.
  change (update_deformed (set_qfrc_passive q' d) s) with (update_deformed d s).
  rewrite Hs'. cbn [bind ok].
  eapply (for_loopM_sim (shifted_force q' d)) in Hd1 as (d2 & Hd2 & Hrel).
  - rewrite Hd2. cbn [bind ok]. exists d2. split; [done|apply Hrel].
  - split; [done|]. intros k. simpl. unfold mjtNum. ring.
  - intros t a b a' _ Hab Ha. by eapply compute_element_shift.
Qed.

(** X11.  What [Compute] adds to [qfrc_passive] does not depend on the force
    accumulated there before the call: started with another accumulated force
    [q'], it returns the same instance and the same increment at every
    offset. *)
Theorem X11_increment_independent (m : mjModel) (d : mjData) (instance : Z)
    (s : Solid) (q' : ptr) :
  Solid_wf s ->
  ∃ d1 d2 s1,
    Compute m d instance s = ok (d1, s1)
    ∧ Compute m (set_qfrc_passive q' d) instance s = ok (d2, s1)
    ∧ ∀ k, (qfrc_passive d2 k - q' k
            = qfrc_passive d1 k - qfrc_passive d k)%R.
Proof.
  intros Hwf.
  destruct (Compute_ok m d instance s Hwf) as (d1 & Hrun & _).
  destruct (Compute_shift q' m d instance s d1 _ Hrun) as (d2 & Hrun2 & Hq).
  by exists d1, d2, (Compute_state d s).
Qed.

Lemma X11_increment_independent_witness :
  Solid_wf line_solid
  ∧ ∃ d1 d2 s1,
      Compute line_model (line_data 5) 0 line_solid = ok (d1, s1)
      ∧ Compute line_model (set_qfrc_passive (fun _ => 7%R) (line_data 5)) 0
          line_solid = ok (d2, s1)
      ∧ ∀ k, (qfrc_passive d2 k - 7
              = qfrc_passive d1 k - qfrc_passive (line_data 5) k)%R.
Proof.
  assert (Solid_wf line_solid) as Hwf.
  { apply (Solid_Solid_wf true 0 line_model (line_data 4) 0 (3 / 10) 100 1
             tet_simplex [])%R.
    vm_compute. reflexivity. }
  exact (conj Hwf
    (X11_increment_independent line_model (line_data 5) 0 line_solid
       (fun _ => 7%R) Hwf)).
Defined.

(** ** Translations *)

Lemma translate_at (u : larray) (x : ptr) (a b : Z) (c : nat) :
  c < 3 ->
  translate u x (3 * a + (3 * b + Z.of_nat c))%Z
  = (x (3 * a + (3 * b + Z.of_nat c))%Z + u c)%R.
Proof.
  intros Hc. unfold translate. do 2 f_equal.
  replace (3 * a + (3 * b + Z.of_nat c))%Z
    with (Z.of_nat c + (a + b) * 3)%Z by lia.
  rewrite Z.mod_add by lia. rewrite Z.mod_small by lia. lia.
Qed.

Lemma edge_sqlen_translate (u : larray) (x : ptr) (off : Z) (p : Z * Z) :
  edge_sqlen (ptr_add (translate u x) (3 * off)) p
  = edge_sqlen (ptr_add x (3 * off)) p.
Proof.
  unfold edge_sqlen, SquaredDist3, mju_sub3, ptr_add.
  rewrite !translate_at by lia. unfold mjtNum. ring.
Qed.

Lemma GradSquaredLengths_translate (u : larray) (x : ptr) (off : Z)
    (v : list Z) (e i c : nat) :
  c < 3 ->
  GradSquaredLengths (ptr_add (translate u x) (3 * off)) v edge e i c
  = GradSquaredLengths (ptr_add x (3 * off)) v edge e i c.
Proof.
  intros Hc. unfold GradSquaredLengths, ptr_add. cbv zeta.
  rewrite !translate_at by lia. destruct i; unfold mjtNum; ring.
Qed.

Lemma compute_force_ext (s : Solid) (t : nat) (elongation : larray)
    (g1 g2 : nat -> nat -> nat -> mjtNum) :
  (∀ e i c, c < 3 -> g1 e i c = g2 e i c) ->
  compute_force s t elongation g1 = compute_force s t elongation g2.
Proof.
  intros Hg. unfold compute_force. cbv zeta.
  apply for_loopM_ext. intros ed1 f1 _.
  apply for_loopM_ext. intros ed2 f2 _.
  apply for_loopM_ext. intros i f3 _.
  apply for_loopM_ext. intros c f4 Hc. by rewrite Hg.
Qed.

Lemma UpdateSquaredLengths_translate a len eds (u : larray) (x : ptr) off :
  UpdateSquaredLengths a len eds (ptr_add (translate u x) (3 * off))
  = UpdateSquaredLengths a len eds (ptr_add x (3 * off)).
Proof.
  unfold UpdateSquaredLengths. apply for_loopM_ext. intros idx l _.
  destruct (read_at A_edges eds idx); [done|]. cbn [bind ok].
  by rewrite edge_sqlen_translate.
Qed.

Lemma insert_force_translate (u : larray) m s v force d :
  insert_force m s v force (set_xpos (translate u (xpos d)) d)
  = set_xpos (translate u (xpos d)) (insert_force m s v force d).
Proof.
  unfold insert_force.
  apply (for_loop_rel (fun a b => b = set_xpos (translate u (xpos d)) a));
    [done|].
  intros i a1 b1 _ Hab1.
  apply (for_loop_rel (fun a b => b = set_xpos (translate u (xpos d)) a));
    [done|].
  by intros c a2 b2 _ ->.
Qed.

Lemma Compute_translate (u : larray) m d instance s d1 s1 :
  Compute m d instance s = ok (d1, s1) ->
  Compute m (set_xpos (translate u (xpos d)) d) instance s
  = ok (set_xpos (translate u (xpos d)) d1, s1).
Proof.
  unfold Compute. intros (s' & Hs' & H)%bind_ok_inv.
  apply bind_ok_inv in H as (d1' & Hd1 & H). cbv zeta in H. injection H as <- <-.
  assert (update_deformed (set_xpos (translate u (xpos d)) d) s = ok s') as ->.
  { rewrite <- Hs'. unfold update_deformed. destruct (f0 s <? 0)%Z; [|done].
    cbn [xpos set_xpos]. by rewrite UpdateSquaredLengths_translate. }
  cbn [bind ok].
  eapply (for_loopM_sim
            (fun a b => xpos a = xpos d ∧ b = set_xpos (translate u (xpos d)) a))
    in Hd1 as (d2 & Hd2 & _ & ->).
  - by rewrite Hd2.
  - done.
  - intros t a b a' _ [Hx ->] Ha. unfold compute_element in *.
    apply bind_ok_inv in Ha as (el & Hel & H). rewrite Hel. cbn [bind ok].
    cbv zeta in *. apply bind_ok_inv in H as (elo & Helo & H).
    apply bind_ok_inv in H as (force & Hforce & H). injection H as <-.
    change (compute_elongation m (set_xpos (translate u (xpos d)) a) s' el)
      with (compute_elongation m a s' el).
    rewrite Helo. cbn [bind ok xpos set_xpos].
    rewrite (compute_force_ext s' t elo _
               (GradSquaredLengths (ptr_add (xpos a) (3 * i0 s'))
                  (Stencil3D.vertices el) edge)).
    2:{ intros e i c Hc. rewrite <- Hx. by apply GradSquaredLengths_translate. }
    rewrite Hforce. cbn [bind ok]. eexists. split; [reflexivity|].
    split.
    + destruct (insert_force_same_inputs m s' (Stencil3D.vertices el) force a)
        as [-> _]. done.
    + rewrite <- Hx at 1 2. apply insert_force_translate.
Qed.

(** X12.  [Compute] is invariant under translation: with every position of
    [xpos] moved by the same vector [u], it adds the same force to
    [qfrc_passive] and leaves the instance in the same state (in exact
    arithmetic). *)
Theorem X12_translation_invariant (m : mjModel) (d : mjData) (instance : Z)
    (s : Solid) (u : larray) :
  Solid_wf s ->
  ∃ d1 s1,
    Compute m d instance s = ok (d1, s1)
    ∧ Compute m (set_xpos (translate u (xpos d)) d) instance s
      = ok (set_xpos (translate u (xpos d)) d1, s1).
Proof.
  intros Hwf.
  destruct (Compute_ok m d instance s Hwf) as (d1 & Hrun & _).
  exists d1, (Compute_state d s). split; [done|]. by apply Compute_translate.
Qed.

Lemma X12_translation_invariant_witness :
  Solid_wf line_solid
  ∧ ∃ d1 s1,
      Compute line_model (line_data 5) 0 line_solid = ok (d1, s1)
      ∧ Compute line_model
          (set_xpos (translate (fun c => INR c) (xpos (line_data 5)))
             (line_data 5)) 0 line_solid
        = ok (set_xpos (translate (fun c => INR c) (xpos (line_data 5))) d1, s1).
Proof.
  assert (Solid_wf line_solid) as Hwf.
  { apply (Solid_Solid_wf true 0 line_model (line_data 4) 0 (3 / 10) 100 1
             tet_simplex [])%R.
    vm_compute. reflexivity. }
  exact (conj Hwf
    (X12_translation_invariant line_model (line_data 5) 0 line_solid
       (fun c => INR c) Hwf)).
Defined.

(** ** Translating the rest pose *)

Lemma mju_sub3_translate (u : larray) (x : ptr) (off a b : Z) (c : nat) :
  c < 3 ->
  mju_sub3 (ptr_add (ptr_add (translate u x) (3 * off)) (3 * a))
           (ptr_add (ptr_add (translate u x) (3 * off)) (3 * b)) c
  = mju_sub3 (ptr_add (ptr_add x (3 * off)) (3 * a))
             (ptr_add (ptr_add x (3 * off)) (3 * b)) c.
Proof.
  intros Hc. unfold mju_sub3, ptr_add. rewrite !translate_at by lia.
  unfold mjtNum. ring.
Qed.

Lemma ComputeVolume_translate (u : larray) (x : ptr) (off : Z) (v : list Z) :
  ComputeVolume (ptr_add (translate u x) (3 * off)) v
  = ComputeVolume (ptr_add x (3 * off)) v.
Proof.
  unfold ComputeVolume, mju_dot3, mju_cross. cbv zeta.
  by rewrite !mju_sub3_translate by lia.
Qed.

Lemma ComputeBasis_translate (u : larray) (x : ptr) (off : Z) (v : list Z)
    (faceL faceR : nat -> nat) (volume : mjtNum) (b1 b2 : larray) :
  (∀ k, b1 k = b2 k) ->
  ∀ k, ComputeBasis b1 (ptr_add (translate u x) (3 * off)) v faceL faceR volume k
       = ComputeBasis b2 (ptr_add x (3 * off)) v faceL faceR volume k.
Proof.
  intros Hb. unfold ComputeBasis. cbv zeta.
  apply (for_loop_rel (fun a b : larray => ∀ k, a k = b k)); [done|].
  intros i a1 a2 Hi Ha.
  apply (for_loop_rel (fun a b : larray => ∀ k, a k = b k)); [done|].
  intros j a3 a4 Hj Ha' k. unfold upd. destruct (Nat.eqb k _); [|apply Ha'].
  unfold mju_cross. rewrite !mju_sub3_translate by lia. reflexivity.
Qed.

Lemma edge_basis_translate (u : larray) (x : ptr) (off : Z) (v : list Z)
    (volume : mjtNum) (e k : nat) :
  edge_basis (ptr_add (translate u x) (3 * off)) v volume e k
  = edge_basis (ptr_add x (3 * off)) v volume e k.
Proof.
  revert e k. unfold edge_basis.
  apply (for_loop_rel (fun a b : nat -> larray => ∀ e k, a e k = b e k));
    [done|].
  intros e a b _ Hab e' k. unfold upd. destruct (Nat.eqb e' e); [|apply Hab].
  apply ComputeBasis_translate. apply Hab.
Qed.

Lemma first_invariant_ext (basis1 basis2 : nat -> larray) :
  (∀ e k, basis1 e k = basis2 e k) ->
  ∀ e, first_invariant basis1 e = first_invariant basis2 e.
Proof.
  intros Hb. unfold first_invariant.
  apply (for_loop_rel (fun a b : larray => ∀ k, a k = b k)); [done|].
  intros e a1 a2 _ Ha.
  apply (for_loop_rel (fun a b : larray => ∀ k, a k = b k)); [done|].
  intros i a3 a4 _ Ha' k. unfold upd. destruct (Nat.eqb k e); [|apply Ha'].
  by rewrite Ha', Hb.
Qed.

Lemma second_invariant_ext (basis1 basis2 : nat -> larray) :
  (∀ e k, basis1 e k = basis2 e k) ->
  ∀ k, second_invariant basis1 k = second_invariant basis2 k.
Proof.
  intros Hb. unfold second_invariant.
  apply (for_loop_rel (fun a b : larray => ∀ k, a k = b k)); [done|].
  intros ed1 a1 a2 _ Ha.
  apply (for_loop_rel (fun a b : larray => ∀ k, a k = b k)); [done|].
  intros ed2 a3 a4 _ Ha'.
  apply (for_loop_rel (fun a b : larray => ∀ k, a k = b k)); [done|].
  intros i a5 a6 _ Ha''.
  apply (for_loop_rel (fun a b : larray => ∀ k, a k = b k)); [done|].
  intros j a7 a8 _ Ha''' k. unfold upd. destruct (Nat.eqb k _); [|apply Ha'''].
  by rewrite Ha''', !Hb.
Qed.

Lemma assemble_metric_translate (u : larray) m instance nu E t s :
  assemble_metric (set_body_pos (translate u (body_pos m)) m) instance nu E t s
  = assemble_metric m instance nu E t s.
Proof.
  unfold assemble_metric.
  destruct (read_at A_elements (elements s) t) as [|el]; cbn [bind ok];
    [reflexivity|].
  cbv zeta.
  change (check_plugin_bodies (set_body_pos (translate u (body_pos m)) m))
    with (check_plugin_bodies m).
  destruct (check_plugin_bodies m instance s (Stencil3D.vertices el));
    cbn [bind ok]; [reflexivity|].
  change (body_pos (set_body_pos (translate u (body_pos m)) m))
    with (translate u (body_pos m)).
  rewrite ComputeVolume_translate.
  apply (f_equal (fun r => bind r _)).
  apply for_loopM_ext. intros ed1 mt1 _.
  apply for_loopM_ext. intros ed2 mt2 _.
  apply (f_equal (write_at _ _ _)). unfold metric_entry.
  rewrite (second_invariant_ext _ _ (edge_basis_translate u _ _ _ _)).
  rewrite !(first_invariant_ext _ _ (edge_basis_translate u _ _ _ _)).
  reflexivity.
Qed.

(** X13.  The constructor is invariant under translation of the rest pose:
    with every position of [body_pos] moved by the same vector [u] it has the
    same outcome, the same instance (metric and rest lengths included) or the
    same failure (in exact arithmetic). *)
Theorem X13_rest_pose_translation (debug : bool) (i0_init : Z) (m : mjModel)
    (d : mjData) (instance : Z) (nu E damp : mjtNum) (simplex edgeidx : list Z)
    (u : larray) :
  Solid_Solid debug i0_init (set_body_pos (translate u (body_pos m)) m) d
    instance nu E damp simplex edgeidx
  = Solid_Solid debug i0_init m d instance nu E damp simplex edgeidx.
Proof.
  unfold Solid_Solid. cbv zeta.
  change (Solid_init i0_init (set_body_pos (translate u (body_pos m)) m))
    with (Solid_init i0_init m).
  destruct (CreateStencils debug simplex edgeidx
              (Solid_init i0_init m instance damp)) as [|s1]; cbn [bind ok];
    [reflexivity|].
  rewrite (for_loopM_ext _ _ (assemble_metric m instance nu E))
    by (intros; apply assemble_metric_translate).
  destruct (for_loopM _ (assemble_metric m instance nu E) _) as [|s2];
    cbn [bind ok]; [reflexivity|].
  change (body_pos (set_body_pos (translate u (body_pos m)) m))
    with (translate u (body_pos m)).
  by rewrite UpdateSquaredLengths_translate.
Qed.

(** ** Steady state *)

Lemma set_lengths_wf damp s :
  Solid_wf s ->
  Solid_wf (set_lengths damp (reference s) (deformed s) (previous s) s).
Proof. done. Qed.

(** Without a flex, when the stored previous lengths are those of the current
    positions, the damping term vanishes. *)
Lemma elongation_of_steady m d s el e (h damp : mjtNum) :
  (f0 s < 0)%Z ->
  previous s = deformed s ->
  elongation_of (set_opt_timestep h m) d
    (set_lengths damp (reference s) (deformed s) (previous s) s) el e
  = elongation_of m d s el e.
Proof.
  intros Hf0%Z.ltb_lt Hprev. unfold elongation_of.
  change (f0 (set_lengths damp (reference s) (deformed s) (previous s) s))
    with (f0 s).
  rewrite Hf0. cbv zeta.
  change (deformed (set_lengths damp (reference s) (deformed s) (previous s) s))
    with (deformed s).
  change (reference (set_lengths damp (reference s) (deformed s) (previous s) s))
    with (reference s).
  change (previous (set_lengths damp (reference s) (deformed s) (previous s) s))
    with (previous s).
  rewrite Hprev. unfold read_at.
  destruct (deformed s !! _) as [dfm|]; cbn [bind ok fail]; [|reflexivity].
  destruct (reference s !! _) as [ref|]; cbn [bind ok fail]; [|reflexivity].
  f_equal. unfold mjtNum, Rdiv. ring.
Qed.

Lemma Compute_steady m d instance s (h damp : mjtNum) :
  Solid_wf s -> (f0 s < 0)%Z ->
  previous s = map (edge_sqlen (ptr_add (xpos d) (3 * i0 s))) (edges s) ->
  ∃ d2,
    Compute m d instance s = ok (d2, Compute_state d s)
    ∧ Compute (set_opt_timestep h m) d instance
        (set_lengths damp (reference s) (deformed s) (previous s) s)
      = ok (d2, Compute_state d
                  (set_lengths damp (reference s) (deformed s) (previous s) s)).
Proof.
  intros Hwf Hf0 Hprev.
  destruct (Compute_ok m d instance s Hwf) as (d2 & Hrun & _).
  exists d2. split; [done|].
  destruct (Compute_ok (set_opt_timestep h m) d instance _
              (set_lengths_wf damp s Hwf)) as (d2' & Hrun' & _).
  rewrite Hrun'. do 2 f_equal.
  unfold Compute in Hrun, Hrun'.
  rewrite update_deformed_ok in Hrun, Hrun'
    by (destruct Hwf as (? & ? & ? & ? & ? & ? & ?); simpl; lia).
  cbn [bind ok] in Hrun, Hrun'.
  fold (Compute_visit d s) in Hrun.
  fold (Compute_visit d
          (set_lengths damp (reference s) (deformed s) (previous s) s)) in Hrun'.
  apply bind_ok_inv in Hrun as (a & Ha & Hq). injection Hq as <- _.
  apply bind_ok_inv in Hrun' as (a' & Ha' & Hq'). injection Hq' as <- _.
  assert (Compute_visit d
            (set_lengths damp (reference s) (deformed s) (previous s) s)
          = set_lengths damp (reference (Compute_visit d s))
              (deformed (Compute_visit d s)) (previous (Compute_visit d s))
              (Compute_visit d s)) as Hvis.
  { unfold Compute_visit.
    change (f0 (set_lengths damp (reference s) (deformed s) (previous s) s))
      with (f0 s).
    by destruct (f0 s <? 0)%Z. }
  rewrite Hvis in Ha'. set (sv := Compute_visit d s) in *.
  change (nt (set_lengths damp (reference sv) (deformed sv) (previous sv) sv))
    with (nt sv) in Ha'.
  rewrite (for_loopM_ext _ _ (compute_element m sv)) in Ha'.
  - rewrite Ha in Ha'. by injection Ha' as <-.
  - intros t b _. unfold compute_element.
    change (elements (set_lengths damp (reference sv) (deformed sv)
                        (previous sv) sv)) with (elements sv).
    destruct (read_at A_elements (elements sv) t) as [|el]; cbn [bind ok];
      [reflexivity|].
    cbv zeta.
    assert (compute_elongation (set_opt_timestep h m) b
              (set_lengths damp (reference sv) (deformed sv) (previous sv) sv) el
            = compute_elongation m b sv el) as ->; [|reflexivity].
    unfold compute_elongation. apply for_loopM_ext. intros e elo _.
    rewrite elongation_of_steady; [done| |].
    + subst sv. unfold Compute_visit. by destruct (f0 s <? 0)%Z.
    + subst sv. unfold Compute_visit.
      apply Z.ltb_lt in Hf0. rewrite Hf0. simpl. done.
Qed.

(** X18.  Without a flex, damping acts only on changes between consecutive
    steps: when [Compute] is called again with the positions of the previous
    call, the second call adds the force it would add with any other damping
    coefficient and timestep (in particular with no damping at all). *)
Theorem X18_steady_state_undamped (m : mjModel) (d : mjData) (instance : Z)
    (s : Solid) (h damp : mjtNum) :
  Solid_wf s -> (f0 s < 0)%Z ->
  ∃ d1 d2,
    Compute m d instance s = ok (d1, Compute_state d s)
    ∧ Compute m d1 instance (Compute_state d s)
      = ok (d2, Compute_state d1 (Compute_state d s))
    ∧ Compute (set_opt_timestep h m) d1 instance
        (set_lengths damp (reference (Compute_state d s))
           (deformed (Compute_state d s)) (previous (Compute_state d s))
           (Compute_state d s))
      = ok (d2, Compute_state d1
                  (set_lengths damp (reference (Compute_state d s))
                     (deformed (Compute_state d s))
                     (previous (Compute_state d s)) (Compute_state d s))).
Proof.
  intros Hwf Hf0.
  destruct (Compute_ok m d instance s Hwf) as (d1 & Hrun & Hx & _).
  pose proof (Compute_state_wf d s Hwf) as Hwf1.
  pose proof Hf0 as Hlt%Z.ltb_lt.
  destruct (Compute_steady m d1 instance (Compute_state d s) h damp Hwf1)
    as (d2 & Hrun2 & Hrun2').
  - unfold Compute_state. by rewrite Hlt.
  - unfold Compute_state. rewrite Hlt. simpl. by rewrite Hx.
  - by exists d1, d2.
Qed.

Lemma X18_steady_state_undamped_witness :
  Solid_wf line_solid ∧ (f0 line_solid < 0)%Z
  ∧ ∃ d1 d2,
      Compute line_model (line_data 5) 0 line_solid
      = ok (d1, Compute_state (line_data 5) line_solid)
      ∧ Compute line_model d1 0 (Compute_state (line_data 5) line_solid)
        = ok (d2, Compute_state d1 (Compute_state (line_data 5) line_solid))
      ∧ Compute (set_opt_timestep 1 line_model) d1 0
          (set_lengths 0
             (reference (Compute_state (line_data 5) line_solid))
             (deformed (Compute_state (line_data 5) line_solid))
             (previous (Compute_state (line_data 5) line_solid))
             (Compute_state (line_data 5) line_solid))
        = ok (d2, Compute_state d1
                    (set_lengths 0
                       (reference (Compute_state (line_data 5) line_solid))
                       (deformed (Compute_state (line_data 5) line_solid))
                       (previous (Compute_state (line_data 5) line_solid))
                       (Compute_state (line_data 5) line_solid))).
Proof.
  assert (Solid_wf line_solid) as Hwf.
  { apply (Solid_Solid_wf true 0 line_model (line_data 4) 0 (3 / 10) 100 1
             tet_simplex [])%R.
    vm_compute. reflexivity. }
  assert (f0 line_solid < 0)%Z as Hf0 by (vm_compute; reflexivity).
  exact (conj Hwf (conj Hf0
    (X18_steady_state_undamped line_model (line_data 5) 0 line_solid 1 0
       Hwf Hf0))).
Defined.
